(** * DevOpsSandbox: a shallow embedding of the session authority and the
      sandbox executor (auth.py, sandbox.py, logger.py, server.py, config.py)

    Conventions of the embedding.
    - A Python [str] is a Rocq [string]; every [ascii] stands for one code
      point below 256 (for ASCII text this is the text itself).
    - A [dict] whose iteration order decides the result (the credential
      tables) is an association list in insertion order; the registries
      looked up by key only are [gmap string _].
    - [datetime.utcnow()] and [time.time()] read one wall clock; an instant is
      a [Z] number of microseconds.  The clock, the secure random source, the
      working directory and what the operating system refuses belong to the
      environment ([Env]); each read of the clock or of the random source
      advances a counter kept in the state.
    - A [pathlib] path is its root and its names ([Path.t]); the disk is the
      set of its directories and the set of its regular files, each entry
      being the list of names from "/" down.  [Path.mkdir], [Path.exists] and
      [shutil.rmtree] look a path up name by name, as the kernel does on a
      tree without symbolic links.
    - Code that can raise returns a [result]. *)

From Stdlib Require Import ZArith NArith String Ascii List Bool Lia.
From Stdlib Require Import DecimalString DecimalNat DecimalFacts.
From stdpp Require Import gmap strings list.

Local Open Scope string_scope.
Local Open Scope list_scope.
Local Open Scope Z_scope.

(* stdpp freezes string concatenation under [simpl]; the proofs below compute with it. *)
#[local] Arguments String.append : simpl nomatch.

(* ===================================================================== *)
(** ** Python string primitives used by the sources *)
(* ===================================================================== *)
Module Py.

(** [str.isspace] on one code point below 256. *)
Definition isspace (c : ascii) : bool :=
  let n := N_of_ascii c in
  ((9 <=? n) && (n <=? 13) || (28 <=? n) && (n <=? 32)
   || (n =? 133) || (n =? 160))%N.

(** [str.lower] on one code point below 256. *)
Definition lower_char (c : ascii) : ascii :=
  let n := N_of_ascii c in
  if ((65 <=? n) && (n <=? 90)
      || (192 <=? n) && (n <=? 222) && negb (n =? 215))%N
  then ascii_of_N (n + 32) else c.

Fixpoint lower (s : string) : string :=
  match s with
  | EmptyString => EmptyString
  | String c t => String (lower_char c) (lower t)
  end.

Fixpoint lstrip (s : string) : string :=
  match s with
  | EmptyString => EmptyString
  | String c t => if isspace c then lstrip t else s
  end.

Fixpoint rev_onto (s acc : string) : string :=
  match s with
  | EmptyString => acc
  | String c t => rev_onto t (String c acc)
  end.

Definition rev (s : string) : string := rev_onto s EmptyString.

Definition rstrip (s : string) : string := rev (lstrip (rev s)).

(** [s.strip()] *)
Definition strip (s : string) : string := rstrip (lstrip s).

(** [s.split()]: the maximal runs of non-whitespace characters, in order.
    [cur] is the run being read, reversed. *)
Fixpoint split_go (s cur : string) : list string :=
  match s with
  | EmptyString =>
      match cur with EmptyString => [] | _ => [rev cur] end
  | String c t =>
      if isspace c
      then match cur with
           | EmptyString => split_go t EmptyString
           | _ => rev cur :: split_go t EmptyString
           end
      else split_go t (String c cur)
  end.

Definition split (s : string) : list string := split_go s EmptyString.

(** [s.startswith(p)] *)
Definition startswith (p s : string) : bool := String.prefix p s.

(** [needle in hay] for two strings: substring containment. *)
Fixpoint contains (needle hay : string) : bool :=
  String.prefix needle hay ||
  match hay with
  | EmptyString => false
  | String _ t => contains needle t
  end.

(** [x in xs] for a list of strings. *)
Definition mem (x : string) (xs : list string) : bool :=
  existsb (String.eqb x) xs.

(** [sep.join(xs)] *)
Fixpoint join (sep : string) (xs : list string) : string :=
  match xs with
  | [] => ""
  | [x] => x
  | x :: rest => x +:+ sep +:+ join sep rest
  end.

(** [s[:n]] *)
Fixpoint take (n : nat) (s : string) : string :=
  match n, s with
  | S k, String c t => String c (take k t)
  | _, _ => EmptyString
  end.

(** [str(n)] for an integer. *)
Definition str_of_nat (n : nat) : string :=
  NilZero.string_of_uint (Nat.to_uint n).

Definition str_of_Z (z : Z) : string :=
  NilZero.string_of_int (Z.to_int z).

(** Truth value of an [Optional[str]]: [None] and [""] are false. *)
Definition truthy (o : option string) : bool :=
  match o with
  | Some (String _ _) => true
  | _ => false
  end.

Definition is_ascii (s : string) : bool :=
  forallb (fun c => (N_of_ascii c <? 128)%N) (list_ascii_of_string s).

(** [s.encode()]: UTF-8 of code points below 256. *)
Definition encode (s : string) : list Z :=
  flat_map (fun c =>
              let n := Z.of_N (N_of_ascii c) in
              if n <? 128 then [n]
              else [Z.lor 192 (Z.shiftr n 6); Z.lor 128 (Z.land n 63)])
           (list_ascii_of_string s).

End Py.

(* ===================================================================== *)
(** ** hashlib.sha256 (FIPS 180-4) on 32-bit words held in [Z] *)
(* ===================================================================== *)
Module Sha256.

Definition add32 (x y : Z) : Z := (x + y) mod 2 ^ 32.
Definition rotr (n x : Z) : Z :=
  Z.lor (Z.shiftr x n) (Z.land (Z.shiftl x (32 - n)) 0xFFFFFFFF).
Definition not32 (x : Z) : Z := Z.lxor x 0xFFFFFFFF.

Definition Ch (x y z : Z) : Z := Z.lxor (Z.land x y) (Z.land (not32 x) z).
Definition Maj (x y z : Z) : Z :=
  Z.lxor (Z.lxor (Z.land x y) (Z.land x z)) (Z.land y z).
Definition bsig0 (x : Z) : Z := Z.lxor (Z.lxor (rotr 2 x) (rotr 13 x)) (rotr 22 x).
Definition bsig1 (x : Z) : Z := Z.lxor (Z.lxor (rotr 6 x) (rotr 11 x)) (rotr 25 x).
Definition ssig0 (x : Z) : Z := Z.lxor (Z.lxor (rotr 7 x) (rotr 18 x)) (Z.shiftr x 3).
Definition ssig1 (x : Z) : Z := Z.lxor (Z.lxor (rotr 17 x) (rotr 19 x)) (Z.shiftr x 10).

(** The constants of FIPS 180-4, from their definition: the first 32 bits of
    the fractional parts of the cube roots (round constants) and of the
    square roots (initial hash value) of the first primes. *)
Definition is_prime (n : nat) : bool :=
  forallb (fun d => negb (Nat.eqb (n mod d) 0)) (seq 2 (n - 2)).

Definition primes_below (n : nat) : list Z :=
  map Z.of_nat (filter (fun k => is_prime k) (seq 2 (n - 2))).

(** The largest [r] below [2 ^ bits] with [r ^ 3 <= n]. *)
Fixpoint cube_root (bits : nat) (n r : Z) : Z :=
  match bits with
  | O => r
  | S b =>
      let c := r + 2 ^ Z.of_nat b in
      cube_root b n (if c * c * c <=? n then c else r)
  end.

Definition frac_cube_root32 (p : Z) : Z := cube_root 40 (p * 2 ^ 96) 0 mod 2 ^ 32.
Definition frac_square_root32 (p : Z) : Z := Z.sqrt (p * 2 ^ 64) mod 2 ^ 32.

Definition K : list Z :=
  Eval vm_compute in map frac_cube_root32 (primes_below 312).
Definition H0 : list Z :=
  Eval vm_compute in map frac_square_root32 (primes_below 20).

(** Padding: a 1 bit, zeros up to 56 mod 64 bytes, the bit length on 8 bytes. *)
Definition be_bytes (n : nat) (x : Z) : list Z :=
  map (fun i => Z.land (Z.shiftr x (8 * Z.of_nat i)) 255) (List.rev (seq 0 n)).

Definition pad (msg : list Z) : list Z :=
  let len := Z.of_nat (length msg) in
  let zeros := Z.to_nat ((55 - len) mod 64) in
  msg ++ [128] ++ repeat 0 zeros ++ be_bytes 8 (8 * len).

Fixpoint words (fuel : nat) (bs : list Z) : list Z :=
  match fuel, bs with
  | S f, a :: b :: c :: d :: rest =>
      (Z.shiftl a 24 + Z.shiftl b 16 + Z.shiftl c 8 + d) :: words f rest
  | _, _ => []
  end.

(** Message schedule, most recent word first. *)
Fixpoint extend (n : nat) (w : list Z) : list Z :=
  match n with
  | O => w
  | S k =>
      let nw := add32 (add32 (ssig1 (nth 1 w 0)) (nth 6 w 0))
                      (add32 (ssig0 (nth 14 w 0)) (nth 15 w 0)) in
      extend k (nw :: w)
  end.

Definition schedule (block : list Z) : list Z :=
  List.rev (extend 48 (List.rev block)).

Definition round (st : list Z) (kw : Z * Z) : list Z :=
  match st with
  | [a; b; c; d; e; f; g; h] =>
      let t1 := add32 (add32 (add32 h (bsig1 e)) (add32 (Ch e f g) (fst kw))) (snd kw) in
      let t2 := add32 (bsig0 a) (Maj a b c) in
      [add32 t1 t2; a; b; c; add32 d t1; e; f; g]
  | _ => st
  end.

Definition compress (h : list Z) (block : list Z) : list Z :=
  let st := fold_left round (combine K (schedule block)) h in
  map (fun p => add32 (fst p) (snd p)) (combine h st).

Fixpoint blocks (fuel : nat) (ws : list Z) (h : list Z) : list Z :=
  match fuel with
  | O => h
  | S f =>
      match ws with
      | [] => h
      | _ => blocks f (skipn 16 ws) (compress h (firstn 16 ws))
      end
  end.

Definition digest (msg : list Z) : list Z :=
  let bs := pad msg in
  let ws := words (length bs) bs in
  blocks (length ws) ws H0.

Definition hex_digit (n : Z) : ascii :=
  if n <? 10 then ascii_of_N (Z.to_N (48 + n)) else ascii_of_N (Z.to_N (87 + n)).

Definition hex_word (x : Z) : string :=
  string_of_list_ascii
    (map (fun i => hex_digit (Z.land (Z.shiftr x (4 * Z.of_nat i)) 15))
         (List.rev (seq 0 8))).

(** [hashlib.sha256(msg).hexdigest()] *)
Definition hexdigest (msg : list Z) : string :=
  fold_right (fun w acc => hex_word w +:+ acc) "" (digest msg).

End Sha256.

(* ===================================================================== *)
(** ** pathlib: pure POSIX paths *)
(* ===================================================================== *)
Module Path.

(** A [PurePosixPath]: its root ("", "/" or "//") and the names after it. *)
Record t := { root : string; parts : list string }.

(** [s.split("/")] *)
Fixpoint split_sep (s cur : string) : list string :=
  match s with
  | EmptyString => [Py.rev cur]
  | String c rest =>
      if Ascii.eqb c "/" then Py.rev cur :: split_sep rest EmptyString
      else split_sep rest (String c cur)
  end.

(** [s.lstrip("/")] *)
Fixpoint lstrip_sep (s : string) : string :=
  match s with
  | EmptyString => EmptyString
  | String c rest => if Ascii.eqb c "/" then lstrip_sep rest else s
  end.

(** [splitroot]: exactly two leading slashes are kept as the root "//". *)
Definition splitroot (part : string) : string * string :=
  match part with
  | String c _ =>
      if Ascii.eqb c "/" then
        let stripped_part := lstrip_sep part in
        if (String.length part - String.length stripped_part =? 2)%nat
        then ("//", stripped_part)
        else ("/", stripped_part)
      else ("", part)
  | EmptyString => ("", part)
  end.

(** [Path(s)]: empty names and "." are dropped, ".." is kept. *)
Definition parse (s : string) : t :=
  let '(root, rel) := splitroot s in
  {| root := root;
     parts := List.filter (fun x => negb (String.eqb x "") && negb (String.eqb x "."))
                (split_sep rel EmptyString) |}.

(** [p / s]: a rooted [s] replaces [p]. *)
Definition joinpath (p : t) (s : string) : t :=
  let q := parse s in
  if String.eqb (root q) "" then {| root := root p; parts := parts p ++ parts q |}
  else q.

(** [str(p)] *)
Definition str (p : t) : string :=
  match root p +:+ Py.join "/" (parts p) with
  | EmptyString => "."
  | text => text
  end.

End Path.

(* ===================================================================== *)
(** ** config.py *)
(* ===================================================================== *)
Module Config.

Record t := {
  AUTH_TOKEN_SECRET : string;
  (** the text [Path(...)] is applied to *)
  SANDBOX_ROOT : string;
  MAX_EXECUTION_TIME : Z;
  MAX_OUTPUT_SIZE : Z;
  AVAILABLE_TOOLS : list string;
  BLOCKED_COMMANDS : list string
}.

(** The values config.py takes when no environment variable overrides them. *)
Definition default : t := {|
  AUTH_TOKEN_SECRET := "devops-agent-secret-key-2025";
  SANDBOX_ROOT := "./sandbox";
  MAX_EXECUTION_TIME := 30;
  MAX_OUTPUT_SIZE := 1048576;
  AVAILABLE_TOOLS :=
    ["git"; "curl"; "wget"; "ssh"; "scp"; "rsync";
     "docker"; "kubectl"; "terraform"; "ansible";
     "grep"; "awk"; "sed"; "find"; "cat"; "ls"; "pwd"];
  BLOCKED_COMMANDS :=
    ["rm"; "rmdir"; "delete"; "format"; "fdisk";
     "mkfs"; "mount"; "umount"; "reboot"; "shutdown";
     "systemctl"; "service"; "kill"; "killall"]
|}.

End Config.

(* ===================================================================== *)
(** ** models.py *)
(* ===================================================================== *)

(** A value of a [Dict[str, Any]] or of a logger keyword argument. *)
Inductive Any :=
| VStr (s : string)
| VInt (z : Z)
| VBool (b : bool)
| VStrs (l : list string)
| VNone.

Definition VOpt (o : option string) : Any :=
  match o with Some s => VStr s | None => VNone end.

Inductive AuthMethod := SSH_KEY | API_TOKEN.

Definition AuthMethod_value (m : AuthMethod) : string :=
  match m with SSH_KEY => "ssh_key" | API_TOKEN => "api_token" end.

Inductive CommandStatus := PENDING | RUNNING | COMPLETED | FAILED | TIMEOUT.

Definition CommandStatus_value (s : CommandStatus) : string :=
  match s with
  | PENDING => "pending" | RUNNING => "running" | COMPLETED => "completed"
  | FAILED => "failed" | TIMEOUT => "timeout"
  end.

Record AuthRequest := {
  method : AuthMethod;
  credentials : string;
  username : option string
}.

Record AuthResponse := {
  success : bool;
  session_id : option string;
  message : string;
  expires_at : option Z
}.

Record CommandRequest := {
  rq_session_id : string;
  command : string;
  args : list string;
  environment : list (string * string);
  working_directory : option string;
  timeout : option Z
}.

Record CommandResponse := {
  command_id : string;
  status : CommandStatus;
  stdout : string;
  stderr : string;
  exit_code : option Z;
  execution_time : option Z;
  timestamp : Z;
  resource_usage : list (string * Any)
}.

Record SandboxInfo := {
  sb_session_id : string;
  sb_working_directory : string;
  environment_variables : list (string * string);
  available_tools : list string;
  resource_limits : list (string * Any);
  sb_created_at : Z
}.

(** An entry of [AuthManager.active_sessions]. *)
Record Session := {
  s_username : string;
  s_auth_method : AuthMethod;
  s_created_at : Z;
  s_expires_at : Z;
  s_last_activity : Z
}.

Record SessionInfo := {
  si_session_id : string;
  si_username : string;
  si_auth_method : AuthMethod;
  si_created_at : Z;
  si_last_activity : Z;
  commands_executed : Z;
  sandbox_info : SandboxInfo
}.

(** [timedelta(hours=24)] in microseconds. *)
Definition hours24 : Z := 24 * 3600 * 1000000.

(* ===================================================================== *)
(** ** The environment and the state of the server process *)
(* ===================================================================== *)

Inductive Level := info | warning | error | debug.

(** [level.upper()] *)
Definition Level_upper (l : Level) : string :=
  match l with
  | info => "INFO" | warning => "WARNING" | error => "ERROR" | debug => "DEBUG"
  end.

(** An entry of [StructuredLogger.json_logs]. *)
Record LogEntry := {
  log_timestamp : Z;
  log_level : Level;
  log_event : string;
  log_fields : list (string * Any)
}.

Record Env := {
  cfg : Config.t;
  (** the n-th reading of the wall clock, microseconds *)
  clock : nat -> Z;
  (** the n-th draw of [secrets.token_urlsafe(32)] *)
  token_urlsafe : nat -> string;
  (** the working directory of the process, as the names from "/" down *)
  cwd : list string;
  (** whether the operating system refuses to create that directory although
      its parent exists and nothing is in its place (rights, quota, a name
      that is too long) *)
  mkdir_refused : list string -> bool;
  (** whether [shutil.rmtree] fails part way through that directory, and
      which entries below it it has not reached when it does *)
  rmtree_raises : list string -> bool;
  rmtree_spares : list string -> list string -> bool;
  (** the lines of the authorized_keys file, [None] when it does not exist *)
  authorized_keys : option (list string)
}.

(** What is on disk when the process starts. *)
Record Disk := {
  disk_dirs : gset (list string);
  disk_files : gset (list string)
}.

Record World := {
  (* AuthManager *)
  active_sessions : gmap string Session;
  api_tokens : list (string * string);
  ssh_keys : list (string * string);
  (* SandboxManager *)
  active_sandboxes : gmap string SandboxInfo;
  command_history : gmap string (list CommandResponse);
  (* StructuredLogger *)
  json_logs : list LogEntry;
  (* the directories and the regular files on disk, each as the names
     from "/" down; "/" itself always exists *)
  dirs : gset (list string);
  files : gset (list string);
  (* how often the clock and the random source have been read *)
  clock_reads : nat;
  tokens_drawn : nat
}.

Definition set_active_sessions (f : gmap string Session -> gmap string Session)
  (w : World) : World :=
  {| active_sessions := f (active_sessions w); api_tokens := api_tokens w;
     ssh_keys := ssh_keys w; active_sandboxes := active_sandboxes w;
     command_history := command_history w; json_logs := json_logs w;
     dirs := dirs w; files := files w; clock_reads := clock_reads w;
     tokens_drawn := tokens_drawn w |}.

Definition set_active_sandboxes
  (f : gmap string SandboxInfo -> gmap string SandboxInfo) (w : World) : World :=
  {| active_sessions := active_sessions w; api_tokens := api_tokens w;
     ssh_keys := ssh_keys w; active_sandboxes := f (active_sandboxes w);
     command_history := command_history w; json_logs := json_logs w;
     dirs := dirs w; files := files w; clock_reads := clock_reads w;
     tokens_drawn := tokens_drawn w |}.

Definition set_command_history
  (f : gmap string (list CommandResponse) -> gmap string (list CommandResponse))
  (w : World) : World :=
  {| active_sessions := active_sessions w; api_tokens := api_tokens w;
     ssh_keys := ssh_keys w; active_sandboxes := active_sandboxes w;
     command_history := f (command_history w); json_logs := json_logs w;
     dirs := dirs w; files := files w; clock_reads := clock_reads w;
     tokens_drawn := tokens_drawn w |}.

Definition set_json_logs (f : list LogEntry -> list LogEntry) (w : World) : World :=
  {| active_sessions := active_sessions w; api_tokens := api_tokens w;
     ssh_keys := ssh_keys w; active_sandboxes := active_sandboxes w;
     command_history := command_history w; json_logs := f (json_logs w);
     dirs := dirs w; files := files w; clock_reads := clock_reads w;
     tokens_drawn := tokens_drawn w |}.

Definition set_dirs (f : gset (list string) -> gset (list string))
  (w : World) : World :=
  {| active_sessions := active_sessions w; api_tokens := api_tokens w;
     ssh_keys := ssh_keys w; active_sandboxes := active_sandboxes w;
     command_history := command_history w; json_logs := json_logs w;
     dirs := f (dirs w); files := files w; clock_reads := clock_reads w;
     tokens_drawn := tokens_drawn w |}.

Definition set_files (f : gset (list string) -> gset (list string))
  (w : World) : World :=
  {| active_sessions := active_sessions w; api_tokens := api_tokens w;
     ssh_keys := ssh_keys w; active_sandboxes := active_sandboxes w;
     command_history := command_history w; json_logs := json_logs w;
     dirs := dirs w; files := f (files w); clock_reads := clock_reads w;
     tokens_drawn := tokens_drawn w |}.

Definition tick_clock (w : World) : World :=
  {| active_sessions := active_sessions w; api_tokens := api_tokens w;
     ssh_keys := ssh_keys w; active_sandboxes := active_sandboxes w;
     command_history := command_history w; json_logs := json_logs w;
     dirs := dirs w; files := files w; clock_reads := S (clock_reads w);
     tokens_drawn := tokens_drawn w |}.

Definition tick_tokens (w : World) : World :=
  {| active_sessions := active_sessions w; api_tokens := api_tokens w;
     ssh_keys := ssh_keys w; active_sandboxes := active_sandboxes w;
     command_history := command_history w; json_logs := json_logs w;
     dirs := dirs w; files := files w; clock_reads := clock_reads w;
     tokens_drawn := S (tokens_drawn w) |}.

(** *** The state monad of the process *)
Definition M (A : Type) : Type := World -> A * World.

Definition ret {A} (a : A) : M A := fun w => (a, w).
Definition bind {A B} (m : M A) (k : A -> M B) : M B :=
  fun w => let (a, w') := m w in k a w'.
Definition get {A} (f : World -> A) : M A := fun w => (f w, w).
Definition modify (f : World -> World) : M unit := fun w => (tt, f w).

Notation "'let*' x ':=' c 'in' k" := (bind c (fun x => k))
  (at level 10, x name, c at level 100, k at level 200).
Notation "c ';;' k" := (bind c (fun _ => k))
  (at level 100, k at level 200, right associativity).

(** What an operation that can raise gives back. *)
Inductive result (A : Type) :=
| Returned (a : A)
| Raised (exn : string).
Arguments Returned {A} a.
Arguments Raised {A} exn.

(** An exception raised by [c] is passed on, as in a block without [try]. *)
Notation "'try*' x ':=' c 'in' k" :=
  (bind c (fun r => match r with
                    | Raised e => ret (Raised e)
                    | Returned x => k
                    end))
  (at level 10, x name, c at level 100, k at level 200).

(** What a request handler of server.py answers. *)
Inductive http (A : Type) :=
| Ok (a : A)
| HTTPException (status_code : Z) (detail : string).
Arguments Ok {A} a.
Arguments HTTPException {A} status_code detail.

(** [l[i:]] for a Python list and any integer [i]. *)
Definition slice_from {A} (i : Z) (l : list A) : list A :=
  let n := Z.of_nat (length l) in
  if i <? 0 then drop (Z.to_nat (Z.max 0 (n + i))) l
  else drop (Z.to_nat i) l.

(** What [log_structured] keeps of the in-memory log after an append. *)
Definition trim_logs (l : list LogEntry) : list LogEntry :=
  if (1000 <? length l)%nat then slice_from (-1000) l else l.

(** The latest entry of the in-memory log. *)
Definition latest_log (w : World) : option LogEntry := last (json_logs w).

(** The last [n] elements of a list, in their order. *)
Definition lastn {A} (n : nat) (l : list A) : list A := drop (length l - n) l.

(** What [execute_command] keeps of a history after an append. *)
Definition keep_last_100 (h : list CommandResponse) : list CommandResponse :=
  if (100 <? length h)%nat then slice_from (-100) h else h.

(** [d[k] = v] on a dict kept in insertion order. *)
Fixpoint dict_set (k v : string) (d : list (string * string)) : list (string * string) :=
  match d with
  | [] => [(k, v)]
  | (k', v') :: rest =>
      if String.eqb k k' then (k, v) :: rest else (k', v') :: dict_set k v rest
  end.

Section Process.
Variable E : Env.

(** [datetime.utcnow()]; [time.time()] reads the same clock. *)
Definition utcnow : M Z :=
  fun w => (clock E (clock_reads w), tick_clock w).

(* ===================================================================== *)
(** ** logger.py *)
(* ===================================================================== *)

Definition log_structured (level : Level) (event : string)
  (kwargs : list (string * Any)) : M LogEntry :=
  let* now := utcnow in
  let log_entry := {| log_timestamp := now; log_level := level;
                      log_event := event; log_fields := kwargs |} in
  modify (set_json_logs (fun l => l ++ [log_entry])) ;;
  let* n := get (fun w => length (json_logs w)) in
  (if (1000 <? n)%nat
   then modify (set_json_logs (slice_from (-1000)))
   else ret tt) ;;
  ret log_entry.

Definition logger_error (message : string) (kwargs : list (string * Any)) : M LogEntry :=
  log_structured error message kwargs.

Definition logger_info (message : string) (kwargs : list (string * Any)) : M LogEntry :=
  log_structured info message kwargs.

Definition audit (event : string) (session_id : string)
  (kwargs : list (string * Any)) : M LogEntry :=
  log_structured info ("AUDIT: " +:+ event)
    (("session_id", VStr session_id) :: ("audit", VBool true) :: kwargs).

Definition get_recent_logs (limit : Z) : M (list LogEntry) :=
  get (fun w => if 0 <? limit then slice_from (- limit) (json_logs w)
                else json_logs w).


(* ===================================================================== *)
(** ** auth.py *)
(* ===================================================================== *)

(** [hashlib.sha256(f"{name}-{secret}".encode()).hexdigest()[:32]] *)
Definition demo_token (name secret : string) : string :=
  Py.take 32 (Sha256.hexdigest (Py.encode (name +:+ "-" +:+ secret))).

Definition _load_api_tokens : list (string * string) :=
  let secret := Config.AUTH_TOKEN_SECRET (cfg E) in
  [("admin", demo_token "admin" secret);
   ("devops", demo_token "devops" secret);
   ("user", demo_token "user" secret)].

(** One line of the authorized_keys file, numbered [line_num]. *)
Definition load_key_line (line_num : nat) (line : string)
  (ssh_keys : list (string * string)) : list (string * string) :=
  let line := Py.strip line in
  match line with
  | EmptyString => ssh_keys
  | _ =>
      if Py.startswith "#" line then ssh_keys
      else
        match Py.split line with
        | key_type :: key_data :: more =>
            let username :=
              match more with
              | u :: _ => u
              | [] => "user_" +:+ Py.str_of_nat line_num
              end in
            dict_set username (key_type +:+ " " +:+ key_data) ssh_keys
        | _ => ssh_keys
        end
  end.

Fixpoint load_key_lines (line_num : nat) (lines : list string)
  (ssh_keys : list (string * string)) : list (string * string) :=
  match lines with
  | [] => ssh_keys
  | line :: rest =>
      load_key_lines (S line_num) rest (load_key_line line_num line ssh_keys)
  end.

Definition _load_ssh_keys : list (string * string) :=
  let ssh_keys :=
    match authorized_keys E with
    | Some lines => load_key_lines 0 lines []
    | None => []
    end in
  match ssh_keys with
  | [] => [("demo", "ssh-rsa AAAAB3NzaC1yc2EAAAADAQABAAABgQC... demo@localhost")]
  | _ => ssh_keys
  end.

(** The loop of [_validate_ssh_key] over [self.ssh_keys.items()]. *)
Fixpoint validate_ssh_key_loop (provided_key : string)
  (items : list (string * string)) : option string :=
  match items with
  | [] => None
  | (username, stored_key) :: rest =>
      if String.eqb provided_key stored_key || Py.contains provided_key stored_key
      then Some username
      else validate_ssh_key_loop provided_key rest
  end.

Definition _validate_ssh_key (provided_key : string) : M (option string) :=
  let provided_key := Py.strip provided_key in
  let* keys := get ssh_keys in
  ret (validate_ssh_key_loop provided_key keys).

(** [secrets.compare_digest] on two [str]: a [TypeError] unless both are
    ASCII, their equality otherwise. *)
Definition compare_digest (a b : string) : result bool :=
  if Py.is_ascii a && Py.is_ascii b then Returned (String.eqb a b)
  else Raised "TypeError".

Fixpoint validate_api_token_loop (token : string)
  (items : list (string * string)) : result (option string) :=
  match items with
  | [] => Returned None
  | (username, stored_token) :: rest =>
      match compare_digest token stored_token with
      | Raised e => Raised e
      | Returned true => Returned (Some username)
      | Returned false => validate_api_token_loop token rest
      end
  end.

Definition _validate_api_token (token : string) : M (result (option string)) :=
  let* tokens := get api_tokens in
  ret (validate_api_token_loop token tokens).

Definition authenticate (auth_request : AuthRequest) : M (result AuthResponse) :=
  let* found :=
    match method auth_request with
    | SSH_KEY =>
        let* u := _validate_ssh_key (credentials auth_request) in
        ret (Returned u)
    | API_TOKEN => _validate_api_token (credentials auth_request)
    end in
  match found with
  | Raised e => ret (Raised e)
  | Returned matched =>
      match matched with
      | Some (String _ _ as name) =>
          (* Create session *)
          let* session_id :=
            (fun w => (token_urlsafe E (tokens_drawn w), tick_tokens w)) in
          let* now := utcnow in
          let expires_at := now + hours24 in
          let* created := utcnow in
          let* active := utcnow in
          modify (set_active_sessions
                    (insert session_id
                       {| s_username := name;
                          s_auth_method := method auth_request;
                          s_created_at := created;
                          s_expires_at := expires_at;
                          s_last_activity := active |})) ;;
          audit "authentication_success" session_id
            [("method", VStr (AuthMethod_value (method auth_request)));
             ("username", VStr name)] ;;
          ret (Returned {| success := true;
                           session_id := Some session_id;
                           message := "Authenticated as " +:+ name;
                           expires_at := Some expires_at |})
      | _ =>
          (* [not username]: no match, or a match on an empty name *)
          audit "authentication_failed" "none"
            [("method", VStr (AuthMethod_value (method auth_request)));
             ("username", VOpt (username auth_request))] ;;
          ret (Returned {| success := false;
                           session_id := None;
                           message := "Invalid credentials";
                           expires_at := None |})
      end
  end.

Definition validate_session (session_id : string) : M (option Session) :=
  let* found := get (fun w => active_sessions w !! session_id) in
  match found with
  | None => ret None
  | Some session =>
      (* Check expiration *)
      let* now := utcnow in
      if s_expires_at session <? now
      then
        modify (set_active_sessions (delete session_id)) ;;
        audit "session_expired" session_id [] ;;
        ret None
      else
        (* Update last activity *)
        let* now' := utcnow in
        let session' :=
          {| s_username := s_username session;
             s_auth_method := s_auth_method session;
             s_created_at := s_created_at session;
             s_expires_at := s_expires_at session;
             s_last_activity := now' |} in
        modify (set_active_sessions (insert session_id session')) ;;
        ret (Some session')
  end.

Definition logout (session_id : string) : M bool :=
  let* found := get (fun w => active_sessions w !! session_id) in
  match found with
  | Some session =>
      modify (set_active_sessions (delete session_id)) ;;
      audit "logout" session_id [("username", VStr (s_username session))] ;;
      ret true
  | None => ret false
  end.

Definition get_active_sessions : M (gmap string Session) :=
  let* now := utcnow in
  modify (set_active_sessions
            (filter (fun kv => negb (s_expires_at (snd kv) <? now) = true))) ;;
  get active_sessions.


(* ===================================================================== *)
(** ** sandbox.py *)
(* ===================================================================== *)

(** The line feed of the Python literals. *)
Definition nl : string := String (ascii_of_nat 10) EmptyString.

(** *** The directory tree, as [Path.mkdir], [Path.exists] and
    [shutil.rmtree] act on it

    A directory or a file is the list of names that leads to it from "/".
    The tree has no symbolic links and reading it is never refused.  An
    exception is named by its class; "OSError" stands for whichever of its
    subclasses the operating system reports when it refuses a change. *)

Definition SANDBOX_ROOT : Path.t := Path.parse (Config.SANDBOX_ROOT (cfg E)).

(** A NUL character in a path makes every system call raise [ValueError]. *)
Definition has_nul (s : string) : bool :=
  existsb (Ascii.eqb Ascii.zero) (list_ascii_of_string s).

Definition is_dir (ds : gset (list string)) (d : list string) : bool :=
  match d with
  | [] => true
  | _ => bool_decide (d ∈ ds)
  end.

(** Where one more name leads from a directory. *)
Definition enter (cur : list string) (name : string) : list string :=
  if String.eqb name ".." then removelast cur else cur ++ [name].

(** The directory a list of names leads to, each looked up in turn. *)
Fixpoint walk (ds fl : gset (list string)) (cur : list string)
  (names : list string) : result (list string) :=
  match names with
  | [] => Returned cur
  | name :: rest =>
      let next := enter cur name in
      if is_dir ds next then walk ds fl next rest
      else if bool_decide (next ∈ fl) then Raised "NotADirectoryError"
      else Raised "FileNotFoundError"
  end.

(** The place a path names.  The names before the last one must be
    directories; the place itself need not exist. *)
Definition locate (p : Path.t) : M (result (list string)) :=
  get (fun w =>
    let start := if String.eqb (Path.root p) "" then cwd E else [] in
    if has_nul (Path.str p) then Raised "ValueError"
    else if negb (is_dir (dirs w) start) then Raised "FileNotFoundError"
    else
      match walk (dirs w) (files w) start (removelast (Path.parts p)) with
      | Raised e => Raised e
      | Returned cur =>
          Returned (match last (Path.parts p) with
                    | Some name => enter cur name
                    | None => cur
                    end)
      end).

(** Whether the last name of a path is the name of an entry of its parent
    (and not "..", or missing as in "." and "/"). *)
Definition names_entry (p : Path.t) : bool :=
  match last (Path.parts p) with
  | Some name => negb (String.eqb name "..")
  | None => false
  end.

(** [p.mkdir(exist_ok=True)]: a directory that is there already is fine,
    a missing parent or anything else in the way is not. *)
Definition mkdir (p : Path.t) : M (result unit) :=
  try* place := locate p in
  let* there := get (fun w => is_dir (dirs w) place) in
  let* taken := get (fun w => bool_decide (place ∈ files w)) in
  if there then ret (Returned tt)
  else if taken then ret (Raised "FileExistsError")
  else if negb (names_entry p) then ret (Raised "FileNotFoundError")
  else if mkdir_refused E place then ret (Raised "OSError")
  else modify (set_dirs (fun d => {[place]} ∪ d)) ;; ret (Returned tt).

(** [p.exists()] *)
Definition path_exists (p : Path.t) : M bool :=
  let* found := locate p in
  match found with
  | Raised _ => ret false
  | Returned place =>
      get (fun w => is_dir (dirs w) place || bool_decide (place ∈ files w))
  end.

(** [q] is [t] or lies below it. *)
Definition below (t q : list string) : bool := bool_decide (t `prefix_of` q).

Definition strictly_below (t q : list string) : bool :=
  below t q && negb (bool_decide (q = t)).

(** What a failed [rmtree] of [t] leaves below it: the entries the
    environment spares, with the directories that lead to them. *)
Definition spared (t : list string) (entries : gset (list string))
  (q : list string) : bool :=
  bool_decide (set_Exists (fun q' => below q q' = true /\
                                     rmtree_spares E t q' = true) entries).

(** The entries picked by [gone] disappear. *)
Definition unlink (gone : list string -> bool) : M unit :=
  modify (set_dirs (filter (fun q => gone q = false))) ;;
  modify (set_files (filter (fun q => gone q = false))).

(** [shutil.rmtree(p)]: the entries below the directory go first, the
    directory itself last.  A failure part way leaves the directory and
    some of its entries; a path that names no entry of its parent ("x/..",
    ".", "/") is emptied and then cannot be removed. *)
Definition rmtree (p : Path.t) : M (result unit) :=
  try* place := locate p in
  let* taken := get (fun w => bool_decide (place ∈ files w)) in
  let* there := get (fun w => is_dir (dirs w) place) in
  if taken then ret (Raised "NotADirectoryError")
  else if negb there then ret (Raised "FileNotFoundError")
  else if rmtree_raises E place then
    let* kept := get (fun w => spared place (dirs w ∪ files w)) in
    unlink (fun q => strictly_below place q && negb (kept q)) ;;
    ret (Raised "OSError")
  else if names_entry p then
    unlink (below place) ;;
    ret (Returned tt)
  else
    unlink (strictly_below place) ;;
    ret (Raised "OSError").

(** *** SandboxManager *)

Definition create_sandbox (session_id user : string) : M (result SandboxInfo) :=
  let sandbox_dir := Path.joinpath SANDBOX_ROOT session_id in
  try* _ := mkdir sandbox_dir in
  (* Create basic directory structure *)
  try* _ := mkdir (Path.joinpath sandbox_dir "home") in
  try* _ := mkdir (Path.joinpath sandbox_dir "tmp") in
  try* _ := mkdir (Path.joinpath sandbox_dir "workspace") in
  let env_vars :=
    [("HOME", Path.str (Path.joinpath sandbox_dir "home"));
     ("TMPDIR", Path.str (Path.joinpath sandbox_dir "tmp"));
     ("USER", user);
     ("PWD", Path.str (Path.joinpath sandbox_dir "workspace"));
     ("PATH", "/usr/local/bin:/usr/bin:/bin");
     ("SHELL", "/bin/bash");
     ("TERM", "xterm-256color")] in
  let* now := utcnow in
  let sandbox_info :=
    {| sb_session_id := session_id;
       sb_working_directory := Path.str (Path.joinpath sandbox_dir "workspace");
       environment_variables := env_vars;
       available_tools := Config.AVAILABLE_TOOLS (cfg E);
       resource_limits :=
         [("max_execution_time", VInt (Config.MAX_EXECUTION_TIME (cfg E)));
          ("max_output_size", VInt (Config.MAX_OUTPUT_SIZE (cfg E)));
          ("max_memory", VStr "512MB");
          ("max_cpu", VStr "50%")];
       sb_created_at := now |} in
  modify (set_active_sandboxes (insert session_id sandbox_info)) ;;
  modify (set_command_history (insert session_id [])) ;;
  audit "sandbox_created" session_id
    [("sandbox_dir", VStr (Path.str sandbox_dir))] ;;
  ret (Returned sandbox_info).

Definition get_sandbox (session_id : string) : M (option SandboxInfo) :=
  get (fun w => active_sandboxes w !! session_id).

Definition dangerous_patterns : list string :=
  [">"; ">>"; "|"; "&"; ";"; "$("; "`"].

(** The [for pattern in dangerous_patterns] loop of [_is_command_safe]. *)
Fixpoint first_dangerous (patterns : list string) (command : string) : option string :=
  match patterns with
  | [] => None
  | pattern :: rest =>
      if Py.contains pattern command then Some pattern
      else first_dangerous rest command
  end.

Definition _is_command_safe (command : string) : bool * string :=
  match Py.split (Py.strip command) with
  | [] => (false, "Empty command")
  | first :: _ =>
      let base_command := Py.lower first in
      (* Check blocked commands *)
      if Py.mem base_command (Config.BLOCKED_COMMANDS (cfg E))
      then (false, "Command '" +:+ base_command +:+ "' is blocked for security reasons")
      (* Check if it's a known safe tool *)
      else if negb (Py.mem base_command (Config.AVAILABLE_TOOLS (cfg E)))
      then (false, "Command '" +:+ base_command +:+ "' is not available in sandbox")
      (* Additional safety checks *)
      else match first_dangerous dangerous_patterns command with
           | Some pattern =>
               (false, "Command contains potentially dangerous pattern: " +:+ pattern)
           | None => (true, "Command is safe")
           end
  end.

Definition _simulate_devops_command (command : string) (args : list string)
  : string * string * Z :=
  let cmd_lower := Py.lower command in
  if String.eqb cmd_lower "git" then
    match args with
    | [] => ("git version 2.34.1", "", 0)
    | a0 :: more =>
        if String.eqb a0 "status" then
          ("On branch main" +:+ nl +:+ "nothing to commit, working tree clean", "", 0)
        else if String.eqb a0 "clone" then
          ("Cloning into '"
             +:+ match more with a1 :: _ => a1 | [] => "repository" end
             +:+ "'..." +:+ nl +:+ "Done.", "", 0)
        else if String.eqb a0 "pull" then ("Already up to date.", "", 0)
        else ("Simulated: git " +:+ Py.join " " args, "", 0)
    end
  else if String.eqb cmd_lower "docker" then
    match args with
    | [] => ("Docker version 20.10.17", "", 0)
    | a0 :: _ =>
        if String.eqb a0 "ps" then
          ("CONTAINER ID   IMAGE     COMMAND   CREATED   STATUS    PORTS     NAMES", "", 0)
        else if String.eqb a0 "images" then
          ("REPOSITORY    TAG       IMAGE ID       CREATED       SIZE", "", 0)
        else ("Simulated: docker " +:+ Py.join " " args, "", 0)
    end
  else if String.eqb cmd_lower "kubectl" then
    match args with
    | [] => ("kubectl controls the Kubernetes cluster manager.", "", 0)
    | a0 :: _ =>
        if String.eqb a0 "get" then ("No resources found in default namespace.", "", 0)
        else ("Simulated: kubectl " +:+ Py.join " " args, "", 0)
    end
  else if String.eqb cmd_lower "terraform" then
    match args with
    | [] => ("Terraform v1.0.0", "", 0)
    | a0 :: _ =>
        if String.eqb a0 "plan" then ("No changes. Infrastructure is up-to-date.", "", 0)
        else if String.eqb a0 "apply" then
          ("Apply complete! Resources: 0 added, 0 changed, 0 destroyed.", "", 0)
        else ("Simulated: terraform " +:+ Py.join " " args, "", 0)
    end
  else if String.eqb cmd_lower "curl" then
    let url := match args with a0 :: _ => a0 | [] => "http://example.com" end in
    ("Simulated HTTP GET to " +:+ url +:+ nl +:+ "Status: 200 OK" +:+ nl
       +:+ "Content: Sample response", "", 0)
  else if Py.mem cmd_lower ["ls"; "pwd"; "cat"; "grep"; "find"] then
    ("Simulated: " +:+ command +:+ " " +:+ Py.join " " args, "", 0)
  else
    ("Simulated: " +:+ command +:+ " " +:+ Py.join " " args, "", 0).

(** [int(time.time())]: whole seconds of a reading in microseconds. *)
Definition whole_seconds (reading : Z) : Z := Z.quot reading 1000000.

Definition execute_command (session_id : string) (request : CommandRequest)
  : M CommandResponse :=
  let* t0 := utcnow in
  let command_id :=
    "cmd_" +:+ session_id +:+ "_" +:+ Py.str_of_Z (whole_seconds t0) in
  let* start_time := utcnow in
  (* Validate session has sandbox *)
  let* sandbox := get_sandbox session_id in
  match sandbox with
  | None =>
      let* now := utcnow in
      ret {| command_id := command_id; status := FAILED; stdout := "";
             stderr := "No sandbox found for session"; exit_code := Some 1;
             execution_time := Some 0; timestamp := now; resource_usage := [] |}
  | Some _ =>
      (* Check command safety *)
      let (is_safe, safety_message) := _is_command_safe (command request) in
      if negb is_safe then
        audit "unsafe_command_blocked" session_id
          [("command", VStr (command request)); ("reason", VStr safety_message)] ;;
        let* t1 := utcnow in
        let* now := utcnow in
        ret {| command_id := command_id; status := FAILED; stdout := "";
               stderr := "Command blocked: " +:+ safety_message;
               exit_code := Some 1; execution_time := Some (t1 - start_time);
               timestamp := now; resource_usage := [] |}
      else
        audit "command_execution_started" session_id
          [("command_id", VStr command_id); ("command", VStr (command request));
           ("args", VStrs (args request))] ;;
        (* Execute command in simulation mode *)
        let '(out, err, code) :=
          _simulate_devops_command (command request) (args request) in
        let* t1 := utcnow in
        let elapsed := t1 - start_time in
        let st := if code =? 0 then COMPLETED else FAILED in
        let* now := utcnow in
        let response :=
          {| command_id := command_id; status := st; stdout := out;
             stderr := err; exit_code := Some code;
             execution_time := Some elapsed; timestamp := now;
             resource_usage :=
               [("cpu_time", VInt elapsed); ("memory_peak", VStr "< 1MB");
                ("disk_io", VStr "minimal")] |} in
        (* Store command history *)
        let* tracked := get (fun w => command_history w !! session_id) in
        match tracked with
        | Some history =>
            let history := history ++ [response] in
            (* Keep only last 100 commands *)
            modify (set_command_history
                      (insert session_id
                         (if (100 <? length history)%nat
                          then slice_from (-100) history else history)))
        | None => ret tt
        end ;;
        audit "command_execution_completed" session_id
          [("command_id", VStr command_id);
           ("status", VStr (CommandStatus_value st));
           ("exit_code", VInt code); ("execution_time", VInt elapsed)] ;;
        ret response
  end.

Definition get_command_history (session_id : string) (limit : Z)
  : M (list CommandResponse) :=
  let* tracked := get (fun w => command_history w !! session_id) in
  match tracked with
  | None => ret []
  | Some history =>
      ret (if 0 <? limit then slice_from (- limit) history else history)
  end.

Definition cleanup_sandbox (session_id : string) : M bool :=
  let* registered := get (fun w => active_sandboxes w !! session_id) in
  match registered with
  | None => ret false
  | Some _ =>
      let sandbox_dir := Path.joinpath SANDBOX_ROOT session_id in
      let* there := path_exists sandbox_dir in
      let* removed := (if there then rmtree sandbox_dir else ret (Returned tt)) in
      match removed with
      | Raised e =>
          (* except Exception *)
          logger_error "sandbox_cleanup_failed"
            [("session_id", VStr session_id); ("error", VStr e)] ;;
          ret false
      | Returned _ =>
          modify (set_active_sandboxes (delete session_id)) ;;
          modify (set_command_history (delete session_id)) ;;
          audit "sandbox_cleaned_up" session_id [] ;;
          ret true
      end
  end.

(* ===================================================================== *)
(** ** server.py: the request handlers *)
(* ===================================================================== *)

Definition get_current_session (session_id : string) : M (http Session) :=
  let* session := validate_session session_id in
  match session with
  | Some s => ret (Ok s)
  | None => ret (HTTPException 401 "Invalid or expired session")
  end.

Definition login (auth_request : AuthRequest) : M (http AuthResponse) :=
  let* outcome :=
    (try* response := authenticate auth_request in
     if success response && Py.truthy (session_id response) then
       match session_id response with
       | Some sid =>
           (* Create sandbox for the new session *)
           let* session := validate_session sid in
           match session with
           | Some s =>
               try* _ := create_sandbox sid (s_username s) in
               ret (Returned response)
           | None => ret (Returned response)
           end
       | None => ret (Returned response)
       end
     else ret (Returned response)) in
  match outcome with
  | Raised e =>
      (* except Exception *)
      logger_error "Authentication error" [("error", VStr e)] ;;
      ret (HTTPException 500 "Authentication failed")
  | Returned response => ret (Ok response)
  end.

Definition logout_endpoint (session_id : string) : M (http (bool * string)) :=
  let* ok := logout session_id in
  (if ok then let* _ := cleanup_sandbox session_id in ret tt else ret tt) ;;
  ret (Ok (ok, "Logged out successfully")).

Definition execute_command_endpoint (session_id : string)
  (command_request : CommandRequest) : M (http CommandResponse) :=
  let* session := get_current_session session_id in
  match session with
  | HTTPException c d => ret (HTTPException c d)
  | Ok _ =>
      (* Ensure the session_id matches *)
      if negb (String.eqb (rq_session_id command_request) session_id)
      then ret (HTTPException 400 "Session ID mismatch")
      else
        let* response := execute_command session_id command_request in
        ret (Ok response)
  end.

Definition get_command_history_endpoint (session_id : string) (limit : Z)
  : M (http (list CommandResponse)) :=
  let* session := get_current_session session_id in
  match session with
  | HTTPException c d => ret (HTTPException c d)
  | Ok _ =>
      let* history := get_command_history session_id limit in
      ret (Ok history)
  end.

(** GET /session/info; [get_command_history] is called with its default
    limit of 50. *)
Definition get_session_info (session_id : string) : M (http SessionInfo) :=
  let* session := get_current_session session_id in
  match session with
  | HTTPException c d => ret (HTTPException c d)
  | Ok session =>
      let* sandbox := get_sandbox session_id in
      match sandbox with
      | None => ret (HTTPException 404 "Sandbox not found")
      | Some sandbox =>
          let* history := get_command_history session_id 50 in
          ret (Ok {| si_session_id := session_id;
                     si_username := s_username session;
                     si_auth_method := s_auth_method session;
                     si_created_at := s_created_at session;
                     si_last_activity := s_last_activity session;
                     commands_executed := Z.of_nat (length history);
                     sandbox_info := sandbox |})
      end
  end.

(** GET /sandbox/info *)
Definition get_sandbox_info (session_id : string) : M (http SandboxInfo) :=
  let* session := get_current_session session_id in
  match session with
  | HTTPException c d => ret (HTTPException c d)
  | Ok _ =>
      let* sandbox := get_sandbox session_id in
      match sandbox with
      | None => ret (HTTPException 404 "Sandbox not found")
      | Some sandbox => ret (Ok sandbox)
      end
  end.

(** GET /admin/sessions *)
Definition get_active_sessions_endpoint (session_id : string)
  : M (http (gmap string Session)) :=
  let* session := get_current_session session_id in
  match session with
  | HTTPException c d => ret (HTTPException c d)
  | Ok session =>
      (* Simple admin check *)
      if negb (Py.mem (s_username session) ["admin"; "root"])
      then ret (HTTPException 403 "Admin access required")
      else
        let* sessions := get_active_sessions in
        ret (Ok sessions)
  end.

(** GET /admin/logs *)
Definition get_logs (session_id : string) (limit : Z) : M (http (list LogEntry)) :=
  let* session := get_current_session session_id in
  match session with
  | HTTPException c d => ret (HTTPException c d)
  | Ok session =>
      if negb (Py.mem (s_username session) ["admin"; "root"])
      then ret (HTTPException 403 "Admin access required")
      else
        let* logs := get_recent_logs limit in
        ret (Ok logs)
  end.

(** The state of a freshly started server process: empty registries, the
    credential tables loaded, and the disk as it was found, with SANDBOX_ROOT
    created by config.py and by [SandboxManager.__init__] where it could be
    (a process that cannot create it does not start). *)
Definition startup (left_on_disk : Disk) : World :=
  snd (mkdir SANDBOX_ROOT
         {| active_sessions := ∅;
            api_tokens := _load_api_tokens;
            ssh_keys := _load_ssh_keys;
            active_sandboxes := ∅;
            command_history := ∅;
            json_logs := [];
            dirs := disk_dirs left_on_disk;
            files := disk_files left_on_disk;
            clock_reads := 0;
            tokens_drawn := 0 |}).

End Process.

(* ===================================================================== *)
(** ** Runs of the process *)
(* ===================================================================== *)

(** One call into the managers or the logger. *)
Inductive op :=
| OpAuthenticate (auth_request : AuthRequest)
| OpValidate (session_id : string)
| OpLogout (session_id : string)
| OpActiveSessions
| OpCreateSandbox (session_id user : string)
| OpExecute (session_id : string) (request : CommandRequest)
| OpHistory (session_id : string) (limit : Z)
| OpCleanup (session_id : string)
| OpLog (level : Level) (event : string) (kwargs : list (string * Any)).

Definition exec_op (E : Env) (o : op) (w : World) : World :=
  match o with
  | OpAuthenticate rq => snd (authenticate E rq w)
  | OpValidate sid => snd (validate_session E sid w)
  | OpLogout sid => snd (logout E sid w)
  | OpActiveSessions => snd (get_active_sessions E w)
  | OpCreateSandbox sid user => snd (create_sandbox E sid user w)
  | OpExecute sid rq => snd (execute_command E sid rq w)
  | OpHistory sid limit => snd (get_command_history sid limit w)
  | OpCleanup sid => snd (cleanup_sandbox E sid w)
  | OpLog level event kwargs => snd (log_structured E level event kwargs w)
  end.

Definition run (E : Env) (ops : list op) (w : World) : World :=
  fold_left (fun w o => exec_op E o w) ops w.

(** The unbounded record of what the executor stored: for every session,
    all results appended to its history since its sandbox was provisioned,
    oldest first.  The ring of the source is compared with it. *)
Definition record_op (E : Env) (o : op) (w : World)
  (full : gmap string (list CommandResponse)) : gmap string (list CommandResponse) :=
  match o with
  | OpCreateSandbox sid user =>
      match fst (create_sandbox E sid user w) with
      | Returned _ => <[sid := []]> full
      | Raised _ => full
      end
  | OpExecute sid rq =>
      match active_sandboxes w !! sid with
      | Some _ =>
          if fst (_is_command_safe E (command rq))
          then alter (fun l => l ++ [fst (execute_command E sid rq w)]) sid full
          else full
      | None => full
      end
  | OpCleanup sid =>
      if fst (cleanup_sandbox E sid w) then delete sid full else full
  | _ => full
  end.

Fixpoint record_run (E : Env) (ops : list op) (w : World)
  (full : gmap string (list CommandResponse)) : gmap string (list CommandResponse) :=
  match ops with
  | [] => full
  | o :: rest => record_run E rest (exec_op E o w) (record_op E o w full)
  end.

(** The sandbox side of the state is untouched between [w] and [w']. *)
Definition sandbox_frame (w w' : World) : Prop :=
  active_sandboxes w' = active_sandboxes w /\
  command_history w' = command_history w /\
  dirs w' = dirs w /\
  files w' = files w.

(** The session side of the state is untouched between [w] and [w']. *)
Definition auth_frame (w w' : World) : Prop :=
  active_sessions w' = active_sessions w /\
  api_tokens w' = api_tokens w /\
  ssh_keys w' = ssh_keys w /\
  tokens_drawn w' = tokens_drawn w.

(** The stored histories are the last 100 entries of the unbounded record,
    and exactly the sessions with a sandbox have a history. *)
Definition ring_inv (w : World) (full : gmap string (list CommandResponse)) : Prop :=
  dom (active_sandboxes w) = dom (command_history w) /\
  forall sid, command_history w !! sid = lastn 100 <$> full !! sid.

(** [sandbox_dir] of the sandbox manager: the path of the root of a session. *)
Definition sandbox_dir (E : Env) (session_id : string) : Path.t :=
  Path.joinpath (SANDBOX_ROOT E) session_id.

(** Whether the [try] block of [cleanup_sandbox] raises for a session id:
    the root exists and [shutil.rmtree] fails on it. *)
Definition removal_fails (E : Env) (session_id : string) (w : World) : bool :=
  fst (path_exists E (sandbox_dir E session_id) w) &&
  match fst (rmtree E (sandbox_dir E session_id) w) with
  | Raised _ => true
  | Returned _ => false
  end.

(** The exception [create_sandbox] raises for a session id on the disk of
    [w], [None] when it returns; the user plays no part in it. *)
Definition provisioning_error (E : Env) (session_id : string) (w : World)
  : option string :=
  match fst (create_sandbox E session_id "" w) with
  | Returned _ => None
  | Raised e => Some e
  end.

(** Whether the root of a session id is on disk, as [Path.exists] tells. *)
Definition root_exists (E : Env) (session_id : string) (w : World) : bool :=
  fst (path_exists E (sandbox_dir E session_id) w).

(** Nothing but the directory set differs between [w] and [w'], and no
    directory has gone. *)
Definition dirs_grow (w w' : World) : Prop :=
  active_sessions w' = active_sessions w /\
  api_tokens w' = api_tokens w /\
  ssh_keys w' = ssh_keys w /\
  active_sandboxes w' = active_sandboxes w /\
  command_history w' = command_history w /\
  json_logs w' = json_logs w /\
  files w' = files w /\
  clock_reads w' = clock_reads w /\
  tokens_drawn w' = tokens_drawn w /\
  dirs w ⊆ dirs w'.

(** Nothing but the disk differs between [w] and [w'], and nothing has
    appeared on it. *)
Definition disk_shrinks (w w' : World) : Prop :=
  active_sessions w' = active_sessions w /\
  api_tokens w' = api_tokens w /\
  ssh_keys w' = ssh_keys w /\
  active_sandboxes w' = active_sandboxes w /\
  command_history w' = command_history w /\
  json_logs w' = json_logs w /\
  clock_reads w' = clock_reads w /\
  tokens_drawn w' = tokens_drawn w /\
  dirs w' ⊆ dirs w /\
  files w' ⊆ files w.

(** The table [authenticate] searches for the method of a request. *)
Definition credential_table (rq : AuthRequest) (w : World) : list (string * string) :=
  match method rq with
  | SSH_KEY => ssh_keys w
  | API_TOKEN => api_tokens w
  end.

(** The credential entry a request matches, as [authenticate] computes it. *)
Definition matched_user (rq : AuthRequest) (w : World) : result (option string) :=
  match method rq with
  | SSH_KEY =>
      Returned (validate_ssh_key_loop (Py.strip (credentials rq)) (ssh_keys w))
  | API_TOKEN => validate_api_token_loop (credentials rq) (api_tokens w)
  end.

(** No whitespace in a string. *)
Definition nospace (s : string) : bool :=
  forallb (fun c => negb (Py.isspace c)) (list_ascii_of_string s).

(** Every tracked session was minted by [authenticate]: its id is a token
    drawn earlier, its owner is a non-empty name of the credential table of
    its method. *)
Definition session_inv (E : Env) (w : World) : Prop :=
  api_tokens w = _load_api_tokens E /\
  ssh_keys w = _load_ssh_keys E /\
  forall sid s, active_sessions w !! sid = Some s ->
    s_username s <> "" /\
    (exists i, (i < tokens_drawn w)%nat /\ sid = token_urlsafe E i) /\
    exists stored,
      In (s_username s, stored)
         (match s_auth_method s with
          | SSH_KEY => ssh_keys w
          | API_TOKEN => api_tokens w
          end).

(** Every registered sandbox is filed under its own session id and works in
    the workspace below its own root. *)
Definition sandbox_inv (E : Env) (w : World) : Prop :=
  forall sid sb, active_sandboxes w !! sid = Some sb ->
    sb_session_id sb = sid /\
    sb_working_directory sb =
      Path.str (Path.joinpath (sandbox_dir E sid) "workspace").

(** A name that is one path component and names an entry: not empty, not
    "." or "..", without "/" and without NUL.  The tokens of
    [secrets.token_urlsafe] are such names. *)
Definition plain_name (s : string) : bool :=
  negb (String.eqb s "") && negb (String.eqb s ".") && negb (String.eqb s "..") &&
  forallb (fun c => negb (Ascii.eqb c "/") && negb (Ascii.eqb Ascii.zero c))
          (list_ascii_of_string s).

(** The sandbox manager is called with plain names only. *)
Definition plain_op (o : op) : bool :=
  match o with
  | OpCreateSandbox sid _ => plain_name sid
  | OpCleanup sid => plain_name sid
  | _ => true
  end.

(** The place a path names, read off its names alone. *)
Definition place_of (E : Env) (p : Path.t) : list string :=
  fold_left enter (Path.parts p)
            (if String.eqb (Path.root p) "" then cwd E else []).

(** The place of the root of a session's sandbox. *)
Definition root_place (E : Env) (session_id : string) : list string :=
  place_of E (sandbox_dir E session_id).

(** Every registered sandbox has a plain name and its root on disk. *)
Definition roots_inv (E : Env) (w : World) : Prop :=
  forall sid, is_Some (active_sandboxes w !! sid) ->
    plain_name sid = true /\ root_place E sid ∈ dirs w.

(** A concrete environment: the default configuration, no authorized_keys
    file, a clock that advances by one microsecond per reading, distinct
    tokens, the working directory /srv, and a file system that refuses
    nothing. *)
Definition demo_env : Env := {|
  cfg := Config.default;
  clock := fun n => 1700000000000000 + Z.of_nat n;
  token_urlsafe := fun n => "session-token-" +:+ Py.str_of_nat n;
  cwd := ["srv"];
  mkdir_refused := fun _ => false;
  rmtree_raises := fun _ => false;
  rmtree_spares := fun _ _ => false;
  authorized_keys := None
|}.

(** A disk that holds the working directory and nothing else. *)
Definition demo_disk : Disk := {| disk_dirs := {[ ["srv"] ]}; disk_files := ∅ |}.


(** The token minted for user devops under the default secret. *)
Definition devops_token : string := "77c1b3d8c275f2d774a60ea912080c04".

(** The demo process after one successful login of devops: session and
    sandbox "session-token-0" exist. *)
Definition demo_world : World :=
  snd (login demo_env
         {| method := API_TOKEN; credentials := devops_token; username := None |}
         (startup demo_env demo_disk)).

(** A configuration in which "git" is on the block-list and on the
    allow-list at once. *)
Definition overlap_env : Env := {|
  cfg := {| Config.AUTH_TOKEN_SECRET := Config.AUTH_TOKEN_SECRET Config.default;
            Config.SANDBOX_ROOT := Config.SANDBOX_ROOT Config.default;
            Config.MAX_EXECUTION_TIME := 30;
            Config.MAX_OUTPUT_SIZE := 1048576;
            Config.AVAILABLE_TOOLS := ["git"; "ls"];
            Config.BLOCKED_COMMANDS := ["rm"; "git"] |};
  clock := clock demo_env;
  token_urlsafe := token_urlsafe demo_env;
  cwd := ["srv"];
  mkdir_refused := fun _ => false;
  rmtree_raises := fun _ => false;
  rmtree_spares := fun _ _ => false;
  authorized_keys := None
|}.

(** The calls the login handler makes for that login. *)
Definition demo_ops : list op :=
  [OpAuthenticate {| method := API_TOKEN; credentials := devops_token;
                     username := None |};
   OpValidate "session-token-0";
   OpCreateSandbox "session-token-0" "devops"].


(** The demo environment on a file system that lets no directory named
    "home" be made. *)
Definition cramped_env : Env := {|
  cfg := cfg demo_env;
  clock := clock demo_env;
  token_urlsafe := token_urlsafe demo_env;
  cwd := ["srv"];
  mkdir_refused := fun d => bool_decide (last d = Some "home");
  rmtree_raises := fun _ => false;
  rmtree_spares := fun _ _ => false;
  authorized_keys := None
|}.

(** The demo environment with a random source that gives one token over
    and over. *)
Definition stuck_env : Env := {|
  cfg := cfg demo_env;
  clock := clock demo_env;
  token_urlsafe := fun _ => "same-token";
  cwd := ["srv"];
  mkdir_refused := fun _ => false;
  rmtree_raises := fun _ => false;
  rmtree_spares := fun _ _ => false;
  authorized_keys := None
|}.

(** Two logins of the demo scenario: devops by token, with a username the
    client made up, and demo by key. *)
Definition rq_devops : AuthRequest :=
  {| method := API_TOKEN; credentials := devops_token;
     username := Some "mallory" |}.

Definition rq_demo : AuthRequest :=
  {| method := SSH_KEY;
     credentials := "ssh-rsa AAAAB3NzaC1yc2EAAAADAQABAAABgQC... demo@localhost";
     username := None |}.

(** The demo environment with a clock that jumps by a day after the eight
    readings of a login. *)
Definition late_env : Env := {|
  cfg := cfg demo_env;
  clock := fun n => if (n <? 8)%nat then clock demo_env n
                    else clock demo_env n + hours24;
  token_urlsafe := token_urlsafe demo_env;
  cwd := ["srv"];
  mkdir_refused := fun _ => false;
  rmtree_raises := rmtree_raises demo_env;
  rmtree_spares := rmtree_spares demo_env;
  authorized_keys := None
|}.

Definition request (cmd : string) (arguments : list string) (sid : string)
  : CommandRequest :=
  {| rq_session_id := sid; command := cmd; args := arguments;
     environment := []; working_directory := None; timeout := None |}.

(* ===================================================================== *)
(** * Properties *)
(* ===================================================================== *)

(* The bounds (100 results, 1000 log entries) stay folded during simplification. *)
#[local] Arguments Nat.ltb : simpl never.
#[local] Arguments Z.ltb : simpl never.
#[local] Arguments slice_from : simpl never.
#[local] Arguments Py.strip : simpl never.

(** ** The primitives on known values *)

Example sha256_constants :
  length Sha256.K = 64%nat /\ length Sha256.H0 = 8%nat /\
  nth 0 Sha256.K 0 = 0x428a2f98 /\ nth 63 Sha256.K 0 = 0xc67178f2 /\
  nth 0 Sha256.H0 0 = 0x6a09e667 /\ nth 7 Sha256.H0 0 = 0x5be0cd19.
Proof. vm_compute. repeat split. Qed.

Example sha256_abc :
  Sha256.hexdigest (Py.encode "abc")
  = "ba7816bf8f01cfea414140de5dae2223b00361a396177a9cb410ff61f20015ad".
Proof. vm_compute. reflexivity. Qed.

Example sha256_empty :
  Sha256.hexdigest []
  = "e3b0c44298fc1c149afbf4c8996fb92427ae41e4649b934ca495991b7852b855".
Proof. vm_compute. reflexivity. Qed.

Example sha256_two_blocks :
  Sha256.hexdigest
    (Py.encode "abcdbcdecdefdefgefghfghighijhijkijkljklmklmnlmnomnopnopq")
  = "248d6a61d20638b8e5c026930c3e6039a33ce45964ff2167f6ecedd419db06c1".
Proof. vm_compute. reflexivity. Qed.

Example py_split_example :
  Py.split "  git   status " = ["git"; "status"].
Proof. reflexivity. Qed.

Example py_strip_lower_example :
  Py.strip (String (ascii_of_nat 9) " Git  ") = "Git" /\
  Py.lower "Git STATUS" = "git status" /\
  Py.contains "$(" "echo $(id)" = true /\
  Py.contains ">>" "a > b" = false /\
  Py.join " " ["a"; "b"; "c"] = "a b c" /\
  Py.str_of_Z 1700000000 = "1700000000".
Proof. vm_compute. repeat split. Qed.

(** ** Strings *)

Lemma prefix_app (p s : string) :
  String.prefix p s = true <-> exists t, s = p +:+ t.
Proof.
  revert s; induction p as [|c p IH]; intros s.
  - split; [intros _; exists s; reflexivity | intros _; destruct s; reflexivity].
  - destruct s as [|d s]; simpl.
    + split; [discriminate | intros [t Ht]; discriminate].
    + destruct (Ascii.ascii_dec c d) as [->|Hne].
      * rewrite IH. split; intros [t Ht]; exists t; simpl in *; congruence.
      * split; [discriminate | intros [t Ht]; simpl in Ht; congruence].
Qed.

Lemma contains_nil (p : string) : Py.contains p "" = String.prefix p "".
Proof. unfold Py.contains. apply orb_false_r. Qed.

Lemma contains_cons (p : string) (d : ascii) (s : string) :
  Py.contains p (String d s) = String.prefix p (String d s) || Py.contains p s.
Proof. reflexivity. Qed.

(** [Py.contains] is substring containment. *)
Lemma contains_infix (p s : string) :
  Py.contains p s = true <-> exists a b, s = a +:+ p +:+ b.
Proof.
  induction s as [|d s IH].
  - rewrite contains_nil, prefix_app. split.
    + intros [t Ht]. exists "", t. exact Ht.
    + intros [a [b H]]. destruct a; simpl in H; [eauto | discriminate].
  - rewrite contains_cons, orb_true_iff, IH, prefix_app. split.
    + intros [[t Ht] | [a [b H]]].
      * exists "", t. exact Ht.
      * exists (String d a), b. simpl. congruence.
    + intros [a [b H]]. destruct a as [|c a]; simpl in H.
      * left. eauto.
      * right. exists a, b. congruence.
Qed.

Lemma contains_refl (s : string) : Py.contains s s = true.
Proof.
  apply contains_infix. exists "", "". simpl.
  induction s; simpl; congruence.
Qed.

Lemma contains_empty (s : string) : Py.contains "" s = true.
Proof. destruct s; reflexivity. Qed.

(** ** The state monad and the logger *)

Lemma log_structured_eq E level event kwargs w :
  log_structured E level event kwargs w =
  let entry := {| log_timestamp := clock E (clock_reads w); log_level := level;
                  log_event := event; log_fields := kwargs |} in
  (entry, set_json_logs (fun l => trim_logs (l ++ [entry])) (tick_clock w)).
Proof.
  unfold log_structured, bind, ret, get, modify, utcnow, trim_logs,
    set_json_logs, tick_clock; cbn.
  destruct (1000 <? _)%nat; reflexivity.
Qed.

Lemma slice_from_last {A} (n : Z) (l : list A) (x : A) :
  n < 0 -> last (slice_from n (l ++ [x])) = Some x.
Proof.
  intros Hn. unfold slice_from.
  destruct (n <? 0) eqn:Hlt; [|lia].
  rewrite length_app; simpl.
  set (k := Z.to_nat _).
  assert (Hk : (k <= length l)%nat) by (subst k; lia).
  rewrite drop_app_le by exact Hk.
  apply last_snoc.
Qed.

Lemma trim_logs_last (l : list LogEntry) (e : LogEntry) :
  last (trim_logs (l ++ [e])) = Some e.
Proof.
  unfold trim_logs. destruct (_ <? _)%nat.
  - apply slice_from_last. lia.
  - apply last_snoc.
Qed.

Lemma audit_eq E event sid kwargs w :
  audit E event sid kwargs w =
  log_structured E info ("AUDIT: " +:+ event)
    (("session_id", VStr sid) :: ("audit", VBool true) :: kwargs) w.
Proof. reflexivity. Qed.

(** ** The simulated tools *)

Lemma simulate_exit_code (cmd : string) (arguments : list string) :
  snd (_simulate_devops_command cmd arguments) = 0.
Proof.
  unfold _simulate_devops_command.
  repeat match goal with
         | |- context [if ?b then _ else _] => destruct b
         | |- context [match ?l with [] => _ | _ :: _ => _ end] => destruct l
         end; reflexivity.
Qed.

(** ** The policy check *)

Lemma first_dangerous_found (ps : list string) (cmd p : string) :
  In p ps -> Py.contains p cmd = true ->
  exists q, first_dangerous ps cmd = Some q.
Proof.
  induction ps as [|q ps IH]; simpl; [tauto|].
  intros [->|Hin] Hc.
  - rewrite Hc. eauto.
  - destruct (Py.contains q cmd); eauto.
Qed.

(** A metacharacter in the command string itself is always refused. *)
Lemma command_text_metachar_unsafe E (cmd p : string) :
  In p dangerous_patterns -> Py.contains p cmd = true ->
  fst (_is_command_safe E cmd) = false.
Proof.
  intros Hin Hc. unfold _is_command_safe.
  destruct (first_dangerous_found _ _ _ Hin Hc) as [q ->].
  destruct (Py.split (Py.strip cmd)) as [|first rest]; [reflexivity|].
  destruct (Py.mem _ (Config.BLOCKED_COMMANDS _)); [reflexivity|].
  destruct (Py.mem _ (Config.AVAILABLE_TOOLS _)); reflexivity.
Qed.

(** ** The executor *)
#[local] Arguments log_structured : simpl never.

Ltac run_monad :=
  unfold bind, ret, get, modify, utcnow, get_sandbox, audit, logger_error; cbn.

Lemma execute_command_no_sandbox E w sid rq :
  active_sandboxes w !! sid = None ->
  let (r, w') := execute_command E sid rq w in
  status r = FAILED /\ stderr r = "No sandbox found for session" /\
  exit_code r = Some 1 /\
  command_history w' = command_history w /\ json_logs w' = json_logs w.
Proof.
  intros Hsb. unfold execute_command. run_monad. rewrite Hsb. cbn. tauto.
Qed.

Lemma execute_command_rejected E w sid rq sb msg :
  active_sandboxes w !! sid = Some sb ->
  _is_command_safe E (command rq) = (false, msg) ->
  let (r, w') := execute_command E sid rq w in
  status r = FAILED /\ stdout r = "" /\
  stderr r = "Command blocked: " +:+ msg /\ exit_code r = Some 1 /\
  command_history w' = command_history w /\
  active_sandboxes w' = active_sandboxes w /\
  active_sessions w' = active_sessions w /\
  dirs w' = dirs w /\ files w' = files w /\ tokens_drawn w' = tokens_drawn w /\
  json_logs w' = trim_logs (json_logs w ++
     [{| log_timestamp := clock E (S (S (clock_reads w))); log_level := info;
         log_event := "AUDIT: unsafe_command_blocked";
         log_fields := [("session_id", VStr sid); ("audit", VBool true);
                        ("command", VStr (command rq)); ("reason", VStr msg)] |}]).
Proof.
  intros Hsb Hsafe. unfold execute_command. run_monad.
  rewrite Hsb, Hsafe. cbn. rewrite log_structured_eq. cbn.
  repeat split.
Qed.

Lemma execute_command_accepted E w sid rq sb msg :
  active_sandboxes w !! sid = Some sb ->
  _is_command_safe E (command rq) = (true, msg) ->
  let (r, w') := execute_command E sid rq w in
  status r = COMPLETED /\ exit_code r = Some 0 /\
  (stdout r, stderr r, 0) = _simulate_devops_command (command rq) (args rq) /\
  command_history w' =
    match command_history w !! sid with
    | Some h => <[sid := keep_last_100 (h ++ [r])]> (command_history w)
    | None => command_history w
    end /\
  active_sandboxes w' = active_sandboxes w /\
  active_sessions w' = active_sessions w /\
  dirs w' = dirs w /\ files w' = files w /\ tokens_drawn w' = tokens_drawn w /\
  exists elapsed ts,
    execution_time r = Some elapsed /\
    latest_log w' = Some
      {| log_timestamp := ts; log_level := info;
         log_event := "AUDIT: command_execution_completed";
         log_fields := [("session_id", VStr sid); ("audit", VBool true);
                        ("command_id", VStr (command_id r));
                        ("status", VStr "completed");
                        ("exit_code", VInt 0);
                        ("execution_time", VInt elapsed)] |}.
Proof.
  intros Hsb Hsafe. unfold execute_command. run_monad.
  rewrite Hsb, Hsafe. cbn. rewrite log_structured_eq. cbn.
  pose proof (simulate_exit_code (command rq) (args rq)) as Hcode.
  destruct (_simulate_devops_command (command rq) (args rq)) as [[out err] code].
  simpl in Hcode. subst code. cbn.
  destruct (command_history w !! sid) as [h|] eqn:Hh; cbn;
    rewrite log_structured_eq; cbn; unfold latest_log; cbn;
    rewrite trim_logs_last; repeat split; eauto.
Qed.

(** ** Frames: what each call leaves alone *)

Lemma lastn_length {A} (n : nat) (l : list A) :
  length (lastn n l) = Nat.min n (length l).
Proof. unfold lastn. rewrite length_drop. lia. Qed.

Lemma lastn_all {A} (n : nat) (l : list A) :
  (length l <= n)%nat -> lastn n l = l.
Proof. intros H. unfold lastn. replace (length l - n)%nat with 0%nat by lia. reflexivity. Qed.

Lemma slice_from_neg {A} (n : nat) (l : list A) :
  (0 < n)%nat -> slice_from (- Z.of_nat n) l = lastn n l.
Proof.
  intros Hn. unfold slice_from, lastn.
  destruct (_ <? 0) eqn:Hlt; [|lia]. f_equal. lia.
Qed.

Lemma keep_last_100_lastn (h : list CommandResponse) :
  keep_last_100 h = lastn 100 h.
Proof.
  unfold keep_last_100. destruct (100 <? length h)%nat eqn:Hlt.
  - apply (slice_from_neg 100). lia.
  - apply Nat.ltb_ge in Hlt. symmetry. apply lastn_all. exact Hlt.
Qed.

Lemma lastn_suffix {A} (n : nat) (l : list A) : suffix (lastn n l) l.
Proof. apply suffix_drop. Qed.

Lemma lastn_lastn {A} (n m : nat) (l : list A) :
  lastn n (lastn m l) = lastn (Nat.min n m) l.
Proof.
  unfold lastn. rewrite length_drop, drop_drop. f_equal. lia.
Qed.

(** Truncating after every append keeps what one truncation at the end keeps. *)
Lemma lastn_snoc_lastn {A} (n : nat) (l : list A) (x : A) :
  lastn n (lastn n l ++ [x]) = lastn n (l ++ [x]).
Proof.
  destruct n as [|n].
  - unfold lastn. rewrite !Nat.sub_0_r, !drop_all. reflexivity.
  - unfold lastn. rewrite !length_app, length_drop. simpl.
    destruct (decide (length l <= S n)%nat) as [Hle|Hgt].
    + replace (length l - S n)%nat with 0%nat by lia.
      rewrite drop_0. f_equal. lia.
    + rewrite !drop_app_le by (rewrite ?length_drop; lia).
      rewrite drop_drop. do 2 f_equal. lia.
Qed.

Lemma sandbox_frame_refl w : sandbox_frame w w.
Proof. repeat split. Qed.

Lemma sandbox_frame_trans w1 w2 w3 :
  sandbox_frame w1 w2 -> sandbox_frame w2 w3 -> sandbox_frame w1 w3.
Proof.
  unfold sandbox_frame. intros (?&?&?&?) (?&?&?&?). repeat split; congruence.
Qed.

Lemma log_structured_frames E level event kwargs w :
  sandbox_frame w (snd (log_structured E level event kwargs w)) /\
  auth_frame w (snd (log_structured E level event kwargs w)).
Proof. rewrite log_structured_eq. repeat split. Qed.

(** *** auth.py *)

Lemma authenticate_raised E rq w e :
  matched_user rq w = Raised e -> authenticate E rq w = (Raised e, w).
Proof.
  unfold matched_user, authenticate, _validate_ssh_key, _validate_api_token.
  run_monad. destruct (method rq); cbn; [discriminate|].
  intros ->. reflexivity.
Qed.

Lemma authenticate_rejected E rq w o :
  matched_user rq w = Returned o -> Py.truthy o = false ->
  exists w',
    authenticate E rq w =
      (Returned {| success := false; session_id := None;
                   message := "Invalid credentials"; expires_at := None |}, w') /\
    sandbox_frame w w' /\ auth_frame w w' /\
    latest_log w' = Some
      {| log_timestamp := clock E (clock_reads w); log_level := info;
         log_event := "AUDIT: authentication_failed";
         log_fields := [("session_id", VStr "none"); ("audit", VBool true);
                        ("method", VStr (AuthMethod_value (method rq)));
                        ("username", VOpt (username rq))] |}.
Proof.
  unfold matched_user, authenticate, _validate_ssh_key, _validate_api_token.
  run_monad. intros Hm Ht.
  destruct (method rq); cbn in *.
  - injection Hm as <-.
    destruct (validate_ssh_key_loop _ _) as [[|c t]|]; try discriminate;
      cbn; rewrite log_structured_eq; cbn; eexists; split; try reflexivity;
      unfold latest_log; cbn; rewrite trim_logs_last; repeat split.
  - rewrite Hm.
    destruct o as [[|c t]|]; try discriminate;
      cbn; rewrite log_structured_eq; cbn; eexists; split; try reflexivity;
      unfold latest_log; cbn; rewrite trim_logs_last; repeat split.
Qed.

(** The session [authenticate] stores for the matched [name]. *)
Lemma authenticate_accepted E rq w c t :
  matched_user rq w = Returned (Some (String c t)) ->
  let name := String c t in
  let sid := token_urlsafe E (tokens_drawn w) in
  let expiry := clock E (clock_reads w) + hours24 in
  exists w',
    authenticate E rq w =
      (Returned {| success := true; session_id := Some sid;
                   message := "Authenticated as " +:+ name;
                   expires_at := Some expiry |}, w') /\
    active_sessions w' =
      <[sid := {| s_username := name; s_auth_method := method rq;
                  s_created_at := clock E (S (clock_reads w));
                  s_expires_at := expiry;
                  s_last_activity := clock E (S (S (clock_reads w))) |}]>
        (active_sessions w) /\
    tokens_drawn w' = S (tokens_drawn w) /\
    api_tokens w' = api_tokens w /\ ssh_keys w' = ssh_keys w /\
    sandbox_frame w w' /\
    latest_log w' = Some
      {| log_timestamp := clock E (S (S (S (clock_reads w)))); log_level := info;
         log_event := "AUDIT: authentication_success";
         log_fields := [("session_id", VStr sid); ("audit", VBool true);
                        ("method", VStr (AuthMethod_value (method rq)));
                        ("username", VStr name)] |}.
Proof.
  unfold matched_user, authenticate, _validate_ssh_key, _validate_api_token.
  run_monad. intros Hm.
  destruct (method rq); cbn in *.
  - injection Hm as ->. cbn. rewrite log_structured_eq. cbn.
    eexists; split; [reflexivity|].
    unfold latest_log; cbn; rewrite trim_logs_last; repeat split.
  - rewrite Hm. cbn. rewrite log_structured_eq. cbn.
    eexists; split; [reflexivity|].
    unfold latest_log; cbn; rewrite trim_logs_last; repeat split.
Qed.

Lemma validate_session_cases E w sid :
  let (r, w') := validate_session E sid w in
  match active_sessions w !! sid with
  | None => r = None /\ w' = w
  | Some s =>
      if s_expires_at s <? clock E (clock_reads w)
      then
        r = None /\
        active_sessions w' = delete sid (active_sessions w) /\
        latest_log w' = Some
          {| log_timestamp := clock E (S (clock_reads w)); log_level := info;
             log_event := "AUDIT: session_expired";
             log_fields := [("session_id", VStr sid); ("audit", VBool true)] |}
      else
        let s' := {| s_username := s_username s;
                     s_auth_method := s_auth_method s;
                     s_created_at := s_created_at s;
                     s_expires_at := s_expires_at s;
                     s_last_activity := clock E (S (clock_reads w)) |} in
        r = Some s' /\
        active_sessions w' = <[sid := s']> (active_sessions w) /\
        json_logs w' = json_logs w
  end /\
  sandbox_frame w w' /\ tokens_drawn w' = tokens_drawn w /\
  api_tokens w' = api_tokens w /\ ssh_keys w' = ssh_keys w.
Proof.
  unfold validate_session. run_monad.
  destruct (active_sessions w !! sid) as [s|]; cbn.
  - destruct (s_expires_at s <? clock E (clock_reads w)); cbn.
    + rewrite log_structured_eq. cbn. unfold latest_log. cbn.
      rewrite trim_logs_last. repeat split.
    + repeat split.
  - repeat split.
Qed.

Lemma logout_cases E w sid :
  let (r, w') := logout E sid w in
  match active_sessions w !! sid with
  | None => r = false /\ w' = w
  | Some s =>
      r = true /\ active_sessions w' = delete sid (active_sessions w) /\
      latest_log w' = Some
        {| log_timestamp := clock E (clock_reads w); log_level := info;
           log_event := "AUDIT: logout";
           log_fields := [("session_id", VStr sid); ("audit", VBool true);
                          ("username", VStr (s_username s))] |}
  end /\
  sandbox_frame w w' /\ tokens_drawn w' = tokens_drawn w /\
  api_tokens w' = api_tokens w /\ ssh_keys w' = ssh_keys w.
Proof.
  unfold logout. run_monad.
  destruct (active_sessions w !! sid) as [s|]; cbn.
  - rewrite log_structured_eq. cbn. unfold latest_log. cbn.
    rewrite trim_logs_last. repeat split.
  - repeat split.
Qed.

Lemma get_active_sessions_frame E w :
  let w' := snd (get_active_sessions E w) in
  sandbox_frame w w' /\ tokens_drawn w' = tokens_drawn w /\
  api_tokens w' = api_tokens w /\ ssh_keys w' = ssh_keys w.
Proof. unfold get_active_sessions. run_monad. repeat split. Qed.

(** *** The directory tree *)

Lemma locate_pure E p w : snd (locate E p w) = w.
Proof. reflexivity. Qed.

Lemma walk_place ds fl cur names d :
  walk ds fl cur names = Returned d -> d = fold_left enter names cur.
Proof.
  revert cur. induction names as [|name rest IH]; intros cur; simpl.
  - congruence.
  - destruct (is_dir ds (enter cur name)); [apply IH|].
    destruct (bool_decide _); discriminate.
Qed.

Lemma fold_enter_last (names : list string) (cur : list string) :
  fold_left enter names cur =
  match last names with
  | Some name => enter (fold_left enter (removelast names) cur) name
  | None => cur
  end.
Proof.
  destruct names as [|x l] using rev_ind; [reflexivity|].
  rewrite last_snoc, removelast_last, fold_left_app. reflexivity.
Qed.

(** When a path can be looked up, its place is the one its names spell. *)
Lemma locate_place E p w d :
  fst (locate E p w) = Returned d -> d = place_of E p.
Proof.
  unfold locate, get, place_of. cbn [fst].
  destruct (has_nul _); [discriminate|].
  destruct (negb _); [discriminate|].
  destruct (walk _ _ _ _) as [cur|e] eqn:Hw; [|discriminate].
  intros [= <-]. apply walk_place in Hw. subst cur.
  rewrite (fold_enter_last (Path.parts p)).
  destruct (last (Path.parts p)) eqn:Hlast; [reflexivity|].
  apply last_None in Hlast. rewrite Hlast. reflexivity.
Qed.

Lemma names_entry_place E p :
  names_entry p = true -> place_of E p <> [].
Proof.
  unfold names_entry, place_of. rewrite fold_enter_last.
  destruct (last (Path.parts p)) as [name|]; [|discriminate].
  unfold enter. destruct (String.eqb name ".."); [discriminate|].
  intros _. destruct (fold_left _ _ _); discriminate.
Qed.

Lemma is_dir_mono ds ds' d : ds ⊆ ds' -> is_dir ds d = true -> is_dir ds' d = true.
Proof.
  destruct d; [reflexivity|]. simpl. intros Hsub H.
  apply bool_decide_eq_true. apply Hsub. apply bool_decide_eq_true in H. exact H.
Qed.

Lemma walk_mono ds ds' fl cur names d :
  ds ⊆ ds' -> walk ds fl cur names = Returned d ->
  walk ds' fl cur names = Returned d.
Proof.
  intros Hsub. revert cur. induction names as [|name rest IH]; intros cur; simpl.
  - congruence.
  - destruct (is_dir ds (enter cur name)) eqn:Hd.
    + rewrite (is_dir_mono ds ds' _ Hsub Hd). apply IH.
    + destruct (bool_decide _); discriminate.
Qed.

(** A path that can be looked up still can when directories have been added. *)
Lemma locate_mono E p w w' d :
  dirs w ⊆ dirs w' -> files w' = files w ->
  fst (locate E p w) = Returned d -> fst (locate E p w') = Returned d.
Proof.
  intros Hsub Hf. unfold locate, get. cbn [fst]. rewrite Hf.
  destruct (has_nul _); [discriminate|].
  destruct (is_dir (dirs w) _) eqn:Hs; [|discriminate].
  rewrite (is_dir_mono _ _ _ Hsub Hs). cbn [negb].
  destruct (walk (dirs w) _ _ _) as [cur|e] eqn:Hw; [|discriminate].
  rewrite (walk_mono _ _ _ _ _ _ Hsub Hw). tauto.
Qed.

Lemma dirs_grow_refl w : dirs_grow w w.
Proof. unfold dirs_grow. split_and!; reflexivity. Qed.

Lemma dirs_grow_trans w1 w2 w3 : dirs_grow w1 w2 -> dirs_grow w2 w3 -> dirs_grow w1 w3.
Proof.
  unfold dirs_grow.
  intros (?&?&?&?&?&?&?&?&?&?) (?&?&?&?&?&?&?&?&?&?).
  split_and!; try congruence. etrans; eassumption.
Qed.

Lemma dirs_grow_frames w w' :
  dirs_grow w w' ->
  auth_frame w w' /\ active_sandboxes w' = active_sandboxes w /\
  command_history w' = command_history w /\ json_logs w' = json_logs w.
Proof. unfold dirs_grow, auth_frame. intros (?&?&?&?&?&?&?&?&?&?). tauto. Qed.

(** [mkdir] changes nothing but the directory set, adds at most the place
    the path names, and when it returns that place is a directory. *)
Lemma mkdir_cases E p w :
  let (r, w') := mkdir E p w in
  dirs_grow w w' /\
  (forall q, q ∈ dirs w' -> q ∈ dirs w \/ q = place_of E p) /\
  match r with
  | Returned _ =>
      fst (locate E p w) = Returned (place_of E p) /\
      is_dir (dirs w') (place_of E p) = true
  | Raised _ => w' = w
  end.
Proof.
  unfold mkdir, bind, ret, get, modify.
  pose proof (locate_place E p w) as Hp.
  destruct (locate E p w) as [found w0] eqn:Hl.
  assert (w0 = w) as -> by (change w0 with (snd (found, w0)); rewrite <- Hl; reflexivity).
  cbn [fst] in Hp |- *.
  destruct found as [place|e]; [|split_and!; auto using dirs_grow_refl].
  specialize (Hp _ eq_refl). subst place.
  destruct (is_dir (dirs w) (place_of E p)) eqn:Hd;
    [split_and!; auto using dirs_grow_refl|].
  destruct (bool_decide (place_of E p ∈ files w));
    [split_and!; auto using dirs_grow_refl|].
  destruct (negb (names_entry p)) eqn:Hn;
    [split_and!; auto using dirs_grow_refl|].
  destruct (mkdir_refused E (place_of E p));
    [split_and!; auto using dirs_grow_refl|].
  split_and!.
  - unfold dirs_grow. cbn. split_and!; try reflexivity. apply union_subseteq_r.
  - cbn. intros q Hq. apply elem_of_union in Hq as [Hq|Hq]; [|auto].
    right. apply elem_of_singleton in Hq. exact Hq.
  - reflexivity.
  - cbn. apply negb_false_iff in Hn. apply (names_entry_place E) in Hn.
    destruct (place_of E p) eqn:Hpl; [congruence|].
    apply bool_decide_eq_true. apply elem_of_union_l, elem_of_singleton. reflexivity.
Qed.

Lemma disk_shrinks_refl w : disk_shrinks w w.
Proof. unfold disk_shrinks. split_and!; reflexivity. Qed.

Lemma unlink_effect gone w :
  let w' := snd (unlink gone w) in
  disk_shrinks w w' /\
  (forall q, q ∈ dirs w' <-> gone q = false /\ q ∈ dirs w) /\
  (forall q, q ∈ files w' <-> gone q = false /\ q ∈ files w).
Proof.
  unfold unlink, bind, modify. cbn.
  assert (Hs : forall X : gset (list string),
             filter (fun q => gone q = false) X ⊆ X).
  { intros X q Hq. apply elem_of_filter in Hq. tauto. }
  unfold disk_shrinks. cbn. split_and!; try reflexivity; try apply Hs.
  - intros q. rewrite elem_of_filter. reflexivity.
  - intros q. rewrite elem_of_filter. reflexivity.
Qed.

Lemma below_refl t : below t t = true.
Proof. unfold below. apply bool_decide_eq_true. reflexivity. Qed.

Lemma strictly_below_below t q : strictly_below t q = true -> below t q = true.
Proof. unfold strictly_below. intros H. apply andb_true_iff in H. tauto. Qed.

Lemma strictly_below_irrefl t : strictly_below t t = false.
Proof.
  unfold strictly_below. rewrite below_refl. simpl.
  apply negb_false_iff, bool_decide_eq_true. reflexivity.
Qed.

(** [rmtree] changes nothing but the disk, removes nothing that is not
    below the place the path names, and when it returns nothing is left at
    that place; when it raises on a directory, the directory stays. *)
Lemma rmtree_cases E p w :
  let (r, w') := rmtree E p w in
  disk_shrinks w w' /\
  (forall q, below (place_of E p) q = false ->
             (q ∈ dirs w -> q ∈ dirs w') /\ (q ∈ files w -> q ∈ files w')) /\
  match r with
  | Returned _ =>
      names_entry p = true /\
      (forall q, q ∈ dirs w' <-> below (place_of E p) q = false /\ q ∈ dirs w) /\
      (forall q, q ∈ files w' <-> below (place_of E p) q = false /\ q ∈ files w)
  | Raised _ =>
      forall q, strictly_below (place_of E p) q = false ->
                (q ∈ dirs w -> q ∈ dirs w') /\ (q ∈ files w -> q ∈ files w')
  end.
Proof.
  unfold rmtree, bind, ret, get.
  pose proof (locate_place E p w) as Hp.
  destruct (locate E p w) as [found w0] eqn:Hl.
  assert (w0 = w) as -> by (change w0 with (snd (found, w0)); rewrite <- Hl; reflexivity).
  cbn [fst] in Hp.
  destruct found as [place|e]; [|split_and!; auto using disk_shrinks_refl].
  specialize (Hp _ eq_refl). subst place.
  destruct (bool_decide (place_of E p ∈ files w));
    [split_and!; auto using disk_shrinks_refl|].
  destruct (negb (is_dir (dirs w) (place_of E p)));
    [split_and!; auto using disk_shrinks_refl|].
  destruct (rmtree_raises E (place_of E p)).
  - match goal with |- context [unlink ?g w] =>
      pose proof (unlink_effect g w) as (Hs & Hd & Hf);
      destruct (unlink g w) as [u w'] end.
    cbn [snd] in *. split_and!; [exact Hs| |].
    + intros q Hq. split; intros Hin; [apply Hd|apply Hf]; split; try exact Hin;
        apply andb_false_iff; left;
        unfold strictly_below; rewrite Hq; reflexivity.
    + intros q Hq. split; intros Hin; [apply Hd|apply Hf]; split; try exact Hin;
        rewrite Hq; reflexivity.
  - destruct (names_entry p) eqn:Hn.
    + pose proof (unlink_effect (below (place_of E p)) w) as (Hs & Hd & Hf).
      destruct (unlink _ w) as [u w']. cbn [snd] in *.
      split_and!; try assumption; try reflexivity.
      intros q Hq. split; intros Hin; [apply Hd|apply Hf]; auto.
    + pose proof (unlink_effect (strictly_below (place_of E p)) w) as (Hs & Hd & Hf).
      destruct (unlink _ w) as [u w']. cbn [snd] in *.
      split_and!; [exact Hs| |].
      * intros q Hq. split; intros Hin; [apply Hd|apply Hf]; split; try exact Hin;
          unfold strictly_below; rewrite Hq; reflexivity.
      * intros q Hq. split; intros Hin; [apply Hd|apply Hf]; auto.
Qed.

(** After [rmtree] has returned the path does not exist. *)
Lemma rmtree_returned_gone E p w u w' :
  rmtree E p w = (Returned u, w') -> fst (path_exists E p w') = false.
Proof.
  intros Hr. pose proof (rmtree_cases E p w) as H. rewrite Hr in H.
  destruct H as (_ & _ & Hn & Hd & Hf).
  unfold path_exists, bind, ret, get.
  pose proof (locate_place E p w') as Hp.
  destruct (locate E p w') as [found w0] eqn:Hl.
  assert (w0 = w') as -> by (change w0 with (snd (found, w0)); rewrite <- Hl; reflexivity).
  cbn [fst] in Hp. destruct found as [place|e]; [|reflexivity].
  specialize (Hp _ eq_refl). subst place. cbn [fst].
  apply (names_entry_place E) in Hn.
  apply orb_false_iff. split.
  - destruct (place_of E p) eqn:Hpl; [congruence|]. cbn.
    apply bool_decide_eq_false. intros Hin. apply Hd in Hin as [Hb _].
    rewrite below_refl in Hb. discriminate.
  - apply bool_decide_eq_false. intros Hin. apply Hf in Hin as [Hb _].
    rewrite below_refl in Hb. discriminate.
Qed.

(** *** sandbox.py *)

Lemma place_of_child E p (name : string) :
  Path.parse name = {| Path.root := ""; Path.parts := [name] |} ->
  place_of E (Path.joinpath p name) = enter (place_of E p) name.
Proof.
  intros Hn. unfold place_of, Path.joinpath. rewrite Hn. cbn.
  rewrite fold_left_app. reflexivity.
Qed.

Lemma below_trans a b c : below a b = true -> below b c = true -> below a c = true.
Proof.
  unfold below. intros H1 H2. apply bool_decide_eq_true.
  apply bool_decide_eq_true in H1, H2. etrans; eassumption.
Qed.

Lemma below_child t (name : string) : below t (t ++ [name]) = true.
Proof. unfold below. apply bool_decide_eq_true. apply prefix_app_r. reflexivity. Qed.

(** What [create_sandbox] does: the four directories first, each of which
    can fail; then the registration, the empty history and the audit entry. *)
Lemma create_sandbox_cases E w sid user :
  let (r, w') := create_sandbox E sid user w in
  let root := sandbox_dir E sid in
  dirs w ⊆ dirs w' /\ files w' = files w /\ auth_frame w w' /\
  (forall q, q ∈ dirs w' ->
     q ∈ dirs w \/ q = root_place E sid \/
     exists name, In name ["home"; "tmp"; "workspace"] /\
                  q = root_place E sid ++ [name]) /\
  match r with
  | Raised e =>
      active_sandboxes w' = active_sandboxes w /\
      command_history w' = command_history w /\
      json_logs w' = json_logs w /\
      clock_reads w' = clock_reads w
  | Returned sb =>
      sb = {| sb_session_id := sid;
              sb_working_directory := Path.str (Path.joinpath root "workspace");
              environment_variables :=
                [("HOME", Path.str (Path.joinpath root "home"));
                 ("TMPDIR", Path.str (Path.joinpath root "tmp"));
                 ("USER", user);
                 ("PWD", Path.str (Path.joinpath root "workspace"));
                 ("PATH", "/usr/local/bin:/usr/bin:/bin");
                 ("SHELL", "/bin/bash");
                 ("TERM", "xterm-256color")];
              available_tools := Config.AVAILABLE_TOOLS (cfg E);
              resource_limits :=
                [("max_execution_time", VInt (Config.MAX_EXECUTION_TIME (cfg E)));
                 ("max_output_size", VInt (Config.MAX_OUTPUT_SIZE (cfg E)));
                 ("max_memory", VStr "512MB");
                 ("max_cpu", VStr "50%")];
              sb_created_at := clock E (clock_reads w) |} /\
      active_sandboxes w' = <[sid := sb]> (active_sandboxes w) /\
      command_history w' = <[sid := []]> (command_history w) /\
      is_dir (dirs w') (root_place E sid) = true /\
      root_exists E sid w' = true /\
      clock_reads w' = S (S (clock_reads w)) /\
      json_logs w' = trim_logs (json_logs w ++
        [{| log_timestamp := clock E (S (clock_reads w)); log_level := info;
            log_event := "AUDIT: sandbox_created";
            log_fields := [("session_id", VStr sid); ("audit", VBool true);
                           ("sandbox_dir", VStr (Path.str root))] |}])
  end.
Proof.
  unfold create_sandbox. fold (sandbox_dir E sid). unfold bind at 1.
  set (root := sandbox_dir E sid).
  assert (Hc : forall name, In name ["home"; "tmp"; "workspace"] ->
               place_of E (Path.joinpath root name) = root_place E sid ++ [name]).
  { intros name Hin. rewrite place_of_child.
    - simpl in Hin. destruct Hin as [<-|[<-|[<-|[]]]]; reflexivity.
    - simpl in Hin. destruct Hin as [<-|[<-|[<-|[]]]]; reflexivity. }
  pose proof (mkdir_cases E root w) as M1.
  destruct (mkdir E root w) as [r1 w1]. destruct M1 as (G1 & A1 & R1).
  pose proof G1 as (?&?&?&?&?&?&?&?&?&?).
  destruct r1 as [[]|e]; cbn [ret].
  2: { subst w1. unfold auth_frame. split_and!; auto. }
  unfold bind at 1.
  pose proof (mkdir_cases E (Path.joinpath root "home") w1) as M2.
  destruct (mkdir E (Path.joinpath root "home") w1) as [r2 w2].
  destruct M2 as (G2 & A2 & R2).
  pose proof G2 as (?&?&?&?&?&?&?&?&?&?).
  rewrite Hc in A2 by (simpl; tauto).
  assert (B2 : forall q, q ∈ dirs w2 ->
     q ∈ dirs w \/ q = root_place E sid \/
     exists name, In name ["home"; "tmp"; "workspace"] /\
                  q = root_place E sid ++ [name]).
  { intros q Hq. apply A2 in Hq as [Hq| ->].
    - apply A1 in Hq as [Hq| ->]; auto.
    - right. right. exists "home". simpl. tauto. }
  destruct r2 as [[]|e]; cbn [ret].
  2: { subst w2. unfold auth_frame. split_and!; auto; congruence. }
  unfold bind at 1.
  pose proof (mkdir_cases E (Path.joinpath root "tmp") w2) as M3.
  destruct (mkdir E (Path.joinpath root "tmp") w2) as [r3 w3].
  destruct M3 as (G3 & A3 & R3).
  pose proof G3 as (?&?&?&?&?&?&?&?&?&?).
  rewrite Hc in A3 by (simpl; tauto).
  assert (B3 : forall q, q ∈ dirs w3 ->
     q ∈ dirs w \/ q = root_place E sid \/
     exists name, In name ["home"; "tmp"; "workspace"] /\
                  q = root_place E sid ++ [name]).
  { intros q Hq. apply A3 in Hq as [Hq| ->]; auto.
    right. right. exists "tmp". simpl. tauto. }
  destruct r3 as [[]|e]; cbn [ret].
  2: { subst w3. unfold auth_frame. split_and!; auto; try congruence;
       try (etrans; eassumption). }
  unfold bind at 1.
  pose proof (mkdir_cases E (Path.joinpath root "workspace") w3) as M4.
  destruct (mkdir E (Path.joinpath root "workspace") w3) as [r4 w4].
  destruct M4 as (G4 & A4 & R4).
  pose proof G4 as (?&?&?&?&?&?&?&?&?&?).
  rewrite Hc in A4 by (simpl; tauto).
  assert (B4 : forall q, q ∈ dirs w4 ->
     q ∈ dirs w \/ q = root_place E sid \/
     exists name, In name ["home"; "tmp"; "workspace"] /\
                  q = root_place E sid ++ [name]).
  { intros q Hq. apply A4 in Hq as [Hq| ->]; auto.
    right. right. exists "workspace". simpl. tauto. }
  assert (S4 : dirs w ⊆ dirs w4) by (do 2 (etrans; [eassumption|]); etrans; eassumption).
  destruct r4 as [[]|e]; cbn [ret].
  2: { subst w4. unfold auth_frame. split_and!; auto; try congruence;
       try (do 2 (etrans; [eassumption|]); assumption). }
  run_monad. rewrite log_structured_eq.
  unfold auth_frame.
  split_and!; cbn [active_sessions api_tokens ssh_keys active_sandboxes
                   command_history json_logs dirs files clock_reads tokens_drawn
                   set_json_logs tick_clock set_command_history
                   set_active_sandboxes fst snd]; auto; try congruence.
  - apply (is_dir_mono (dirs w1)); [|apply R1].
    do 2 (etrans; [eassumption|]). assumption.
  - destruct R1 as [L1 D1]. subst root.
    unfold root_exists, path_exists, bind, ret.
    match goal with |- context [locate E ?p ?w5] =>
      pose proof (locate_mono E p w w5 _ S4 ltac:(cbn; congruence) L1) as L5;
      pose proof (locate_pure E p w5) as P5;
      destruct (locate E p w5) as [found w0] end.
    cbn [fst snd] in L5, P5. subst found w0. unfold get. cbn [fst].
    apply orb_true_iff. left. cbn [dirs set_json_logs tick_clock
      set_command_history set_active_sandboxes].
    apply (is_dir_mono (dirs w1)); [|exact D1].
    do 2 (etrans; [eassumption|]). assumption.
Qed.

Lemma get_command_history_pure sid limit w :
  snd (get_command_history sid limit w) = w.
Proof.
  unfold get_command_history. run_monad.
  destruct (command_history w !! sid); reflexivity.
Qed.

Lemma path_exists_pure E p w : snd (path_exists E p w) = w.
Proof.
  unfold path_exists, bind, locate, get, ret. cbn.
  destruct (has_nul _); [reflexivity|].
  destruct (negb _); [reflexivity|].
  destruct (walk _ _ _ _); reflexivity.
Qed.

(** [Path.exists] reads the disk and nothing else. *)
Lemma path_exists_disk E p w1 w2 :
  dirs w1 = dirs w2 -> files w1 = files w2 ->
  fst (path_exists E p w1) = fst (path_exists E p w2).
Proof.
  intros Hd Hf. destruct w1, w2. cbn in Hd, Hf. subst.
  unfold path_exists, bind, locate, get, ret. cbn.
  destruct (has_nul _); [reflexivity|].
  destruct (negb _); [reflexivity|].
  destruct (walk _ _ _ _); reflexivity.
Qed.

Lemma rmtree_disk E p w1 w2 :
  dirs w1 = dirs w2 -> files w1 = files w2 ->
  fst (rmtree E p w1) = fst (rmtree E p w2) /\
  dirs (snd (rmtree E p w1)) = dirs (snd (rmtree E p w2)) /\
  files (snd (rmtree E p w1)) = files (snd (rmtree E p w2)).
Proof.
  intros Hd Hf. destruct w1, w2. cbn in Hd, Hf. subst.
  unfold rmtree, unlink, bind, locate, get, ret, modify. cbn.
  destruct (has_nul _); [auto|].
  destruct (negb _); [auto|].
  destruct (walk _ _ _ _); [|auto]. cbn.
  destruct (bool_decide _); [auto|].
  destruct (negb _); [auto|].
  destruct (rmtree_raises E _); cbn; [auto|].
  destruct (names_entry p); cbn; auto.
Qed.

(** [removal_fails] and [root_exists] read the disk and nothing else. *)
Lemma removal_fails_disk E sid w1 w2 :
  dirs w1 = dirs w2 -> files w1 = files w2 ->
  removal_fails E sid w1 = removal_fails E sid w2.
Proof.
  intros Hd Hf. unfold removal_fails.
  rewrite (path_exists_disk E _ w1 w2 Hd Hf).
  destruct (rmtree_disk E (sandbox_dir E sid) w1 w2 Hd Hf) as (-> & _).
  reflexivity.
Qed.

Lemma root_exists_disk E sid w1 w2 :
  dirs w1 = dirs w2 -> files w1 = files w2 ->
  root_exists E sid w1 = root_exists E sid w2.
Proof. apply path_exists_disk. Qed.

(** What [cleanup_sandbox] does, case by case. *)
Lemma cleanup_sandbox_cases E w sid :
  let (r, w') := cleanup_sandbox E sid w in
  match active_sandboxes w !! sid with
  | None => r = false /\ w' = w
  | Some _ =>
      if removal_fails E sid w
      then
        r = false /\
        active_sandboxes w' = active_sandboxes w /\
        command_history w' = command_history w /\
        (forall q, strictly_below (root_place E sid) q = false ->
                   (q ∈ dirs w -> q ∈ dirs w') /\ (q ∈ files w -> q ∈ files w')) /\
        exists e,
          json_logs w' = trim_logs (json_logs w ++
            [{| log_timestamp := clock E (clock_reads w); log_level := error;
                log_event := "sandbox_cleanup_failed";
                log_fields := [("session_id", VStr sid); ("error", VStr e)] |}])
      else
        r = true /\
        root_exists E sid w' = false /\
        active_sandboxes w' = delete sid (active_sandboxes w) /\
        command_history w' = delete sid (command_history w) /\
        json_logs w' = trim_logs (json_logs w ++
          [{| log_timestamp := clock E (clock_reads w); log_level := info;
              log_event := "AUDIT: sandbox_cleaned_up";
              log_fields := [("session_id", VStr sid); ("audit", VBool true)] |}])
  end /\
  auth_frame w w' /\
  dirs w' ⊆ dirs w /\ files w' ⊆ files w /\
  (forall q, below (root_place E sid) q = false ->
             (q ∈ dirs w -> q ∈ dirs w') /\ (q ∈ files w -> q ∈ files w')).
Proof.
  unfold cleanup_sandbox. fold (sandbox_dir E sid).
  unfold bind at 1. unfold get at 1.
  destruct (active_sandboxes w !! sid) as [sb|] eqn:Hsb; [|cbn; repeat split; auto].
  unfold bind at 1.
  pose proof (path_exists_pure E (sandbox_dir E sid) w) as Hpure.
  unfold removal_fails.
  destruct (path_exists E (sandbox_dir E sid) w) as [there w0] eqn:Hex.
  cbn [fst snd] in *. subst w0.
  unfold bind at 1.
  destruct there; cbn [andb].
  - pose proof (rmtree_cases E (sandbox_dir E sid) w) as Hrm.
    destruct (rmtree E (sandbox_dir E sid) w) as [removed w1] eqn:Hr.
    destruct Hrm as (Hs & Hout & Hres).
    pose proof Hs as (?&?&?&?&?&?&?&?&?&?).
    cbn [fst]. destruct removed as [[]|e].
    + run_monad. rewrite log_structured_eq.
      unfold auth_frame, root_exists.
      split_and!;
        cbn [active_sessions api_tokens ssh_keys active_sandboxes
             command_history json_logs dirs files clock_reads tokens_drawn
             set_json_logs tick_clock set_command_history
             set_active_sandboxes fst snd]; auto; try congruence.
      rewrite <- (rmtree_returned_gone E _ _ _ _ Hr).
      apply path_exists_disk; reflexivity.
    + run_monad. rewrite log_structured_eq.
      unfold auth_frame.
      split_and!;
        cbn [active_sessions api_tokens ssh_keys active_sandboxes
             command_history json_logs dirs files clock_reads tokens_drawn
             set_json_logs tick_clock set_command_history
             set_active_sandboxes fst snd]; auto; try congruence.
      exists e. do 2 f_equal; congruence.
  - run_monad. rewrite log_structured_eq.
    unfold auth_frame, root_exists.
    split_and!;
      cbn [active_sessions api_tokens ssh_keys active_sandboxes
           command_history json_logs dirs files clock_reads tokens_drawn
           set_json_logs tick_clock set_command_history
           set_active_sandboxes fst snd]; auto; try congruence.
    change false with (fst (false, w)). rewrite <- Hex.
    apply path_exists_disk; reflexivity.
Qed.

Lemma execute_command_auth_frame E w sid rq :
  auth_frame w (snd (execute_command E sid rq w)).
Proof.
  unfold execute_command. run_monad.
  destruct (active_sandboxes w !! sid); cbn; [|repeat split].
  destruct (_is_command_safe E (command rq)) as [[|] msg]; cbn;
    rewrite log_structured_eq; cbn; [|repeat split].
  destruct (_simulate_devops_command _ _) as [[out err] code]; cbn.
  destruct (command_history w !! sid); cbn;
    rewrite log_structured_eq; cbn; repeat split.
Qed.

(** ** Invariants of a run *)

(** Session ids are drawn in order and never handed back. *)
Lemma tokens_drawn_step E o w :
  (tokens_drawn w <= tokens_drawn (exec_op E o w))%nat.
Proof.
  destruct o as [rq|sid|sid| |sid user|sid rq|sid limit|sid|level event kwargs];
    unfold exec_op.
  - destruct (matched_user rq w) as [[[|c t]|]|e] eqn:Hm.
    + destruct (authenticate_rejected E rq w _ Hm eq_refl) as (w' & -> & _ & Hf & _).
      cbn [snd]. destruct Hf as (_ & _ & _ & ->). reflexivity.
    + destruct (authenticate_accepted E rq w c t Hm) as (w' & -> & _ & Ht & _).
      cbn [snd]. rewrite Ht. lia.
    + destruct (authenticate_rejected E rq w _ Hm eq_refl) as (w' & -> & _ & Hf & _).
      cbn [snd]. destruct Hf as (_ & _ & _ & ->). reflexivity.
    + rewrite (authenticate_raised E rq w e Hm). reflexivity.
  - pose proof (validate_session_cases E w sid) as H.
    destruct (validate_session E sid w) as [r w']. simpl.
    destruct H as (_ & _ & -> & _). reflexivity.
  - pose proof (logout_cases E w sid) as H.
    destruct (logout E sid w) as [r w']. simpl.
    destruct H as (_ & _ & -> & _). reflexivity.
  - destruct (get_active_sessions_frame E w) as (_ & -> & _). reflexivity.
  - pose proof (create_sandbox_cases E w sid user) as H.
    destruct (create_sandbox E sid user w) as [r w']. simpl.
    destruct H as (_ & _ & (_ & _ & _ & ->) & _). reflexivity.
  - destruct (execute_command_auth_frame E w sid rq) as (_ & _ & _ & ->).
    reflexivity.
  - rewrite get_command_history_pure. reflexivity.
  - pose proof (cleanup_sandbox_cases E w sid) as H.
    destruct (cleanup_sandbox E sid w) as [r w']. simpl.
    destruct H as (_ & (_ & _ & _ & ->) & _). reflexivity.
  - destruct (log_structured_frames E level event kwargs w) as (_ & (_ & _ & _ & ->)).
    reflexivity.
Qed.

Lemma tokens_drawn_run E ops w :
  (tokens_drawn w <= tokens_drawn (run E ops w))%nat.
Proof.
  revert w. induction ops as [|o ops IH]; intros w; simpl; [lia|].
  etransitivity; [apply (tokens_drawn_step E o)|apply IH].
Qed.

Lemma ring_inv_frame w w' full :
  sandbox_frame w w' -> ring_inv w full -> ring_inv w' full.
Proof.
  unfold sandbox_frame, ring_inv. intros (Hs & Hh & _) [Hdom Hring].
  rewrite Hs, Hh. split; assumption.
Qed.

Lemma ring_inv_step E o w full :
  ring_inv w full -> ring_inv (exec_op E o w) (record_op E o w full).
Proof.
  intros Hinv.
  destruct o as [rq|sid|sid| |sid user|sid rq|sid limit|sid|level event kwargs];
    unfold exec_op, record_op.
  - apply (ring_inv_frame w); [|exact Hinv].
    destruct (matched_user rq w) as [[[|c t]|]|e] eqn:Hm.
    + destruct (authenticate_rejected E rq w _ Hm eq_refl) as (w' & -> & Hf & _).
      exact Hf.
    + destruct (authenticate_accepted E rq w c t Hm)
        as (w' & -> & _ & _ & _ & _ & Hf & _). exact Hf.
    + destruct (authenticate_rejected E rq w _ Hm eq_refl) as (w' & -> & Hf & _).
      exact Hf.
    + rewrite (authenticate_raised E rq w e Hm). apply sandbox_frame_refl.
  - apply (ring_inv_frame w); [|exact Hinv].
    pose proof (validate_session_cases E w sid) as H.
    destruct (validate_session E sid w) as [r w']. apply H.
  - apply (ring_inv_frame w); [|exact Hinv].
    pose proof (logout_cases E w sid) as H.
    destruct (logout E sid w) as [r w']. apply H.
  - apply (ring_inv_frame w); [|exact Hinv]. apply get_active_sessions_frame.
  - pose proof (create_sandbox_cases E w sid user) as H.
    destruct (create_sandbox E sid user w) as [[sb|e] w']; cbn [fst snd];
      destruct H as (_ & _ & _ & _ & H); destruct Hinv as [Hdom Hring].
    + destruct H as (_ & Hs & Hh & _). split.
      * rewrite Hs, Hh, !dom_insert_L, Hdom. reflexivity.
      * intros sid'. rewrite Hh.
        destruct (decide (sid = sid')) as [<-|Hne].
        -- rewrite !lookup_insert_eq. reflexivity.
        -- rewrite !lookup_insert_ne by exact Hne. apply Hring.
    + destruct H as (Hs & Hh & _). split; rewrite ?Hs, ?Hh; assumption.
  - destruct (active_sandboxes w !! sid) as [sb|] eqn:Hsb.
    + destruct (_is_command_safe E (command rq)) as [[|] msg] eqn:Hsafe; simpl.
      * pose proof (execute_command_accepted E w sid rq sb msg Hsb Hsafe) as H.
        destruct (execute_command E sid rq w) as [r w']. simpl.
        destruct H as (_ & _ & _ & Hh & Hs & _).
        destruct Hinv as [Hdom Hring].
        assert (Hin : sid ∈ dom (command_history w)).
        { rewrite <- Hdom. apply elem_of_dom. eauto. }
        apply elem_of_dom in Hin as [h Hhist]. rewrite Hhist in Hh.
        pose proof (Hring sid) as Hsid. rewrite Hhist in Hsid.
        destruct (full !! sid) as [f|] eqn:Hf; [|discriminate].
        simpl in Hsid. injection Hsid as ->.
        split.
        -- rewrite Hs, Hh, dom_insert_L, Hdom. symmetry.
           apply subseteq_union_1_L, singleton_subseteq_l, elem_of_dom. eauto.
        -- intros sid'. rewrite Hh.
           destruct (decide (sid = sid')) as [<-|Hne].
           ++ rewrite lookup_insert_eq, lookup_alter_eq, Hf. simpl.
              rewrite keep_last_100_lastn, lastn_snoc_lastn. reflexivity.
           ++ rewrite lookup_insert_ne, lookup_alter_ne by exact Hne. apply Hring.
      * apply (ring_inv_frame w); [|exact Hinv].
        pose proof (execute_command_rejected E w sid rq sb msg Hsb Hsafe) as H.
        destruct (execute_command E sid rq w) as [r w']. simpl.
        destruct H as (_ & _ & _ & _ & Hh & Hs & _ & Hd & Hfl & _).
        repeat split; assumption.
    + apply (ring_inv_frame w); [|exact Hinv].
      unfold execute_command. run_monad. rewrite Hsb. cbn. repeat split.
  - rewrite get_command_history_pure. exact Hinv.
  - pose proof (cleanup_sandbox_cases E w sid) as H.
    destruct (cleanup_sandbox E sid w) as [r w']. simpl.
    destruct H as [H _].
    destruct (active_sandboxes w !! sid) as [sb|].
    + destruct (removal_fails E sid w).
      * destruct H as (-> & Hs & Hh & _). destruct Hinv as [Hdom Hring].
        split; rewrite ?Hs, ?Hh; assumption.
      * destruct H as (-> & _ & Hs & Hh & _). destruct Hinv as [Hdom Hring].
        split.
        -- rewrite Hs, Hh, !dom_delete_L, Hdom. reflexivity.
        -- intros sid'. rewrite Hh.
           destruct (decide (sid = sid')) as [<-|Hne].
           ++ rewrite !lookup_delete_eq. reflexivity.
           ++ rewrite !lookup_delete_ne by exact Hne. apply Hring.
    + destruct H as [-> ->]. exact Hinv.
  - apply (ring_inv_frame w); [|exact Hinv]. apply log_structured_frames.
Qed.

Lemma ring_inv_run E ops w full :
  ring_inv w full -> ring_inv (run E ops w) (record_run E ops w full).
Proof.
  revert w full. induction ops as [|o ops IH]; intros w full Hinv; simpl.
  - exact Hinv.
  - apply IH, ring_inv_step, Hinv.
Qed.

(** The process starts with the registries empty and the tables loaded;
    of the disk only the directory set can differ from what was found. *)
Lemma startup_state E left :
  active_sessions (startup E left) = ∅ /\
  api_tokens (startup E left) = _load_api_tokens E /\
  ssh_keys (startup E left) = _load_ssh_keys E /\
  active_sandboxes (startup E left) = ∅ /\
  command_history (startup E left) = ∅ /\
  json_logs (startup E left) = [] /\
  files (startup E left) = disk_files left /\
  clock_reads (startup E left) = 0%nat /\
  tokens_drawn (startup E left) = 0%nat /\
  disk_dirs left ⊆ dirs (startup E left).
Proof.
  unfold startup.
  match goal with |- context [mkdir E ?p ?w0] =>
    pose proof (mkdir_cases E p w0) as H; destruct (mkdir E p w0) as [r w'] end.
  destruct H as (H & _). exact H.
Qed.

Lemma ring_inv_startup E left : ring_inv (startup E left) ∅.
Proof.
  destruct (startup_state E left) as (_ & _ & _ & Hs & Hh & _).
  unfold ring_inv. rewrite Hs, Hh. split.
  - rewrite !dom_empty_L. reflexivity.
  - intros sid. rewrite !lookup_empty. reflexivity.
Qed.

(* ===================================================================== *)
(** ** The claims about the executor *)
(* ===================================================================== *)

Lemma demo_world_sandbox :
  is_Some (active_sandboxes demo_world !! "session-token-0").
Proof. vm_compute. eauto. Qed.

(** C10. Every invocation that passes the policy check in a session with a
    sandbox is answered by the simulator with exit code 0, so its status is
    [COMPLETED]: neither [FAILED] nor [TIMEOUT] can follow a passed check. *)
Theorem safe_command_always_completes E w sid rq sb :
  active_sandboxes w !! sid = Some sb ->
  fst (_is_command_safe E (command rq)) = true ->
  let r := fst (execute_command E sid rq w) in
  snd (_simulate_devops_command (command rq) (args rq)) = 0 /\
  exit_code r = Some 0 /\ status r = COMPLETED /\
  status r <> FAILED /\ status r <> TIMEOUT.
Proof.
  intros Hsb Hsafe.
  destruct (_is_command_safe E (command rq)) as [b msg] eqn:Hs.
  simpl in Hsafe. subst b.
  pose proof (execute_command_accepted E w sid rq sb msg Hsb Hs) as H.
  destruct (execute_command E sid rq w) as [r w']. simpl.
  destruct H as (Hst & Hcode & _).
  split; [apply simulate_exit_code|].
  rewrite Hst, Hcode. repeat split; discriminate.
Qed.

Lemma safe_command_always_completes_witness :
  let r := fst (execute_command demo_env "session-token-0"
                  (request "git" ["status"] "session-token-0") demo_world) in
  snd (_simulate_devops_command "git" ["status"]) = 0 /\
  exit_code r = Some 0 /\ status r = COMPLETED /\
  status r <> FAILED /\ status r <> TIMEOUT.
Proof.
  destruct (active_sandboxes demo_world !! "session-token-0") as [sb|] eqn:Hsb.
  - apply (safe_command_always_completes demo_env demo_world "session-token-0"
             (request "git" ["status"] "session-token-0") sb Hsb).
    vm_compute. reflexivity.
  - vm_compute in Hsb. discriminate Hsb.
Defined.

Lemma is_command_safe_cfg E E' (cmd : string) :
  cfg E' = cfg E -> _is_command_safe E' cmd = _is_command_safe E cmd.
Proof. intros H. unfold _is_command_safe. rewrite H. reflexivity. Qed.

(** C9. The policy verdict depends on the command text (and the configured
    lists) alone.  A command whose name is on the block-list is refused with
    the block-list reason, whether or not the name is on the allow-list as
    well, and submitting it again, in any session, state or instant, gives the
    same failed result with the same reason. *)
Theorem policy_check_deterministic_block_first E cmd first rest :
  Py.split (Py.strip cmd) = first :: rest ->
  Py.mem (Py.lower first) (Config.BLOCKED_COMMANDS (cfg E)) = true ->
  _is_command_safe E cmd =
    (false, "Command '" +:+ Py.lower first +:+ "' is blocked for security reasons")
  /\
  forall E' w1 w2 sid1 sid2 rq1 rq2 sb1 sb2,
    cfg E' = cfg E -> command rq1 = cmd -> command rq2 = cmd ->
    active_sandboxes w1 !! sid1 = Some sb1 ->
    active_sandboxes w2 !! sid2 = Some sb2 ->
    let r1 := fst (execute_command E sid1 rq1 w1) in
    let r2 := fst (execute_command E' sid2 rq2 w2) in
    status r1 = FAILED /\ status r2 = FAILED /\
    stderr r1 = "Command blocked: Command '" +:+ Py.lower first
                  +:+ "' is blocked for security reasons" /\
    stderr r2 = stderr r1 /\ stdout r2 = stdout r1 /\
    exit_code r2 = exit_code r1.
Proof.
  intros Hsplit Hblocked.
  assert (Hverdict : _is_command_safe E cmd =
    (false, "Command '" +:+ Py.lower first +:+ "' is blocked for security reasons")).
  { unfold _is_command_safe. rewrite Hsplit, Hblocked. reflexivity. }
  split; [exact Hverdict|].
  intros E' w1 w2 sid1 sid2 rq1 rq2 sb1 sb2 Hcfg Hc1 Hc2 Hsb1 Hsb2.
  assert (Hv1 : _is_command_safe E (command rq1) = _is_command_safe E cmd)
    by (rewrite Hc1; reflexivity).
  assert (Hv2 : _is_command_safe E' (command rq2) = _is_command_safe E cmd)
    by (rewrite Hc2; apply is_command_safe_cfg, Hcfg).
  rewrite Hverdict in Hv1, Hv2.
  pose proof (execute_command_rejected E w1 sid1 rq1 sb1 _ Hsb1 Hv1) as H1.
  pose proof (execute_command_rejected E' w2 sid2 rq2 sb2 _ Hsb2 Hv2) as H2.
  destruct (execute_command E sid1 rq1 w1) as [r1 w1'].
  destruct (execute_command E' sid2 rq2 w2) as [r2 w2']. simpl.
  destruct H1 as (Hs1 & Ho1 & He1 & Hx1 & _).
  destruct H2 as (Hs2 & Ho2 & He2 & Hx2 & _).
  rewrite Hs1, Hs2, He1, He2, Ho1, Ho2, Hx1, Hx2. repeat split.
Qed.

Lemma policy_check_deterministic_block_first_witness :
  _is_command_safe overlap_env "git status" =
    (false, "Command 'git' is blocked for security reasons")
  /\
  forall E' w1 w2 sid1 sid2 rq1 rq2 sb1 sb2,
    cfg E' = cfg overlap_env ->
    command rq1 = "git status" -> command rq2 = "git status" ->
    active_sandboxes w1 !! sid1 = Some sb1 ->
    active_sandboxes w2 !! sid2 = Some sb2 ->
    let r1 := fst (execute_command overlap_env sid1 rq1 w1) in
    let r2 := fst (execute_command E' sid2 rq2 w2) in
    status r1 = FAILED /\ status r2 = FAILED /\
    stderr r1 = "Command blocked: Command 'git' is blocked for security reasons" /\
    stderr r2 = stderr r1 /\ stdout r2 = stdout r1 /\
    exit_code r2 = exit_code r1.
Proof.
  apply (policy_check_deterministic_block_first overlap_env "git status"
           "git" ["status"]); reflexivity.
Defined.

(** On the default lists no name is both blocked and allowed. *)
Lemma default_lists_disjoint (name : string) :
  Py.mem name (Config.BLOCKED_COMMANDS Config.default) = true ->
  Py.mem name (Config.AVAILABLE_TOOLS Config.default) = false.
Proof.
  unfold Py.mem. simpl existsb at 1. rewrite !orb_true_iff.
  intros H. repeat destruct H as [H|H];
    try apply String.eqb_eq in H; subst; try reflexivity; discriminate.
Qed.

(** A metacharacter in the command string: a failed result carrying the
    reason, nothing executed, nothing stored. *)
Lemma command_text_metachar_rejected E w sid rq sb p :
  active_sandboxes w !! sid = Some sb ->
  In p dangerous_patterns -> Py.contains p (command rq) = true ->
  let (r, w') := execute_command E sid rq w in
  status r = FAILED /\ stdout r = "" /\ exit_code r = Some 1 /\
  stderr r = "Command blocked: " +:+ snd (_is_command_safe E (command rq)) /\
  command_history w' = command_history w.
Proof.
  intros Hsb Hin Hc.
  pose proof (command_text_metachar_unsafe E (command rq) p Hin Hc) as Hu.
  destruct (_is_command_safe E (command rq)) as [b msg] eqn:Hs.
  simpl in Hu. subst b.
  pose proof (execute_command_rejected E w sid rq sb msg Hsb Hs) as H.
  destruct (execute_command E sid rq w) as [r w'].
  destruct H as (? & ? & ? & ? & ? & _). simpl. repeat split; assumption.
Qed.

(** C2, at the input where the code departs from it.  The policy check reads
    [request.command] only: the invocation git ["status;"; "rm"; "-rf"; "/"]
    carries the separator ";" in its argument list, passes the check, is
    handed to the simulator and comes back [COMPLETED]. *)
Theorem metachar_in_args_is_executed :
  let sid := "session-token-0" in
  let rq := request "git" ["status;"; "rm"; "-rf"; "/"] sid in
  existsb (Py.contains ";") (args rq) = true /\
  In ";" dangerous_patterns /\
  is_Some (active_sandboxes demo_world !! sid) /\
  _is_command_safe demo_env (command rq) = (true, "Command is safe") /\
  let r := fst (execute_command demo_env sid rq demo_world) in
  status r = COMPLETED /\ exit_code r = Some 0 /\ stderr r = "" /\
  stdout r = "Simulated: git status; rm -rf /" /\
  (stdout r, stderr r, 0) = _simulate_devops_command (command rq) (args rq).
Proof.
  cbv zeta. split; [reflexivity|]. split; [simpl; tauto|].
  split; [apply demo_world_sandbox|].
  split; [reflexivity|]. vm_compute. repeat split.
Qed.

(** C3, the input on which the claim fails: the rejected invocation rm -rf /
    in a session with a sandbox returns a failed result and leaves the
    session's history as it was, empty. *)
Lemma rejection_is_not_stored_in_history :
  let sid := "session-token-0" in
  let '(r, w') :=
    execute_command demo_env sid (request "rm" ["-rf"; "/"] sid) demo_world in
  is_Some (active_sandboxes demo_world !! sid) /\
  status r = FAILED /\
  stderr r = "Command blocked: Command 'rm' is blocked for security reasons" /\
  command_history demo_world !! sid = Some [] /\
  command_history w' !! sid = Some [] /\
  ~ In r (default [] (command_history w' !! sid)).
Proof.
  cbv zeta.
  destruct (execute_command demo_env _ _ demo_world) as [r w'] eqn:Hx.
  split; [apply demo_world_sandbox|].
  assert (Hr : r = fst (execute_command demo_env "session-token-0"
                          (request "rm" ["-rf"; "/"] "session-token-0") demo_world))
    by (rewrite Hx; reflexivity).
  assert (Hw : command_history w' !! "session-token-0" = Some []).
  { replace w' with (snd (execute_command demo_env "session-token-0"
                          (request "rm" ["-rf"; "/"] "session-token-0") demo_world))
      by (rewrite Hx; reflexivity).
    vm_compute. reflexivity. }
  rewrite Hw, Hr. repeat split; try (vm_compute; reflexivity).
  simpl. tauto.
Qed.

(** C3 as amended.  In a state reached by the process, an invocation submitted
    to a session that has a sandbox ends in one of two ways.  If it passes the
    policy check, its completed result becomes the newest entry of the
    session's history, which keeps its last 100 entries, and the audit event
    command_execution_completed carries command id, status, exit code and
    duration.  If it is refused, the failed result with the reason is returned
    and the audit event unsafe_command_blocked is emitted, and the history is
    left as it was. *)
Theorem outcome_is_audited_and_executions_are_stored E left ops sid rq sb :
  let w := run E ops (startup E left) in
  active_sandboxes w !! sid = Some sb ->
  let '(r, w') := execute_command E sid rq w in
  exists h e,
    command_history w !! sid = Some h /\ latest_log w' = Some e /\
    log_level e = info /\
    if fst (_is_command_safe E (command rq))
    then
      status r = COMPLETED /\
      command_history w' !! sid = Some (lastn 100 (h ++ [r])) /\
      last (lastn 100 (h ++ [r])) = Some r /\
      (length (lastn 100 (h ++ [r])) <= 100)%nat /\
      log_event e = "AUDIT: command_execution_completed" /\
      exists elapsed,
        execution_time r = Some elapsed /\
        log_fields e = [("session_id", VStr sid); ("audit", VBool true);
                        ("command_id", VStr (command_id r));
                        ("status", VStr (CommandStatus_value (status r)));
                        ("exit_code", VInt 0);
                        ("execution_time", VInt elapsed)] /\
        exit_code r = Some 0
    else
      status r = FAILED /\
      stderr r = "Command blocked: " +:+ snd (_is_command_safe E (command rq)) /\
      command_history w' !! sid = Some h /\
      log_event e = "AUDIT: unsafe_command_blocked" /\
      log_fields e = [("session_id", VStr sid); ("audit", VBool true);
                      ("command", VStr (command rq));
                      ("reason", VStr (snd (_is_command_safe E (command rq))))].
Proof.
  intros w Hsb.
  destruct (ring_inv_run E ops (startup E left) ∅ (ring_inv_startup E left))
    as [Hdom _]. fold w in Hdom.
  assert (Hin : sid ∈ dom (command_history w)).
  { rewrite <- Hdom. apply elem_of_dom. eauto. }
  apply elem_of_dom in Hin as [h Hh].
  destruct (_is_command_safe E (command rq)) as [[|] msg] eqn:Hs.
  - pose proof (execute_command_accepted E w sid rq sb msg Hsb Hs) as H.
    destruct (execute_command E sid rq w) as [r w'].
    destruct H as (Hst & Hcode & _ & Hhist & _ & _ & _ & _ & _ & elapsed & ts & Hel & Hlog).
    rewrite Hh in Hhist.
    eexists h, _. split; [exact Hh|]. split; [exact Hlog|]. split; [reflexivity|].
    simpl. split; [exact Hst|].
    split; [rewrite Hhist, lookup_insert_eq, keep_last_100_lastn; reflexivity|].
    split.
    { unfold lastn. rewrite length_app. simpl.
      rewrite drop_app_le by lia. apply last_snoc. }
    split; [rewrite lastn_length; lia|].
    split; [reflexivity|].
    exists elapsed. rewrite Hst. repeat split; assumption.
  - pose proof (execute_command_rejected E w sid rq sb msg Hsb Hs) as H.
    destruct (execute_command E sid rq w) as [r w'].
    destruct H as (Hst & _ & Herr & _ & Hhist & _ & _ & _ & _ & _ & Hlog).
    eexists h, _. split; [exact Hh|].
    split; [unfold latest_log; rewrite Hlog; apply trim_logs_last|].
    split; [reflexivity|].
    simpl. rewrite Hhist. repeat split; assumption.
Qed.

Lemma demo_world_run : run demo_env demo_ops (startup demo_env demo_disk) = demo_world.
Proof. vm_compute. reflexivity. Qed.

Lemma outcome_is_audited_and_executions_are_stored_witness :
  let sid := "session-token-0" in
  let w := run demo_env demo_ops (startup demo_env demo_disk) in
  is_Some (active_sandboxes w !! sid) /\
  let '(r, w') := execute_command demo_env sid (request "git" ["status"] sid) w in
  exists h e,
    command_history w !! sid = Some h /\ latest_log w' = Some e /\
    log_level e = info /\
    if fst (_is_command_safe demo_env "git")
    then
      status r = COMPLETED /\
      command_history w' !! sid = Some (lastn 100 (h ++ [r])) /\
      last (lastn 100 (h ++ [r])) = Some r /\
      (length (lastn 100 (h ++ [r])) <= 100)%nat /\
      log_event e = "AUDIT: command_execution_completed" /\
      exists elapsed,
        execution_time r = Some elapsed /\
        log_fields e = [("session_id", VStr sid); ("audit", VBool true);
                        ("command_id", VStr (command_id r));
                        ("status", VStr (CommandStatus_value (status r)));
                        ("exit_code", VInt 0);
                        ("execution_time", VInt elapsed)] /\
        exit_code r = Some 0
    else
      status r = FAILED /\
      stderr r = "Command blocked: " +:+ snd (_is_command_safe demo_env "git") /\
      command_history w' !! sid = Some h /\
      log_event e = "AUDIT: unsafe_command_blocked" /\
      log_fields e = [("session_id", VStr sid); ("audit", VBool true);
                      ("command", VStr "git");
                      ("reason", VStr (snd (_is_command_safe demo_env "git")))].
Proof.
  cbv zeta.
  destruct (active_sandboxes (run demo_env demo_ops (startup demo_env demo_disk))
              !! "session-token-0") as [sb|] eqn:Hsb.
  - split; [eauto|].
    exact (outcome_is_audited_and_executions_are_stored demo_env demo_disk demo_ops
             "session-token-0" (request "git" ["status"] "session-token-0") sb Hsb).
  - vm_compute in Hsb. discriminate Hsb.
Defined.

(** ** The history ring *)

(** C8. In every state the process reaches, the stored history of a session is
    the last 100 entries of everything the executor stored for it, oldest
    first, newest last.  [get_command_history] with a positive limit returns
    the last [limit] of those, so at most [limit] and at most 100 entries in
    the same order; with a limit of zero or less it returns all stored
    entries. *)
Theorem history_is_a_bounded_ring E left ops sid limit :
  let w := run E ops (startup E left) in
  let full := default [] (record_run E ops (startup E left) ∅ !! sid) in
  let stored := default [] (command_history w !! sid) in
  let got := fst (get_command_history sid limit w) in
  stored = lastn 100 full /\
  suffix stored full /\
  (length stored <= 100)%nat /\
  (length stored = Nat.min 100 (length full)) /\
  if 0 <? limit
  then got = lastn (Z.to_nat limit) stored /\
       got = lastn (Nat.min (Z.to_nat limit) 100) full /\
       suffix got stored /\
       (Z.of_nat (length got) <= limit) /\
       (length got <= 100)%nat
  else got = stored.
Proof.
  intros w full stored got.
  destruct (ring_inv_run E ops (startup E left) ∅ (ring_inv_startup E left))
    as [_ Hring]. fold w in Hring. specialize (Hring sid).
  assert (Hstored : stored = lastn 100 full).
  { subst stored full. rewrite Hring.
    destruct (record_run E ops (startup E left) ∅ !! sid); reflexivity. }
  assert (Hgot : got = if 0 <? limit then slice_from (- limit) stored else stored).
  { subst got stored. unfold get_command_history, bind, get, ret. cbn.
    destruct (command_history w !! sid) as [h|]; cbn; [reflexivity|].
    destruct (0 <? limit); [|reflexivity].
    unfold slice_from. destruct (_ <? 0); symmetry; apply drop_nil. }
  split; [exact Hstored|].
  split; [rewrite Hstored; apply lastn_suffix|].
  split; [rewrite Hstored, lastn_length; lia|].
  split; [rewrite Hstored, lastn_length; reflexivity|].
  rewrite Hgot. destruct (0 <? limit) eqn:Hlim; [|reflexivity].
  apply Z.ltb_lt in Hlim.
  assert (Hslice : slice_from (- limit) stored = lastn (Z.to_nat limit) stored).
  { rewrite <- (slice_from_neg (Z.to_nat limit)) by lia. f_equal. lia. }
  rewrite Hslice.
  split; [reflexivity|].
  split; [rewrite Hstored, lastn_lastn; reflexivity|].
  split; [apply lastn_suffix|].
  rewrite lastn_length, Hstored, lastn_length. lia.
Qed.

Example ring_evicts_oldest :
  let sid := "session-token-0" in
  let ops := repeat (OpExecute sid (request "git" ["pull"] sid)) 105 in
  let full := default [] (record_run demo_env ops demo_world {[sid := []]} !! sid) in
  let stored := default [] (command_history (run demo_env ops demo_world) !! sid) in
  length full = 105%nat /\ length stored = 100%nat /\ stored = drop 5 full.
Proof. vm_compute. repeat split. Qed.

(** ** Session ids that are not plain names *)

(** [SANDBOX_ROOT / session_id] for some ids, as [str] prints it. *)
Example pathlib_examples :
  map (fun s => Path.str (sandbox_dir demo_env s))
      [""; "./x"; "a/"; "a/b"; "/abs"; "//x"; "///x"; ".."; "x/.."; "."; "a//b"]
  = ["sandbox"; "sandbox/x"; "sandbox/a"; "sandbox/a/b"; "/abs"; "//x"; "/x";
     "sandbox/.."; "sandbox/x/.."; "sandbox"; "sandbox/a/b"] /\
  Path.str (Path.parse "") = "." /\
  Path.str (Path.joinpath (Path.joinpath (Path.parse ".") "x") "workspace")
    = "x/workspace".
Proof. vm_compute. repeat split. Qed.

(** What [create_sandbox] makes of such ids in the demo process: a missing
    parent, a NUL and a file in the way raise; "./x" and "x" share one
    root; "" is SANDBOX_ROOT itself. *)
Example create_sandbox_odd_ids :
  let w := demo_world in
  let made (r : result SandboxInfo) :=
    match r with
    | Returned sb => Returned (sb_working_directory sb)
    | Raised e => Raised e
    end in
  made (fst (create_sandbox demo_env "a/b" "u" w)) = Raised "FileNotFoundError" /\
  made (fst (create_sandbox demo_env (String Ascii.zero "") "u" w))
    = Raised "ValueError" /\
  made (fst (create_sandbox demo_env "x" "u" (set_files (fun _ => {[root_place demo_env "x"]}) w)))
    = Raised "FileExistsError" /\
  made (fst (create_sandbox demo_env "./x" "u" w)) = Returned "sandbox/x/workspace" /\
  root_place demo_env "./x" = root_place demo_env "x" /\
  made (fst (create_sandbox demo_env "" "u" w)) = Returned "sandbox/workspace" /\
  root_place demo_env "" = ["srv"; "sandbox"].
Proof. vm_compute. repeat split. Qed.

(** Destroying the sandbox registered under "" removes SANDBOX_ROOT with the
    roots of all other sessions, whose sandboxes stay registered; no sandbox
    can be provisioned afterwards. *)
Example cleanup_of_the_empty_id :
  let sid := "session-token-0" in
  let w := snd (create_sandbox demo_env "" "u" demo_world) in
  let w' := snd (cleanup_sandbox demo_env "" w) in
  root_exists demo_env sid w = true /\
  fst (cleanup_sandbox demo_env "" w) = true /\
  root_exists demo_env sid w' = false /\
  is_Some (active_sandboxes w' !! sid) /\
  dirs w' = {[ ["srv"] ]} /\
  provisioning_error demo_env "session-token-1" w' = Some "FileNotFoundError".
Proof. vm_compute. split_and!; eauto. Qed.

(** ** Destroying a sandbox *)

Lemma exec_op_sandbox_frame E o w :
  match o with
  | OpCreateSandbox _ _ | OpExecute _ _ | OpCleanup _ => True
  | _ => sandbox_frame w (exec_op E o w)
  end.
Proof.
  destruct o as [rq|sid|sid| |sid user|sid rq|sid limit|sid|level event kwargs];
    unfold exec_op; try exact I.
  - destruct (matched_user rq w) as [[[|c t]|]|e] eqn:Hm.
    + destruct (authenticate_rejected E rq w _ Hm eq_refl) as (w' & -> & Hf & _).
      exact Hf.
    + destruct (authenticate_accepted E rq w c t Hm)
        as (w' & -> & _ & _ & _ & _ & Hf & _). exact Hf.
    + destruct (authenticate_rejected E rq w _ Hm eq_refl) as (w' & -> & Hf & _).
      exact Hf.
    + rewrite (authenticate_raised E rq w e Hm). apply sandbox_frame_refl.
  - pose proof (validate_session_cases E w sid) as H.
    destruct (validate_session E sid w) as [r w']. apply H.
  - pose proof (logout_cases E w sid) as H.
    destruct (logout E sid w) as [r w']. apply H.
  - apply get_active_sessions_frame.
  - rewrite get_command_history_pure. apply sandbox_frame_refl.
  - apply log_structured_frames.
Qed.

Lemma execute_command_sandbox_side E w sid rq :
  let w' := snd (execute_command E sid rq w) in
  active_sandboxes w' = active_sandboxes w /\ dirs w' = dirs w /\
  files w' = files w.
Proof.
  unfold execute_command. run_monad.
  destruct (active_sandboxes w !! sid); cbn; [|repeat split].
  destruct (_is_command_safe E (command rq)) as [[|] msg]; cbn;
    rewrite log_structured_eq; cbn; [|repeat split].
  destruct (_simulate_devops_command _ _) as [[out err] code]; cbn.
  destruct (command_history w !! sid); cbn;
    rewrite log_structured_eq; cbn; repeat split.
Qed.





(* ===================================================================== *)
(** ** The claims about the session authority *)
(* ===================================================================== *)

(** C5. [validate_session] answers [None] for an id that is not tracked, and
    for a tracked session whose expiry instant lies before the instant of the
    call, whatever sweeps have or have not run; in that case the session is
    deleted and the audit event session_expired is emitted.  For a tracked
    session that has not expired it stores the instant of the call as
    [last_activity] and returns the session. *)
Theorem validate_session_expires_lazily E w sid :
  let now := clock E (clock_reads w) in
  let '(r, w') := validate_session E sid w in
  match active_sessions w !! sid with
  | None => r = None /\ w' = w
  | Some s =>
      if s_expires_at s <? now
      then
        r = None /\
        active_sessions w' = delete sid (active_sessions w) /\
        active_sessions w' !! sid = None /\
        exists e,
          latest_log w' = Some e /\
          log_event e = "AUDIT: session_expired" /\
          log_fields e = [("session_id", VStr sid); ("audit", VBool true)]
      else
        exists s',
          r = Some s' /\
          active_sessions w' = <[sid := s']> (active_sessions w) /\
          active_sessions w' !! sid = Some s' /\
          s_last_activity s' = clock E (S (clock_reads w)) /\
          s_username s' = s_username s /\
          s_auth_method s' = s_auth_method s /\
          s_created_at s' = s_created_at s /\
          s_expires_at s' = s_expires_at s
  end.
Proof.
  cbv zeta. pose proof (validate_session_cases E w sid) as H.
  destruct (validate_session E sid w) as [r w']. destruct H as [H _].
  destruct (active_sessions w !! sid) as [s|]; [|exact H].
  destruct (s_expires_at s <? clock E (clock_reads w)).
  - destruct H as (-> & Hs & Hlog). rewrite Hs, lookup_delete_eq.
    split_and!; try reflexivity. eexists. split; [exact Hlog|]. split; reflexivity.
  - destruct H as (-> & Hs & _). rewrite Hs, lookup_insert_eq.
    eexists. split_and!; reflexivity.
Qed.

Example validate_session_after_expiry :
  let late := {| cfg := cfg demo_env;
                 clock := fun n => if (n <? 8)%nat then clock demo_env n
                                   else clock demo_env n + hours24;
                 token_urlsafe := token_urlsafe demo_env;
                 cwd := ["srv"];
                 mkdir_refused := fun _ => false;
                 rmtree_raises := rmtree_raises demo_env;
                 rmtree_spares := rmtree_spares demo_env;
                 authorized_keys := None |} in
  let w := run late demo_ops (startup late demo_disk) in
  is_Some (active_sessions w !! "session-token-0") /\
  fst (validate_session late "session-token-0" w) = None /\
  active_sessions (snd (validate_session late "session-token-0" w))
    !! "session-token-0" = None.
Proof. vm_compute. split; [eauto|split; reflexivity]. Qed.

Lemma validate_api_token_loop_sound (token : string) tbl name :
  validate_api_token_loop token tbl = Returned (Some name) ->
  exists stored, In (name, stored) tbl /\ token = stored.
Proof.
  induction tbl as [|[u stored] tbl IH]; simpl; [discriminate|].
  unfold compare_digest.
  destruct (Py.is_ascii token && Py.is_ascii stored); [|discriminate].
  destruct (String.eqb token stored) eqn:Heq.
  - intros [= ->]. apply String.eqb_eq in Heq. eauto.
  - intros H. destruct (IH H) as (s & Hin & Hs). eauto.
Qed.

Lemma validate_ssh_key_loop_sound (provided : string) keys name :
  validate_ssh_key_loop provided keys = Some name ->
  exists stored, In (name, stored) keys /\ Py.contains provided stored = true.
Proof.
  induction keys as [|[u stored] keys IH]; simpl; [discriminate|].
  destruct (String.eqb provided stored) eqn:Heq; simpl.
  - intros [= ->]. apply String.eqb_eq in Heq. subst.
    exists stored. split; [auto|apply contains_refl].
  - destruct (Py.contains provided stored) eqn:Hc.
    + intros [= ->]. eauto.
    + intros H. destruct (IH H) as (s & Hin & Hs). eauto.
Qed.

Lemma matched_user_in_table rq w name :
  matched_user rq w = Returned (Some name) ->
  exists stored, In (name, stored) (credential_table rq w).
Proof.
  unfold matched_user, credential_table. destruct (method rq).
  - intros [= H]. destruct (validate_ssh_key_loop_sound _ _ _ H) as (s & ? & _). eauto.
  - intros H. destruct (validate_api_token_loop_sound _ _ _ H) as (s & ? & _). eauto.
Qed.

Lemma authenticate_success_inv E rq w r w' :
  authenticate E rq w = (Returned r, w') -> success r = true ->
  exists c t, matched_user rq w = Returned (Some (String c t)).
Proof.
  intros Ha Hs.
  destruct (matched_user rq w) as [[[|c t]|]|e] eqn:Hm.
  - destruct (authenticate_rejected E rq w _ Hm eq_refl) as (v & Hv & _).
    rewrite Hv in Ha. injection Ha as <- _. discriminate Hs.
  - eauto.
  - destruct (authenticate_rejected E rq w _ Hm eq_refl) as (v & Hv & _).
    rewrite Hv in Ha. injection Ha as <- _. discriminate Hs.
  - rewrite (authenticate_raised E rq w e Hm) in Ha. discriminate Ha.
Qed.

(** The username of the request plays no part in a successful authentication. *)
Lemma authenticate_ignores_username E rq w c t u :
  matched_user rq w = Returned (Some (String c t)) ->
  authenticate E {| method := method rq; credentials := credentials rq;
                    username := u |} w
  = authenticate E rq w.
Proof.
  unfold matched_user, authenticate, _validate_ssh_key, _validate_api_token.
  run_monad. intros Hm.
  destruct (method rq); cbn in *.
  - injection Hm as ->. reflexivity.
  - rewrite Hm. reflexivity.
Qed.

(** C6, the input on which the claim fails.  [authenticate] takes the id
    that [secrets.token_urlsafe] gives and checks it against nothing: with a
    random source that gives the same token twice, two successful
    authentications return the same session id, and the session of the
    second replaces the session of the first. *)
Lemma a_repeated_token_is_a_repeated_session_id :
  let w1 := startup stuck_env demo_disk in
  let a1 := authenticate stuck_env rq_devops w1 in
  let a2 := authenticate stuck_env rq_demo (snd a1) in
  exists r1 r2,
    fst a1 = Returned r1 /\ fst a2 = Returned r2 /\
    success r1 = true /\ success r2 = true /\
    session_id r1 = Some "same-token" /\ session_id r2 = Some "same-token" /\
    s_username <$> active_sessions (snd a1) !! "same-token" = Some "devops" /\
    s_username <$> active_sessions (snd a2) !! "same-token" = Some "demo".
Proof. vm_compute. do 2 eexists. split_and!; reflexivity. Qed.

(** C6 as amended.  A successful authentication returns the token drawn from
    the secure random source for it, with an expiry exactly 24 hours after
    the instant read from the clock when the expiry is computed ([created_at]
    is the next reading); the stored session carries the same expiry and the
    username of the credential entry that matched, and the username sent by
    the client changes neither the response nor the state.  A later
    successful authentication of the same process returns the token of a
    later draw: the two ids differ when the two draws do, and so they do
    whenever the random source never repeats a token. *)
Theorem authenticate_mints_a_fresh_24h_session
    E left ops1 rq1 r1 w1' ops2 rq2 r2 w2' :
  let w1 := run E ops1 (startup E left) in
  authenticate E rq1 w1 = (Returned r1, w1') -> success r1 = true ->
  let w2 := run E ops2 w1' in
  authenticate E rq2 w2 = (Returned r2, w2') -> success r2 = true ->
  let issued := clock E (clock_reads w1) in
  exists sid1 sid2 name stored s,
    session_id r1 = Some sid1 /\ session_id r2 = Some sid2 /\
    sid1 = token_urlsafe E (tokens_drawn w1) /\
    sid2 = token_urlsafe E (tokens_drawn w2) /\
    (tokens_drawn w1 < tokens_drawn w2)%nat /\
    ((forall i j, token_urlsafe E i = token_urlsafe E j -> i = j) ->
     sid1 <> sid2) /\
    expires_at r1 = Some (issued + hours24) /\
    active_sessions w1' !! sid1 = Some s /\
    s_expires_at s = issued + hours24 /\
    s_created_at s = clock E (S (clock_reads w1)) /\
    matched_user rq1 w1 = Returned (Some name) /\
    In (name, stored) (credential_table rq1 w1) /\
    s_username s = name /\
    message r1 = "Authenticated as " +:+ name /\
    forall u,
      authenticate E {| method := method rq1; credentials := credentials rq1;
                        username := u |} w1 = (Returned r1, w1').
Proof.
  intros w1 Ha1 Hs1 w2 Ha2 Hs2 issued.
  destruct (authenticate_success_inv E rq1 w1 r1 w1' Ha1 Hs1) as (c1 & t1 & Hm1).
  destruct (authenticate_success_inv E rq2 w2 r2 w2' Ha2 Hs2) as (c2 & t2 & Hm2).
  destruct (authenticate_accepted E rq1 w1 c1 t1 Hm1)
    as (v1 & Hv1 & Hsess1 & Htok1 & _).
  destruct (authenticate_accepted E rq2 w2 c2 t2 Hm2) as (v2 & Hv2 & _).
  rewrite Ha1 in Hv1. injection Hv1 as -> ->.
  rewrite Ha2 in Hv2. injection Hv2 as -> ->.
  destruct (matched_user_in_table rq1 w1 _ Hm1) as (stored & Hin).
  assert (Hlt : (tokens_drawn w1 < tokens_drawn w2)%nat).
  { pose proof (tokens_drawn_run E ops2 v1) as Hmono. fold w2 in Hmono. lia. }
  eexists _, _, (String c1 t1), stored, _.
  split; [reflexivity|]. split; [reflexivity|].
  split; [reflexivity|]. split; [reflexivity|]. split; [exact Hlt|].
  split.
  { intros Hfresh Heq. apply Hfresh in Heq. lia. }
  split; [reflexivity|].
  split; [rewrite Hsess1; apply lookup_insert_eq|].
  split; [reflexivity|]. split; [reflexivity|].
  split; [exact Hm1|]. split; [exact Hin|].
  split; [reflexivity|]. split; [reflexivity|].
  intros u. rewrite (authenticate_ignores_username E rq1 w1 c1 t1 u Hm1). exact Ha1.
Qed.

Lemma str_of_nat_inj (n m : nat) : Py.str_of_nat n = Py.str_of_nat m -> n = m.
Proof.
  assert (Hnonnil : forall k, Nat.to_uint k <> Decimal.Nil).
  { intros k. rewrite <- (DecimalNat.Unsigned.of_to k) at 1.
    rewrite DecimalNat.Unsigned.to_of. apply DecimalFacts.unorm_nonnil. }
  unfold Py.str_of_nat. intros H.
  apply (f_equal NilZero.uint_of_string) in H.
  rewrite !NilZero.usu in H by apply Hnonnil.
  injection H. apply DecimalNat.Unsigned.to_uint_inj.
Qed.

Lemma demo_tokens_distinct (i j : nat) :
  token_urlsafe demo_env i = token_urlsafe demo_env j -> i = j.
Proof.
  unfold demo_env, token_urlsafe. intros H.
  apply str_of_nat_inj. cbn in H. congruence.
Qed.


Lemma authenticate_mints_a_fresh_24h_session_witness :
  let w1 := startup demo_env demo_disk in
  let a1 := authenticate demo_env rq_devops w1 in
  let w2 := run demo_env [OpValidate "session-token-0"] (snd a1) in
  let a2 := authenticate demo_env rq_demo w2 in
  exists r1 r2 sid1 sid2,
    fst a1 = Returned r1 /\ fst a2 = Returned r2 /\
    success r1 = true /\ success r2 = true /\
    session_id r1 = Some sid1 /\ session_id r2 = Some sid2 /\ sid1 <> sid2 /\
    expires_at r1 = Some (clock demo_env 0 + hours24).
Proof.
  intros w1 a1 w2 a2.
  set (r1 := {| success := true; session_id := Some "session-token-0";
                message := "Authenticated as devops";
                expires_at := Some (clock demo_env 0 + hours24) |}).
  set (r2 := {| success := true; session_id := Some "session-token-1";
                message := "Authenticated as demo";
                expires_at := Some (clock demo_env 6 + hours24) |}).
  assert (H1 : fst a1 = Returned r1) by (vm_compute; reflexivity).
  assert (H2 : fst a2 = Returned r2) by (vm_compute; reflexivity).
  assert (P1 : authenticate demo_env rq_devops (run demo_env [] (startup demo_env demo_disk))
               = (Returned r1, snd a1)).
  { rewrite <- H1. apply surjective_pairing. }
  assert (P2 : authenticate demo_env rq_demo
                 (run demo_env [OpValidate "session-token-0"] (snd a1))
               = (Returned r2, snd a2)).
  { rewrite <- H2. apply surjective_pairing. }
  destruct (authenticate_mints_a_fresh_24h_session demo_env demo_disk [] rq_devops r1
              (snd a1) [OpValidate "session-token-0"] rq_demo r2 (snd a2)
              P1 eq_refl P2 eq_refl)
    as (sid1 & sid2 & name & stored & s & Hsid1 & Hsid2 & _ & _ & _ & Hne & Hexp & _).
  exists r1, r2, sid1, sid2.
  split; [exact H1|]. split; [exact H2|]. split; [reflexivity|].
  split; [reflexivity|]. split; [exact Hsid1|]. split; [exact Hsid2|].
  split; [exact (Hne demo_tokens_distinct)|]. reflexivity.
Defined.

(** *** SSH keys *)

Lemma validate_ssh_key_loop_complete (provided : string) keys name stored :
  In (name, stored) keys -> Py.contains provided stored = true ->
  exists first, validate_ssh_key_loop provided keys = Some first.
Proof.
  induction keys as [|[u k] keys IH]; simpl; [tauto|].
  intros [[= -> ->]|Hin] Hc.
  - rewrite Hc, orb_true_r. eauto.
  - destruct (String.eqb provided k || Py.contains provided k); eauto.
Qed.

(** What the key check accepts: every substring of a stored key. *)
Lemma validate_ssh_key_accepts_substrings (provided : string) keys :
  (exists name, validate_ssh_key_loop provided keys = Some name) <->
  (exists name stored a b,
     In (name, stored) keys /\ stored = a +:+ provided +:+ b).
Proof.
  split.
  - intros [name H]. destruct (validate_ssh_key_loop_sound _ _ _ H) as (s & Hin & Hc).
    apply contains_infix in Hc as (a & b & Hs). eauto 6.
  - intros (name & stored & a & b & Hin & Hs).
    apply (validate_ssh_key_loop_complete provided keys name stored Hin).
    apply contains_infix. eauto.
Qed.

(** C1, at an input where the code departs from it.  With the demo key as the
    only authorized key, the provided key "ssh-rsa" is not that key and only
    occurs inside it; [_validate_ssh_key] returns its owner and
    [authenticate] returns a session.  The empty key is accepted likewise. *)
Theorem ssh_key_substring_is_accepted :
  let stored := "ssh-rsa AAAAB3NzaC1yc2EAAAADAQABAAABgQC... demo@localhost" in
  let w := startup demo_env demo_disk in
  let rq := {| method := SSH_KEY; credentials := "ssh-rsa"; username := None |} in
  ssh_keys w = [("demo", stored)] /\
  credentials rq <> stored /\
  stored = "" +:+ credentials rq +:+ " AAAAB3NzaC1yc2EAAAADAQABAAABgQC... demo@localhost" /\
  fst (_validate_ssh_key (credentials rq) w) = Some "demo" /\
  fst (authenticate demo_env rq w) =
    Returned {| success := true; session_id := Some "session-token-0";
                message := "Authenticated as demo";
                expires_at := Some (clock demo_env 0 + hours24) |} /\
  is_Some (active_sessions (snd (authenticate demo_env rq w)) !! "session-token-0") /\
  fst (_validate_ssh_key "" w) = Some "demo".
Proof.
  cbv zeta. split; [reflexivity|]. split; [discriminate|].
  split; [reflexivity|]. split; [reflexivity|].
  split; [vm_compute; reflexivity|]. split; [vm_compute; eauto|]. reflexivity.
Qed.

(** *** API tokens *)

Lemma default_api_tokens E :
  cfg E = Config.default ->
  _load_api_tokens E =
    [("admin", "d1405116107df3798451094ebb21052c");
     ("devops", "77c1b3d8c275f2d774a60ea912080c04");
     ("user", "1da8c4916636af0ab976cb4728491094")].
Proof. intros H. unfold _load_api_tokens. rewrite H. vm_compute. reflexivity. Qed.

(** C4, at the step where the code departs from it.  Under the default
    configuration the stored token of user devops is the first 32 hex digits
    of SHA-256 of "devops-devops-agent-secret-key-2025"; the login with the
    token "devops" matches no stored token and is answered with
    "Invalid credentials": no session, no sandbox. *)
Theorem login_with_token_devops_is_rejected E left :
  cfg E = Config.default ->
  let w := startup E left in
  let rq := {| method := API_TOKEN; credentials := "devops"; username := None |} in
  let '(r, w') := login E rq w in
  In ("devops", "77c1b3d8c275f2d774a60ea912080c04") (api_tokens w) /\
  r = Ok {| success := false; session_id := None;
            message := "Invalid credentials"; expires_at := None |} /\
  active_sessions w' = ∅ /\ active_sandboxes w' = ∅ /\
  dirs w' = dirs w /\ files w' = files w.
Proof.
  intros Hcfg w rq.
  destruct (startup_state E left) as (Hs0 & Htok & _ & Hsb0 & _).
  fold w in Hs0, Htok, Hsb0.
  rewrite (default_api_tokens E Hcfg) in Htok.
  assert (Hm : matched_user rq w = Returned None).
  { unfold matched_user, rq. cbn [method credentials]. rewrite Htok.
    vm_compute. reflexivity. }
  destruct (authenticate_rejected E rq w None Hm eq_refl)
    as (v & Hv & (Hs & _ & Hd & Hf) & (Ha & _) & _).
  unfold login, bind, ret. rewrite Hv. cbn [success andb].
  rewrite Htok, Ha, Hs, Hd, Hf, Hs0, Hsb0. split; [simpl; tauto|]. repeat split.
Qed.

Lemma login_with_token_devops_is_rejected_witness :
  cfg demo_env = Config.default /\
  let w := startup demo_env demo_disk in
  let rq := {| method := API_TOKEN; credentials := "devops"; username := None |} in
  let '(r, w') := login demo_env rq w in
  In ("devops", "77c1b3d8c275f2d774a60ea912080c04") (api_tokens w) /\
  r = Ok {| success := false; session_id := None;
            message := "Invalid credentials"; expires_at := None |} /\
  active_sessions w' = ∅ /\ active_sandboxes w' = ∅ /\
  dirs w' = dirs w /\ files w' = files w.
Proof.
  split; [reflexivity|].
  apply (login_with_token_devops_is_rejected demo_env demo_disk). reflexivity.
Defined.

(** The rest of the scenario of C4, run with the token the server minted. *)
Lemma end_to_end_with_the_minted_token :
  let sid := "session-token-0" in
  let w := startup demo_env demo_disk in
  let '(r0, w0) :=
    login demo_env {| method := API_TOKEN; credentials := devops_token;
                      username := None |} w in
  let '(r1, w1) :=
    execute_command_endpoint demo_env sid (request "git" ["status"] sid) w0 in
  let '(r2, w2) :=
    execute_command_endpoint demo_env sid (request "rm" ["-rf"; "/"] sid) w1 in
  let '(r3, w3) := logout_endpoint demo_env sid w2 in
  let '(r4, w4) :=
    execute_command_endpoint demo_env sid (request "git" ["status"] sid) w3 in
  r0 = Ok {| success := true; session_id := Some sid;
             message := "Authenticated as devops";
             expires_at := Some (clock demo_env 0 + hours24) |} /\
  (exists c, r1 = Ok c /\ status c = COMPLETED /\ exit_code c = Some 0) /\
  (exists c, r2 = Ok c /\ status c = FAILED /\
             Py.contains "blocked" (stderr c) = true) /\
  r3 = Ok (true, "Logged out successfully") /\
  root_exists demo_env sid w2 = true /\
  root_exists demo_env sid w3 = false /\
  r4 = HTTPException 401 "Invalid or expired session".
Proof. vm_compute. split_and!; eauto. Qed.

(* ===================================================================== *)
(** * Further properties of the code *)
(* ===================================================================== *)

(** ** Words of a line *)

Lemma append_nil_r (s : string) : s +:+ "" = s.
Proof. induction s; simpl; congruence. Qed.

Lemma append_assoc (a b c : string) : (a +:+ b) +:+ c = a +:+ b +:+ c.
Proof. induction a; simpl; congruence. Qed.

Lemma rev_onto_app (s acc : string) : Py.rev_onto s acc = Py.rev s +:+ acc.
Proof.
  unfold Py.rev. revert acc. induction s as [|c s IH]; intros acc; simpl.
  - reflexivity.
  - rewrite IH, (IH (String c "")), append_assoc. reflexivity.
Qed.

Lemma rev_onto_rev_onto (s a b : string) :
  Py.rev_onto (Py.rev_onto s a) b = Py.rev_onto a (s +:+ b).
Proof.
  revert a. induction s as [|c s IH]; intros a; simpl.
  - reflexivity.
  - rewrite IH. reflexivity.
Qed.

Lemma rev_involutive (s : string) : Py.rev (Py.rev s) = s.
Proof. unfold Py.rev. rewrite rev_onto_rev_onto. simpl. apply append_nil_r. Qed.

Lemma rev_onto_empty (s acc : string) :
  Py.rev_onto s acc = "" -> s = "" /\ acc = "".
Proof.
  revert acc. induction s as [|c s IH]; intros acc; simpl.
  - auto.
  - intros H. apply IH in H as [_ H]. discriminate.
Qed.

Lemma nospace_cons (c : ascii) (s : string) :
  nospace (String c s) = negb (Py.isspace c) && nospace s.
Proof. reflexivity. Qed.

Lemma nospace_rev_onto (s acc : string) :
  nospace (Py.rev_onto s acc) = nospace s && nospace acc.
Proof.
  revert acc. induction s as [|c s IH]; intros acc; simpl Py.rev_onto.
  - reflexivity.
  - rewrite IH, !nospace_cons. destruct (Py.isspace c), (nospace s); reflexivity.
Qed.

Lemma nospace_rev (s : string) : nospace (Py.rev s) = nospace s.
Proof. unfold Py.rev. rewrite nospace_rev_onto. apply andb_true_r. Qed.

(** The words [split] returns are non-empty and hold no whitespace. *)
Lemma split_go_words (s cur : string) :
  nospace cur = true ->
  Forall (fun t => t <> "" /\ nospace t = true) (Py.split_go s cur).
Proof.
  revert cur. induction s as [|c s IH]; intros cur Hcur; simpl.
  - destruct cur as [|d cur]; constructor; [|constructor].
    split; [|rewrite nospace_rev; exact Hcur].
    unfold Py.rev. intros H. apply rev_onto_empty in H as [H _]. discriminate.
  - destruct (Py.isspace c) eqn:Hc.
    + destruct cur as [|d cur]; [apply IH; reflexivity|].
      constructor; [|apply IH; reflexivity].
      split; [|rewrite nospace_rev; exact Hcur].
      unfold Py.rev. intros H. apply rev_onto_empty in H as [H _]. discriminate.
    + apply IH. rewrite nospace_cons, Hc, Hcur. reflexivity.
Qed.

Lemma split_words (s : string) :
  Forall (fun t => t <> "" /\ nospace t = true) (Py.split s).
Proof. apply split_go_words. reflexivity. Qed.

Lemma split_go_nospace (s cur : string) :
  nospace s = true ->
  Py.split_go s cur =
    match Py.rev_onto s cur with
    | EmptyString => []
    | r => [Py.rev r]
    end.
Proof.
  revert cur. induction s as [|c s IH]; intros cur Hs; simpl.
  - destruct cur; reflexivity.
  - rewrite nospace_cons in Hs. apply andb_true_iff in Hs as [Hc Hs].
    apply negb_true_iff in Hc. rewrite Hc. apply IH, Hs.
Qed.

(** A word is what [strip] and [split] leave of it. *)
Lemma word_strip_split (t : string) :
  t <> "" -> nospace t = true -> Py.strip t = t /\ Py.split t = [t].
Proof.
  intros Hne Hns.
  assert (Hl : forall u, u <> "" -> nospace u = true -> Py.lstrip u = u).
  { intros [|c u] Hu Hn; [congruence|].
    rewrite nospace_cons in Hn. apply andb_true_iff in Hn as [Hc _].
    apply negb_true_iff in Hc. simpl. rewrite Hc. reflexivity. }
  assert (Hrev : Py.rev t <> "").
  { unfold Py.rev. intros H. apply rev_onto_empty in H as [H _]. congruence. }
  split.
  - unfold Py.strip, Py.rstrip. rewrite (Hl t Hne Hns).
    rewrite (Hl (Py.rev t) Hrev) by (rewrite nospace_rev; exact Hns).
    apply rev_involutive.
  - unfold Py.split. rewrite split_go_nospace by exact Hns.
    fold (Py.rev t). destruct (Py.rev t) as [|c r] eqn:Hr; [congruence|].
    rewrite <- Hr, rev_involutive. reflexivity.
Qed.

Lemma lstrip_app_nonspace (a b : string) (c : ascii) :
  Py.isspace c = false ->
  Py.lstrip (a +:+ String c b) = Py.lstrip a +:+ String c b.
Proof.
  intros Hc. induction a as [|d a IH]; simpl.
  - rewrite Hc. reflexivity.
  - destruct (Py.isspace d); [exact IH|reflexivity].
Qed.

Lemma rev_app (a b : string) : Py.rev (a +:+ b) = Py.rev b +:+ Py.rev a.
Proof.
  induction a as [|c a IH]; simpl.
  - rewrite append_nil_r. reflexivity.
  - unfold Py.rev at 1 3. simpl. rewrite !rev_onto_app, IH, append_assoc.
    reflexivity.
Qed.

(** A stripped string is empty or starts with a character that is no
    whitespace. *)
Lemma strip_head (s : string) :
  Py.strip s = "" \/
  exists c rest, Py.strip s = String c rest /\ Py.isspace c = false.
Proof.
  unfold Py.strip, Py.rstrip.
  assert (Hl : Py.lstrip s = "" \/
               exists c x, Py.lstrip s = String c x /\ Py.isspace c = false).
  { induction s as [|d s IH]; simpl; [auto|].
    destruct (Py.isspace d) eqn:Hd; [exact IH|]. right. eauto. }
  destruct Hl as [->|(c & x & -> & Hc)]; [left; reflexivity|right].
  unfold Py.rev at 2. simpl. rewrite rev_onto_app.
  rewrite lstrip_app_nonspace by exact Hc.
  rewrite rev_app. simpl. eauto.
Qed.

Lemma split_go_nonempty (s cur : string) :
  cur <> "" -> Py.split_go s cur <> [].
Proof.
  revert cur. induction s as [|c s IH]; intros cur Hcur; simpl.
  - destruct cur; [congruence|discriminate].
  - destruct (Py.isspace c).
    + destruct cur; [congruence|discriminate].
    + apply IH. discriminate.
Qed.

(** [split] of a stripped string is empty exactly when the string is. *)
Lemma split_strip_nil (s : string) :
  Py.split (Py.strip s) = [] <-> Py.strip s = "".
Proof.
  destruct (strip_head s) as [->|(c & rest & -> & Hc)].
  - split; reflexivity.
  - split; [|discriminate]. unfold Py.split. simpl. rewrite Hc.
    intros H. apply split_go_nonempty in H; [contradiction|discriminate].
Qed.

(** ** The policy check, in full *)

Lemma first_dangerous_none (ps : list string) (cmd : string) :
  first_dangerous ps cmd = None <->
  forall p, In p ps -> Py.contains p cmd = false.
Proof.
  induction ps as [|q ps IH]; simpl.
  - split; [intros _ p []|reflexivity].
  - destruct (Py.contains q cmd) eqn:Hq.
    + split; [discriminate|]. intros H. rewrite (H q) in Hq by auto. discriminate.
    + rewrite IH. split.
      * intros H p [<-|Hin]; auto.
      * intros H p Hin. apply H. auto.
Qed.

(** X1. What passes the policy check: the command text has a first word, that
    word in lower case is on the allow-list and not on the block-list, and no
    dangerous pattern occurs anywhere in the text.  The verdict "Empty command"
    is given exactly to the texts that are empty once stripped. *)
Theorem is_command_safe_characterised E (cmd : string) :
  (fst (_is_command_safe E cmd) = true <->
   exists first rest,
     Py.split (Py.strip cmd) = first :: rest /\
     Py.mem (Py.lower first) (Config.BLOCKED_COMMANDS (cfg E)) = false /\
     Py.mem (Py.lower first) (Config.AVAILABLE_TOOLS (cfg E)) = true /\
     forall p, In p dangerous_patterns -> Py.contains p cmd = false) /\
  (_is_command_safe E cmd = (false, "Empty command") <-> Py.strip cmd = "") /\
  (fst (_is_command_safe E cmd) = true ->
   _is_command_safe E cmd = (true, "Command is safe")).
Proof.
  unfold _is_command_safe.
  pose proof (split_strip_nil cmd) as Hnil.
  destruct (Py.split (Py.strip cmd)) as [|first rest] eqn:Hsplit.
  { split; [|split].
    - split; [discriminate|]. intros (f & r & H & _). discriminate.
    - split; [intros _; apply Hnil; reflexivity|reflexivity].
    - discriminate. }
  assert (Hne : Py.strip cmd <> "").
  { intros H. apply Hnil in H. discriminate. }
  destruct (Py.mem (Py.lower first) (Config.BLOCKED_COMMANDS (cfg E))) eqn:Hb.
  { split; [|split].
    - split; [discriminate|]. intros (f & r & [= <- <-] & Hf & _). congruence.
    - split; [discriminate|contradiction].
    - discriminate. }
  destruct (Py.mem (Py.lower first) (Config.AVAILABLE_TOOLS (cfg E))) eqn:Ha; cbn [negb].
  2:{ split; [|split].
      - split; [discriminate|]. intros (f & r & [= <- <-] & _ & Hf & _). congruence.
      - split; [discriminate|contradiction].
      - discriminate. }
  pose proof (first_dangerous_none dangerous_patterns cmd) as Hd.
  destruct (first_dangerous dangerous_patterns cmd) as [p|].
  - split; [|split].
    + split; [discriminate|]. intros (f & r & _ & _ & _ & H).
      apply Hd in H. discriminate.
    + split; [discriminate|contradiction].
    + discriminate.
  - split; [|split].
    + split; [|reflexivity]. intros _. exists first, rest.
      repeat split; try assumption. apply Hd. reflexivity.
    + split; [discriminate|contradiction].
    + reflexivity.
Qed.

(** ** Commands of one word *)

Lemma lower_app (a b : string) : Py.lower (a +:+ b) = Py.lower a +:+ Py.lower b.
Proof. induction a; simpl; congruence. Qed.

Lemma contains_lower (p s : string) :
  Py.contains p s = true -> Py.contains (Py.lower p) (Py.lower s) = true.
Proof.
  rewrite !contains_infix. intros (a & b & ->).
  exists (Py.lower a), (Py.lower b). rewrite !lower_app. reflexivity.
Qed.

(** A name that the default allow-list knows holds no dangerous pattern, in
    whatever case it is written. *)
Lemma allowed_name_has_no_pattern (name : string) :
  Py.mem (Py.lower name) (Config.AVAILABLE_TOOLS Config.default) = true ->
  first_dangerous dangerous_patterns name = None.
Proof.
  intros Hmem. apply first_dangerous_none. intros p Hin.
  destruct (Py.contains p name) eqn:Hc; [|reflexivity].
  apply contains_lower in Hc.
  unfold Py.mem in Hmem. simpl existsb in Hmem.
  repeat (apply orb_true_iff in Hmem as [Hmem|Hmem];
          [apply String.eqb_eq in Hmem; rewrite Hmem in Hc;
           simpl in Hin;
           repeat (destruct Hin as [<-|Hin]; [vm_compute in Hc; discriminate Hc|]);
           contradiction|]).
  discriminate Hmem.
Qed.

(** X2. A command text that is one word is judged by the two lists alone
    under the default configuration: a word that the allow-list knows holds
    none of the dangerous patterns, so the pattern test of [_is_command_safe]
    never refuses a one-word command. *)
Theorem one_word_command_is_judged_by_the_lists E (command : string) :
  cfg E = Config.default ->
  command <> "" -> nospace command = true ->
  _is_command_safe E command =
    if Py.mem (Py.lower command) (Config.BLOCKED_COMMANDS Config.default)
    then (false, "Command '" +:+ Py.lower command
                   +:+ "' is blocked for security reasons")
    else if Py.mem (Py.lower command) (Config.AVAILABLE_TOOLS Config.default)
    then (true, "Command is safe")
    else (false, "Command '" +:+ Py.lower command
                   +:+ "' is not available in sandbox").
Proof.
  intros Hcfg Hne Hns.
  destruct (word_strip_split command Hne Hns) as [Hs Hsp].
  unfold _is_command_safe. rewrite Hs, Hsp, Hcfg.
  destruct (Py.mem _ (Config.BLOCKED_COMMANDS Config.default)); [reflexivity|].
  destruct (Py.mem _ (Config.AVAILABLE_TOOLS Config.default)) eqn:Ha;
    cbn [negb]; [|reflexivity].
  rewrite (allowed_name_has_no_pattern command Ha). reflexivity.
Qed.

Lemma one_word_command_is_judged_by_the_lists_witness :
  cfg demo_env = Config.default /\ "Git" <> "" /\ nospace "Git" = true /\
  _is_command_safe demo_env "Git" = (true, "Command is safe").
Proof.
  split; [reflexivity|]. split; [discriminate|]. split; [reflexivity|].
  apply (one_word_command_is_judged_by_the_lists demo_env "Git");
    [reflexivity|discriminate|reflexivity].
Defined.

(** ** Sessions of a run *)

Lemma session_inv_auth_frame E w w' :
  auth_frame w w' -> session_inv E w -> session_inv E w'.
Proof.
  unfold auth_frame, session_inv. intros (Hs & Ha & Hk & Ht) (Hat & Hkt & H).
  rewrite Hs, Ha, Hk, Ht. auto.
Qed.

(** Dropping sessions, or touching only the activity stamp, keeps them sound. *)
Lemma session_inv_shrink E w w' :
  api_tokens w' = api_tokens w -> ssh_keys w' = ssh_keys w ->
  tokens_drawn w' = tokens_drawn w ->
  (forall sid s', active_sessions w' !! sid = Some s' ->
     exists s, active_sessions w !! sid = Some s /\
               s_username s' = s_username s /\
               s_auth_method s' = s_auth_method s) ->
  session_inv E w -> session_inv E w'.
Proof.
  unfold session_inv. intros Ha Hk Ht Hsub (Hat & Hkt & H).
  rewrite Ha, Hk, Ht. split; [exact Hat|]. split; [exact Hkt|].
  intros sid s' Hs'. destruct (Hsub sid s' Hs') as (s & Hs & Hu & Hm).
  rewrite Hu, Hm. apply (H sid s Hs).
Qed.

Lemma get_active_sessions_effect E w :
  let '(m, w') := get_active_sessions E w in
  m = active_sessions w' /\
  active_sessions w' =
    filter (fun kv => negb (s_expires_at (snd kv) <? clock E (clock_reads w)) = true)
           (active_sessions w).
Proof. unfold get_active_sessions. run_monad. split; reflexivity. Qed.

Lemma session_inv_step E o w : session_inv E w -> session_inv E (exec_op E o w).
Proof.
  intros Hinv.
  destruct o as [rq|sid|sid| |sid user|sid rq|sid limit|sid|level event kwargs];
    unfold exec_op.
  - destruct (matched_user rq w) as [[[|c t]|]|e] eqn:Hm.
    + destruct (authenticate_rejected E rq w _ Hm eq_refl) as (w' & -> & _ & Hf & _).
      apply (session_inv_auth_frame E w); assumption.
    + destruct (authenticate_accepted E rq w c t Hm)
        as (w' & -> & Hs & Ht & Ha & Hk & _). cbn [snd].
      destruct (matched_user_in_table rq w _ Hm) as (stored & Hin).
      destruct Hinv as (Hat & Hkt & H). unfold session_inv.
      rewrite Ha, Hk, Ht, Hs. split; [exact Hat|]. split; [exact Hkt|].
      intros sid s Hlook.
      destruct (decide (token_urlsafe E (tokens_drawn w) = sid)) as [<-|Hne].
      * rewrite lookup_insert_eq in Hlook. injection Hlook as <-. cbn.
        split; [discriminate|]. split; [exists (tokens_drawn w); split; [lia|reflexivity]|].
        exists stored. unfold credential_table in Hin.
        destruct (method rq); exact Hin.
      * rewrite lookup_insert_ne in Hlook by exact Hne.
        destruct (H sid s Hlook) as (Hu & (i & Hi & Hsid) & Hst).
        split; [exact Hu|]. split; [exists i; split; [lia|exact Hsid]|exact Hst].
    + destruct (authenticate_rejected E rq w _ Hm eq_refl) as (w' & -> & _ & Hf & _).
      apply (session_inv_auth_frame E w); assumption.
    + rewrite (authenticate_raised E rq w e Hm). exact Hinv.
  - pose proof (validate_session_cases E w sid) as H.
    destruct (validate_session E sid w) as [r w']. cbn [snd].
    destruct H as (Hc & _ & Ht & Ha & Hk).
    apply (session_inv_shrink E w); try assumption.
    intros sid' s' Hs'.
    destruct (active_sessions w !! sid) as [s|] eqn:Hs.
    + destruct (s_expires_at s <? clock E (clock_reads w)).
      * destruct Hc as (_ & Hd & _). rewrite Hd in Hs'.
        apply lookup_delete_Some in Hs' as [_ Hs']. eauto.
      * destruct Hc as (_ & Hi & _). rewrite Hi in Hs'.
        destruct (decide (sid = sid')) as [<-|Hne].
        -- rewrite lookup_insert_eq in Hs'. injection Hs' as <-. eauto.
        -- rewrite lookup_insert_ne in Hs' by exact Hne. eauto.
    + destruct Hc as [_ ->]. eauto.
  - pose proof (logout_cases E w sid) as H.
    destruct (logout E sid w) as [r w']. cbn [snd].
    destruct H as (Hc & _ & Ht & Ha & Hk).
    apply (session_inv_shrink E w); try assumption.
    intros sid' s' Hs'.
    destruct (active_sessions w !! sid) as [s|] eqn:Hs.
    + destruct Hc as (_ & Hd & _). rewrite Hd in Hs'.
      apply lookup_delete_Some in Hs' as [_ Hs']. eauto.
    + destruct Hc as [_ ->]. eauto.
  - destruct (get_active_sessions_frame E w) as (_ & Ht & Ha & Hk).
    pose proof (get_active_sessions_effect E w) as He.
    destruct (get_active_sessions E w) as [m w']. cbn [snd] in *.
    destruct He as [_ He].
    apply (session_inv_shrink E w); try assumption.
    intros sid' s' Hs'. rewrite He in Hs'.
    apply map_lookup_filter_Some in Hs' as [Hs' _]. eauto.
  - pose proof (create_sandbox_cases E w sid user) as H.
    destruct (create_sandbox E sid user w) as [r w']. cbn [snd].
    destruct H as (_ & _ & Hf & _).
    apply (session_inv_auth_frame E w); assumption.
  - apply (session_inv_auth_frame E w); [|exact Hinv].
    apply execute_command_auth_frame.
  - rewrite get_command_history_pure. exact Hinv.
  - pose proof (cleanup_sandbox_cases E w sid) as H.
    destruct (cleanup_sandbox E sid w) as [r w']. cbn [snd].
    destruct H as (_ & Hf & _). apply (session_inv_auth_frame E w); assumption.
  - apply (session_inv_auth_frame E w); [|exact Hinv].
    apply log_structured_frames.
Qed.

Lemma session_inv_startup E left : session_inv E (startup E left).
Proof.
  destruct (startup_state E left) as (Hs & Ha & Hk & _).
  unfold session_inv. rewrite Hs, Ha, Hk.
  split; [reflexivity|]. split; [reflexivity|].
  intros sid s H. rewrite lookup_empty in H. discriminate.
Qed.

Lemma session_inv_run E left ops : session_inv E (run E ops (startup E left)).
Proof.
  assert (H : forall w, session_inv E w -> session_inv E (run E ops w)).
  { induction ops as [|o ops IH]; intros w Hw; simpl; [exact Hw|].
    apply IH, session_inv_step, Hw. }
  apply H, session_inv_startup.
Qed.

(** X3. In every state the process reaches, each tracked session was minted
    by [authenticate]: its id is one of the tokens drawn so far, its owner is
    a non-empty name, and that name is a key of the credential table of the
    session's method, which is still the table loaded at startup. *)
Theorem tracked_sessions_come_from_authenticate E left ops sid s :
  let w := run E ops (startup E left) in
  active_sessions w !! sid = Some s ->
  s_username s <> "" /\
  (exists i, (i < tokens_drawn w)%nat /\ sid = token_urlsafe E i) /\
  exists stored,
    In (s_username s, stored)
       (match s_auth_method s with
        | SSH_KEY => _load_ssh_keys E
        | API_TOKEN => _load_api_tokens E
        end).
Proof.
  intros w Hs. destruct (session_inv_run E left ops) as (Ha & Hk & H).
  fold w in Ha, Hk, H. rewrite <- Ha, <- Hk. exact (H sid s Hs).
Qed.

Lemma tracked_sessions_come_from_authenticate_witness :
  exists s,
    active_sessions (run demo_env demo_ops (startup demo_env demo_disk))
      !! "session-token-0" = Some s /\
    s_username s <> "" /\
    exists i, (i < 1)%nat /\ "session-token-0" = token_urlsafe demo_env i.
Proof.
  destruct (active_sessions (run demo_env demo_ops (startup demo_env demo_disk))
              !! "session-token-0") as [s|] eqn:Hs.
  - exists s. split; [reflexivity|].
    destruct (tracked_sessions_come_from_authenticate demo_env demo_disk demo_ops
                "session-token-0" s Hs) as (Hu & (i & Hi & Hsid) & _).
    split; [exact Hu|]. exists i. split; [|exact Hsid].
    replace (tokens_drawn (run demo_env demo_ops (startup demo_env demo_disk)))
      with 1%nat in Hi by (vm_compute; reflexivity).
    exact Hi.
  - vm_compute in Hs. discriminate Hs.
Defined.

(** ** The authorized keys *)

Lemma dict_set_keys (P : string -> Prop) (k v : string) d :
  P k -> Forall (fun kv => P (fst kv)) d ->
  Forall (fun kv => P (fst kv)) (dict_set k v d).
Proof.
  intros Hk. induction d as [|[k' v'] d IH]; intros Hd; simpl.
  - constructor; [exact Hk|constructor].
  - inversion Hd as [|? ? Hk' Hd']; subst.
    destruct (String.eqb k k'); constructor; auto.
Qed.

Lemma load_key_line_names (n : nat) (line : string) keys :
  Forall (fun kv => fst kv <> "") keys ->
  Forall (fun kv => fst kv <> "") (load_key_line n line keys).
Proof.
  intros Hk. unfold load_key_line.
  destruct (Py.strip line) as [|c rest] eqn:Hs; [exact Hk|].
  rewrite <- Hs. destruct (Py.startswith "#" _); [exact Hk|].
  pose proof (split_words (Py.strip line)) as Hw.
  destruct (Py.split (Py.strip line)) as [|key_type [|key_data more]];
    try exact Hk.
  apply (dict_set_keys (fun k => k <> "")); [|exact Hk].
  destruct more as [|u more]; [discriminate|].
  inversion Hw as [|? ? _ Hw1]; subst. inversion Hw1 as [|? ? _ Hw2]; subst.
  inversion Hw2 as [|? ? [Hu _] _]; subst. exact Hu.
Qed.

Lemma load_key_lines_names (n : nat) (lines : list string) keys :
  Forall (fun kv => fst kv <> "") keys ->
  Forall (fun kv => fst kv <> "") (load_key_lines n lines keys).
Proof.
  revert n keys. induction lines as [|line lines IH]; intros n keys Hk; simpl.
  - exact Hk.
  - apply IH, load_key_line_names, Hk.
Qed.

(** The key table is never empty and every owner in it has a name. *)
Lemma load_ssh_keys_first E :
  exists name stored rest,
    _load_ssh_keys E = (name, stored) :: rest /\ name <> "" /\
    Forall (fun kv => fst kv <> "") rest.
Proof.
  unfold _load_ssh_keys.
  assert (H : Forall (fun kv : string * string => fst kv <> "")
                match authorized_keys E with
                | Some lines => load_key_lines 0 lines []
                | None => []
                end).
  { destruct (authorized_keys E); [apply load_key_lines_names|]; constructor. }
  destruct (match authorized_keys E with
            | Some lines => load_key_lines 0 lines []
            | None => []
            end) as [|[name stored] rest].
  - eexists _, _, _. split; [reflexivity|]. split; [discriminate|constructor].
  - inversion H; subst. eauto 6.
Qed.

(** X4. Whatever the authorized_keys file holds, and in every state the
    process reaches, an SSH-key login whose key is empty or blank is accepted:
    it opens a session for the first owner of the key table. *)
Theorem blank_ssh_key_is_always_accepted E left ops (key : string) u :
  Py.strip key = "" ->
  let w := run E ops (startup E left) in
  let rq := {| method := SSH_KEY; credentials := key; username := u |} in
  exists name stored rest,
    _load_ssh_keys E = (name, stored) :: rest /\ name <> "" /\
    fst (authenticate E rq w) =
      Returned {| success := true;
                  session_id := Some (token_urlsafe E (tokens_drawn w));
                  message := "Authenticated as " +:+ name;
                  expires_at := Some (clock E (clock_reads w) + hours24) |} /\
    exists s,
      active_sessions (snd (authenticate E rq w))
        !! token_urlsafe E (tokens_drawn w) = Some s /\
      s_username s = name.
Proof.
  intros Hblank w rq.
  destruct (load_ssh_keys_first E) as (name & stored & rest & Hkeys & Hname & _).
  destruct (session_inv_run E left ops) as (_ & Hk & _). fold w in Hk.
  exists name, stored, rest. split; [exact Hkeys|]. split; [exact Hname|].
  destruct name as [|c t]; [congruence|].
  assert (Hm : matched_user rq w = Returned (Some (String c t))).
  { unfold matched_user, rq. cbn [method credentials].
    rewrite Hblank, Hk, Hkeys. cbn [validate_ssh_key_loop].
    rewrite contains_empty, orb_true_r. reflexivity. }
  destruct (authenticate_accepted E rq w c t Hm) as (w' & -> & Hs & _).
  cbn [fst snd]. split; [reflexivity|].
  eexists. rewrite Hs, lookup_insert_eq. split; reflexivity.
Qed.

Lemma blank_ssh_key_is_always_accepted_witness :
  Py.strip "   " = "" /\
  exists name,
    fst (authenticate demo_env
           {| method := SSH_KEY; credentials := "   "; username := None |}
           (run demo_env demo_ops (startup demo_env demo_disk))) =
      Returned {| success := true; session_id := Some "session-token-1";
                  message := "Authenticated as " +:+ name;
                  expires_at := Some (clock demo_env 8 + hours24) |}.
Proof.
  split; [reflexivity|].
  destruct (blank_ssh_key_is_always_accepted demo_env demo_disk demo_ops "   " None eq_refl)
    as (name & stored & rest & _ & _ & H & _).
  assert (Ht : tokens_drawn (run demo_env demo_ops (startup demo_env demo_disk)) = 1%nat)
    by (vm_compute; reflexivity).
  assert (Hc : clock_reads (run demo_env demo_ops (startup demo_env demo_disk)) = 8%nat)
    by (vm_compute; reflexivity).
  exists name. rewrite H, Ht, Hc. reflexivity.
Defined.

(** ** API tokens *)

Lemma is_ascii_app (a b : string) :
  Py.is_ascii (a +:+ b) = Py.is_ascii a && Py.is_ascii b.
Proof.
  unfold Py.is_ascii. induction a as [|c a IH]; simpl; [reflexivity|].
  rewrite IH, andb_assoc. reflexivity.
Qed.

Lemma is_ascii_take (n : nat) (s : string) :
  Py.is_ascii s = true -> Py.is_ascii (Py.take n s) = true.
Proof.
  unfold Py.is_ascii. revert s. induction n as [|n IH]; intros [|c s]; simpl; auto.
  intros H. apply andb_true_iff in H as [Hc Hs]. rewrite Hc. apply IH, Hs.
Qed.

Lemma hex_digit_ascii (x : Z) :
  (N_of_ascii (Sha256.hex_digit (Z.land x 15)) <? 128)%N = true.
Proof.
  assert (Hr : 0 <= Z.land x 15 < 16).
  { change 15 with (Z.ones 4). rewrite Z.land_ones by lia.
    apply Z.mod_pos_bound. lia. }
  unfold Sha256.hex_digit. apply N.ltb_lt.
  destruct (Z.land x 15 <? 10); rewrite N_ascii_embedding; lia.
Qed.

Lemma hex_word_ascii (x : Z) : Py.is_ascii (Sha256.hex_word x) = true.
Proof.
  unfold Py.is_ascii, Sha256.hex_word.
  rewrite list_ascii_of_string_of_list_ascii.
  apply forallb_forall. intros c Hin.
  apply in_map_iff in Hin as (i & <- & _). apply hex_digit_ascii.
Qed.

Lemma hexdigest_ascii (msg : list Z) : Py.is_ascii (Sha256.hexdigest msg) = true.
Proof.
  unfold Sha256.hexdigest.
  induction (Sha256.digest msg) as [|w ws IH]; cbn [fold_right].
  - reflexivity.
  - rewrite is_ascii_app, hex_word_ascii, IH. reflexivity.
Qed.

Lemma demo_token_ascii (name secret : string) :
  Py.is_ascii (demo_token name secret) = true.
Proof. apply is_ascii_take, hexdigest_ascii. Qed.

(** The token loop on a table of ASCII tokens. *)
Lemma validate_api_token_loop_exact (token : string) tbl :
  Forall (fun kv => Py.is_ascii (snd kv) = true) tbl ->
  if Py.is_ascii token
  then exists o, validate_api_token_loop token tbl = Returned o /\
                 (o = None <-> forall name, ~ In (name, token) tbl)
  else tbl = [] \/ validate_api_token_loop token tbl = Raised "TypeError".
Proof.
  intros Htbl. destruct (Py.is_ascii token) eqn:Ht.
  - induction Htbl as [|[u stored] tbl Hs _ IH]; simpl.
    + exists None. split; [reflexivity|]. split; [intros _ name []|reflexivity].
    + unfold compare_digest. simpl in Hs. rewrite Ht, Hs. simpl.
      destruct (String.eqb token stored) eqn:Heq.
      * apply String.eqb_eq in Heq. subst stored.
        exists (Some u). split; [reflexivity|].
        split; [discriminate|]. intros H. exfalso. apply (H u). auto.
      * apply String.eqb_neq in Heq.
        destruct IH as (o & -> & Ho). exists o. split; [reflexivity|].
        rewrite Ho. split.
        -- intros H name [[= _ Hst]|Hin]; [congruence|]. exact (H name Hin).
        -- intros H name Hin. apply (H name). auto.
  - destruct tbl as [|[u stored] tbl]; [left; reflexivity|right].
    simpl. unfold compare_digest. rewrite Ht. reflexivity.
Qed.

Lemma load_api_tokens_ascii E :
  Forall (fun kv => Py.is_ascii (snd kv) = true) (_load_api_tokens E).
Proof.
  unfold _load_api_tokens. repeat constructor; apply demo_token_ascii.
Qed.

(** X5. Whatever the secret, and in every state the process reaches, an
    API-token login with an ASCII token is answered, and it succeeds exactly
    when the token equals one of the stored tokens; containment is not
    enough. *)
Theorem api_token_check_is_exact E left ops (token : string) u :
  Py.is_ascii token = true ->
  let w := run E ops (startup E left) in
  let rq := {| method := API_TOKEN; credentials := token; username := u |} in
  exists resp,
    fst (authenticate E rq w) = Returned resp /\
    (success resp = true <-> exists name, In (name, token) (_load_api_tokens E)).
Proof.
  intros Ht w rq.
  destruct (session_inv_run E left ops) as (Ha & _ & _). fold w in Ha.
  pose proof (validate_api_token_loop_exact token _ (load_api_tokens_ascii E)) as H.
  rewrite Ht in H. destruct H as (o & Hloop & Ho).
  assert (Hm : matched_user rq w = Returned o).
  { unfold matched_user, rq. cbn [method credentials]. rewrite Ha. exact Hloop. }
  destruct o as [[|c t]|].
  - destruct (authenticate_rejected E rq w _ Hm eq_refl) as (w' & -> & _).
    eexists. split; [reflexivity|]. cbn [success]. split; [discriminate|].
    intros [name Hin]. exfalso.
    destruct (validate_api_token_loop_sound _ _ _ Hloop) as (stored & Hs & _).
    revert Hs. unfold _load_api_tokens. cbn [In].
    intros [H|[H|[H|[]]]]; discriminate H.
  - destruct (authenticate_accepted E rq w c t Hm) as (w' & -> & _).
    eexists. split; [reflexivity|]. cbn [success]. split; [intros _|reflexivity].
    destruct (validate_api_token_loop_sound _ _ _ Hloop) as (stored & Hs & ->).
    eauto.
  - destruct (authenticate_rejected E rq w _ Hm eq_refl) as (w' & -> & _).
    eexists. split; [reflexivity|]. cbn [success]. split; [discriminate|].
    intros [name Hin]. destruct Ho as [Ho _]. destruct (Ho eq_refl name Hin).
Qed.

Lemma api_token_check_is_exact_witness :
  Py.is_ascii "77c1b3d8" = true /\
  exists resp,
    fst (authenticate demo_env
           {| method := API_TOKEN; credentials := "77c1b3d8"; username := None |}
           (run demo_env demo_ops (startup demo_env demo_disk))) = Returned resp /\
    success resp = false.
Proof.
  split; [reflexivity|].
  destruct (api_token_check_is_exact demo_env demo_disk demo_ops "77c1b3d8" None eq_refl)
    as (resp & Hr & Hiff).
  exists resp. split; [exact Hr|].
  destruct (success resp); [|reflexivity].
  destruct Hiff as [Hiff _]. destruct (Hiff eq_refl) as [name Hin].
  rewrite (default_api_tokens demo_env eq_refl) in Hin.
  simpl in Hin. destruct Hin as [H|[H|[H|[]]]]; discriminate H.
Defined.

(** X6. An API token with a character outside ASCII makes
    [secrets.compare_digest] raise: in every state the process reaches the
    login handler answers 500 "Authentication failed", logs an error, and
    opens no session and no sandbox. *)
Theorem non_ascii_token_is_a_server_error E left ops (token : string) u :
  Py.is_ascii token = false ->
  let w := run E ops (startup E left) in
  let rq := {| method := API_TOKEN; credentials := token; username := u |} in
  let '(r, w') := login E rq w in
  r = HTTPException 500 "Authentication failed" /\
  active_sessions w' = active_sessions w /\
  tokens_drawn w' = tokens_drawn w /\
  sandbox_frame w w' /\
  exists e, latest_log w' = Some e /\ log_level e = error /\
            log_event e = "Authentication error".
Proof.
  intros Ht w rq.
  destruct (session_inv_run E left ops) as (Ha & _ & _). fold w in Ha.
  pose proof (validate_api_token_loop_exact token _ (load_api_tokens_ascii E)) as H.
  rewrite Ht in H. destruct H as [H|H]; [discriminate H|].
  assert (Hm : matched_user rq w = Raised "TypeError").
  { unfold matched_user, rq. cbn [method credentials]. rewrite Ha. exact H. }
  unfold login, bind, ret, logger_error.
  rewrite (authenticate_raised E rq w _ Hm), log_structured_eq. cbn.
  split; [reflexivity|]. split; [reflexivity|]. split; [reflexivity|].
  split; [repeat split|].
  eexists. unfold latest_log. cbn. rewrite trim_logs_last.
  split; [reflexivity|]. split; reflexivity.
Qed.

Lemma non_ascii_token_is_a_server_error_witness :
  let token := String (ascii_of_nat 233) "" in
  Py.is_ascii token = false /\
  fst (login demo_env
         {| method := API_TOKEN; credentials := token; username := None |}
         (run demo_env demo_ops (startup demo_env demo_disk)))
  = HTTPException 500 "Authentication failed".
Proof.
  cbv zeta. split; [reflexivity|].
  pose proof (non_ascii_token_is_a_server_error demo_env demo_disk demo_ops
                (String (ascii_of_nat 233) "") None eq_refl) as H.
  cbv zeta in H. destruct (login demo_env _ _) as [r w']. apply H.
Defined.

(** X7. Every authentication that is refused gives the same answer,
    "Invalid credentials" without a session id, whatever the method and the
    reason; it stores no session, draws no token, touches no sandbox, and
    leaves one audit entry that names the method and the username the client
    sent. *)
Theorem refused_authentication_is_uniform E rq w resp w' :
  authenticate E rq w = (Returned resp, w') -> success resp = false ->
  resp = {| success := false; session_id := None;
            message := "Invalid credentials"; expires_at := None |} /\
  active_sessions w' = active_sessions w /\
  tokens_drawn w' = tokens_drawn w /\
  sandbox_frame w w' /\
  latest_log w' = Some
    {| log_timestamp := clock E (clock_reads w); log_level := info;
       log_event := "AUDIT: authentication_failed";
       log_fields := [("session_id", VStr "none"); ("audit", VBool true);
                      ("method", VStr (AuthMethod_value (method rq)));
                      ("username", VOpt (username rq))] |}.
Proof.
  intros Ha Hs.
  assert (Hrej : forall o, matched_user rq w = Returned o -> Py.truthy o = false ->
                 resp = {| success := false; session_id := None;
                           message := "Invalid credentials"; expires_at := None |} /\
                 active_sessions w' = active_sessions w /\
                 tokens_drawn w' = tokens_drawn w /\
                 sandbox_frame w w' /\
                 latest_log w' = Some
                   {| log_timestamp := clock E (clock_reads w); log_level := info;
                      log_event := "AUDIT: authentication_failed";
                      log_fields := [("session_id", VStr "none"); ("audit", VBool true);
                                     ("method", VStr (AuthMethod_value (method rq)));
                                     ("username", VOpt (username rq))] |}).
  { intros o Hm Ho.
    destruct (authenticate_rejected E rq w o Hm Ho)
      as (v & Hv & Hf & (Hss & _ & _ & Ht) & Hlog).
    rewrite Hv in Ha. injection Ha as <- <-. split_and!; try assumption; reflexivity. }
  destruct (matched_user rq w) as [[[|c t]|]|e] eqn:Hm.
  - apply (Hrej _ eq_refl eq_refl).
  - destruct (authenticate_accepted E rq w c t Hm) as (v & Hv & _).
    rewrite Hv in Ha. injection Ha as <- _. discriminate Hs.
  - apply (Hrej _ eq_refl eq_refl).
  - rewrite (authenticate_raised E rq w e Hm) in Ha. discriminate Ha.
Qed.

Lemma refused_authentication_is_uniform_witness :
  exists resp w',
    authenticate demo_env
      {| method := SSH_KEY; credentials := "ssh-dss"; username := Some "eve" |}
      demo_world = (Returned resp, w') /\
    message resp = "Invalid credentials" /\ session_id resp = None /\
    active_sessions w' = active_sessions demo_world.
Proof.
  destruct (authenticate demo_env
              {| method := SSH_KEY; credentials := "ssh-dss"; username := Some "eve" |}
              demo_world) as [a w'] eqn:Ha.
  assert (Hf : exists resp, a = Returned resp /\ success resp = false).
  { replace a with (fst (authenticate demo_env
              {| method := SSH_KEY; credentials := "ssh-dss"; username := Some "eve" |}
              demo_world)) by (rewrite Ha; reflexivity).
    vm_compute. eauto. }
  destruct Hf as (resp & -> & Hs).
  destruct (refused_authentication_is_uniform demo_env _ demo_world resp w' Ha Hs)
    as (-> & Hsess & _).
  eexists _, w'. split; [reflexivity|]. split; [reflexivity|].
  split; [reflexivity|exact Hsess].
Defined.

(** ** Logging in and out *)

Lemma authenticate_accepted_clock E rq w c t :
  matched_user rq w = Returned (Some (String c t)) ->
  clock_reads (snd (authenticate E rq w)) = (4 + clock_reads w)%nat.
Proof.
  unfold matched_user, authenticate, _validate_ssh_key, _validate_api_token.
  run_monad. intros Hm.
  destruct (method rq); cbn in *.
  - injection Hm as ->. cbn. rewrite log_structured_eq. reflexivity.
  - rewrite Hm. cbn. rewrite log_structured_eq. reflexivity.
Qed.

Lemma mkdir_disk E p w1 w2 :
  dirs w1 = dirs w2 -> files w1 = files w2 ->
  fst (mkdir E p w1) = fst (mkdir E p w2) /\
  dirs (snd (mkdir E p w1)) = dirs (snd (mkdir E p w2)) /\
  files (snd (mkdir E p w1)) = files (snd (mkdir E p w2)).
Proof.
  intros Hd Hf. destruct w1, w2. cbn in Hd, Hf. subst.
  unfold mkdir, bind, locate, get, ret, modify. cbn.
  destruct (has_nul _); [auto|].
  destruct (negb _); [auto|].
  destruct (walk _ _ _ _); [|auto]. cbn.
  destruct (is_dir _ _); [auto|].
  destruct (bool_decide _); [auto|].
  destruct (negb _); [auto|].
  destruct (mkdir_refused E _); cbn; auto.
Qed.

Lemma bind_eq {A B} (m : M A) (k : A -> M B) w :
  bind m k w = k (fst (m w)) (snd (m w)).
Proof. unfold bind. destruct (m w). reflexivity. Qed.

(** Whether [create_sandbox] raises, and what, is decided by the disk. *)
Lemma create_sandbox_disk E sid u1 u2 w1 w2 :
  dirs w1 = dirs w2 -> files w1 = files w2 ->
  match fst (create_sandbox E sid u1 w1), fst (create_sandbox E sid u2 w2) with
  | Returned _, Returned _ => True
  | Raised e1, Raised e2 => e1 = e2
  | _, _ => False
  end.
Proof.
  unfold create_sandbox. revert w1 w2.
  assert (Hstep : forall p (k1 k2 : M (result SandboxInfo)),
    (forall w1 w2, dirs w1 = dirs w2 -> files w1 = files w2 ->
       match fst (k1 w1), fst (k2 w2) with
       | Returned _, Returned _ => True
       | Raised e1, Raised e2 => e1 = e2
       | _, _ => False
       end) ->
    forall w1 w2, dirs w1 = dirs w2 -> files w1 = files w2 ->
       match fst ((try* _ := mkdir E p in k1) w1),
             fst ((try* _ := mkdir E p in k2) w2) with
       | Returned _, Returned _ => True
       | Raised e1, Raised e2 => e1 = e2
       | _, _ => False
       end).
  { intros p k1 k2 Hk w1 w2 Hd Hf. rewrite !bind_eq.
    destruct (mkdir_disk E p w1 w2 Hd Hf) as (-> & Hd' & Hf').
    destruct (fst (mkdir E p w2)) as [[]|e]; [|reflexivity].
    apply Hk; assumption. }
  do 4 apply Hstep. intros w1 w2 _ _. run_monad.
  rewrite !log_structured_eq. exact I.
Qed.

Lemma provisioning_error_eq E sid user w w2 :
  dirs w2 = dirs w -> files w2 = files w ->
  provisioning_error E sid w =
    match fst (create_sandbox E sid user w2) with
    | Returned _ => None
    | Raised e => Some e
    end.
Proof.
  intros Hd Hf. unfold provisioning_error.
  pose proof (create_sandbox_disk E sid "" user w w2 (eq_sym Hd) (eq_sym Hf)) as H.
  destruct (fst (create_sandbox E sid "" w)), (fst (create_sandbox E sid user w2));
    congruence || contradiction.
Qed.

(** X8. A login whose credential matches leaves the session tracked for the
    matched owner, unless the 24 hours have already run out when the handler
    looks the session up again.  When the directories of the sandbox can be
    made, the answer carries the session id and a sandbox is registered
    under it: its root on disk, its environment in the name of that owner,
    its history empty.  When making them raises, the answer is 500
    "Authentication failed", the error is logged, no sandbox is registered,
    and the session stays tracked all the same. *)
Theorem login_provisions_the_sandbox E w rq c t :
  matched_user rq w = Returned (Some (String c t)) ->
  let name := String c t in
  let sid := token_urlsafe E (tokens_drawn w) in
  let n := clock_reads w in
  sid <> "" ->
  clock E (4 + n) <= clock E n + hours24 ->
  let '(r, w') := login E rq w in
  (exists s, active_sessions w' !! sid = Some s /\ s_username s = name /\
             s_expires_at s = clock E n + hours24 /\
             s_last_activity s = clock E (5 + n)) /\
  match provisioning_error E sid w with
  | None =>
      r = Ok {| success := true; session_id := Some sid;
                message := "Authenticated as " +:+ name;
                expires_at := Some (clock E n + hours24) |} /\
      (exists sb, active_sandboxes w' !! sid = Some sb /\ sb_session_id sb = sid /\
                  In ("USER", name) (environment_variables sb) /\
                  sb_working_directory sb =
                    Path.str (Path.joinpath (sandbox_dir E sid) "workspace")) /\
      command_history w' !! sid = Some [] /\
      root_exists E sid w' = true
  | Some e =>
      r = HTTPException 500 "Authentication failed" /\
      active_sandboxes w' = active_sandboxes w /\
      command_history w' = command_history w /\
      exists ts,
        latest_log w' = Some
          {| log_timestamp := ts; log_level := error;
             log_event := "Authentication error";
             log_fields := [("error", VStr e)] |}
  end.
Proof.
  intros Hm name sid n Hsid Hclock.
  pose proof (authenticate_accepted_clock E rq w c t Hm) as Hreads.
  destruct (authenticate_accepted E rq w c t Hm)
    as (w1 & Hauth & Hsess & _ & _ & _ & (Hsb1 & Hh1 & Hd1 & Hf1) & _).
  unfold login. rewrite bind_eq. rewrite bind_eq. rewrite Hauth in *.
  cbn [fst snd] in *.
  cbn [success session_id andb Py.truthy]. fold sid.
  destruct sid as [|c0 t0] eqn:Hsideq; [congruence|]. rewrite <- Hsideq in *.
  rewrite bind_eq.
  pose proof (validate_session_cases E w1 sid) as Hv.
  destruct (validate_session E sid w1) as [v w2].
  destruct Hv as (Hv & (Hsb2 & Hh2 & Hd2 & Hf2) & _). fold sid in Hsess.
  rewrite Hsess, lookup_insert_eq in Hv. cbn [s_expires_at] in Hv.
  rewrite Hreads in Hv. fold n in Hv.
  destruct (clock E n + hours24 <? clock E (4 + n)) eqn:Hexp;
    [apply Z.ltb_lt in Hexp; lia|].
  cbv zeta in Hv. destruct Hv as (-> & Hsess2 & _).
  cbn [fst snd s_username]. fold name.
  rewrite (provisioning_error_eq E sid name w w2) by congruence.
  rewrite bind_eq.
  pose proof (create_sandbox_cases E w2 sid name) as Hc.
  destruct (create_sandbox E sid name w2) as [[sb|e] w3]; cbn [fst snd].
  - destruct Hc as (_ & _ & (Hs3 & _) & _ & Hi & Hsb & Hh & _ & Hroot & _).
    unfold ret. cbn [fst snd]. split.
    { eexists. rewrite Hs3, Hsess2, lookup_insert_eq.
      split; [reflexivity|]. cbn. repeat split. }
    split; [reflexivity|]. split.
    { exists sb. rewrite Hsb, lookup_insert_eq. split; [reflexivity|].
      rewrite Hi. cbn. repeat split. auto 10. }
    split; [rewrite Hh; apply lookup_insert_eq|exact Hroot].
  - destruct Hc as (_ & _ & (Hs3 & _) & _ & Hsb & Hh & _).
    unfold ret. run_monad. rewrite log_structured_eq.
    cbn [fst snd active_sessions active_sandboxes command_history json_logs
         set_json_logs tick_clock].
    split.
    { eexists. rewrite Hs3, Hsess2, lookup_insert_eq.
      split; [reflexivity|]. cbn. repeat split. }
    split; [reflexivity|]. split; [congruence|]. split; [congruence|].
    eexists. unfold latest_log. cbn. rewrite trim_logs_last. reflexivity.
Qed.

Lemma login_provisions_the_sandbox_witness :
  let '(r, w') := login demo_env rq_devops (startup demo_env demo_disk) in
  r = Ok {| success := true; session_id := Some "session-token-0";
            message := "Authenticated as devops";
            expires_at := Some (clock demo_env 0 + hours24) |} /\
  command_history w' !! "session-token-0" = Some [] /\
  root_exists demo_env "session-token-0" w' = true.
Proof.
  assert (Hm : matched_user rq_devops (startup demo_env demo_disk)
               = Returned (Some "devops")) by (vm_compute; reflexivity).
  pose proof (login_provisions_the_sandbox demo_env (startup demo_env demo_disk)
                rq_devops _ _ Hm) as H.
  cbv zeta in H.
  assert (H1 : token_urlsafe demo_env (tokens_drawn (startup demo_env demo_disk)) <> "")
    by discriminate.
  assert (H2 : clock demo_env (4 + clock_reads (startup demo_env demo_disk))
               <= clock demo_env (clock_reads (startup demo_env demo_disk)) + hours24)
    by (vm_compute; discriminate).
  specialize (H H1 H2).
  assert (Hp : provisioning_error demo_env "session-token-0"
                 (startup demo_env demo_disk) = None) by (vm_compute; reflexivity).
  destruct (login demo_env rq_devops (startup demo_env demo_disk)) as [r w'].
  destruct H as (_ & H).
  change (token_urlsafe demo_env (tokens_drawn (startup demo_env demo_disk)))
    with "session-token-0" in H.
  rewrite Hp in H. destruct H as (Hr & _ & Hh & Hd).
  split; [exact Hr|]. split; [exact Hh|exact Hd].
Defined.

(** The other branch of X8: on a disk where the home directory of a sandbox
    cannot be made, the login is answered with 500 and the session it has
    minted stays. *)
Example login_without_a_sandbox :
  let '(r, w') := login cramped_env rq_devops (startup cramped_env demo_disk) in
  r = HTTPException 500 "Authentication failed" /\
  is_Some (active_sessions w' !! "session-token-0") /\
  active_sandboxes w' !! "session-token-0" = None /\
  root_exists cramped_env "session-token-0" w' = true /\
  fst (cleanup_sandbox cramped_env "session-token-0" w') = false.
Proof. vm_compute. split_and!; eauto. Qed.

Lemma get_current_session_untracked E w sid :
  active_sessions w !! sid = None ->
  get_current_session E sid w = (HTTPException 401 "Invalid or expired session", w).
Proof.
  intros H. unfold get_current_session, validate_session. run_monad.
  rewrite H. reflexivity.
Qed.

(** X9. The logout handler always answers 200 with the same message and tells
    in the boolean whether the session was tracked.  Afterwards the session is
    gone: every handler that asks for it answers 401.  The sandbox is
    destroyed only when the session was tracked and the removal of its root is
    not refused; otherwise the sandbox registry is as before. *)
Theorem logout_endpoint_ends_the_session E w sid rq :
  let tracked := bool_decide (is_Some (active_sessions w !! sid)) in
  let refused := removal_fails E sid w in
  let '(r, w1) := logout_endpoint E sid w in
  r = Ok (tracked, "Logged out successfully") /\
  active_sessions w1 = delete sid (active_sessions w) /\
  fst (get_current_session E sid w1)
    = HTTPException 401 "Invalid or expired session" /\
  fst (execute_command_endpoint E sid rq w1)
    = HTTPException 401 "Invalid or expired session" /\
  snd (execute_command_endpoint E sid rq w1) = w1 /\
  active_sandboxes w1 !! sid =
    (if tracked && negb refused then None else active_sandboxes w !! sid).
Proof.
  cbv zeta. unfold logout_endpoint, bind, ret.
  pose proof (logout_cases E w sid) as Hl.
  destruct (logout E sid w) as [ok w0].
  destruct Hl as (Hl & (Hsb0 & _ & Hd0 & Hf0) & _).
  assert (Hgone : forall v, active_sessions v = delete sid (active_sessions w) ->
            fst (get_current_session E sid v)
              = HTTPException 401 "Invalid or expired session" /\
            fst (execute_command_endpoint E sid rq v)
              = HTTPException 401 "Invalid or expired session" /\
            snd (execute_command_endpoint E sid rq v) = v).
  { intros v Hv.
    assert (Hn : active_sessions v !! sid = None)
      by (rewrite Hv; apply lookup_delete_eq).
    unfold execute_command_endpoint, bind, ret.
    rewrite (get_current_session_untracked E v sid Hn). repeat split. }
  destruct (active_sessions w !! sid) as [s|] eqn:Hs.
  - destruct Hl as (-> & Hdel & _).
    rewrite bool_decide_eq_true_2 by eauto.
    pose proof (cleanup_sandbox_cases E w0 sid) as Hc.
    destruct (cleanup_sandbox E sid w0) as [b w1].
    destruct Hc as (Hc & (Hs1 & _) & _). rewrite Hs1, Hdel.
    split; [reflexivity|]. split; [reflexivity|].
    destruct (Hgone w1) as (H1 & H2 & H3); [congruence|].
    split; [exact H1|]. split; [exact H2|]. split; [exact H3|].
    rewrite Hsb0, (removal_fails_disk E sid w0 w Hd0 Hf0) in Hc. cbn [andb].
    destruct (active_sandboxes w !! sid) as [sb|] eqn:Hsb.
    + destruct (removal_fails E sid w); cbn [negb].
      * destruct Hc as (_ & Hx & _). rewrite Hx. exact Hsb.
      * destruct Hc as (_ & _ & Hx & _). rewrite Hx. apply lookup_delete_eq.
    + destruct Hc as [_ ->]. rewrite Hsb0, Hsb.
      destruct (negb _); reflexivity.
  - destruct Hl as [-> ->].
    assert (Hno : bool_decide (is_Some (@None Session)) = false).
    { apply bool_decide_eq_false_2. intros [? ?]. discriminate. }
    rewrite Hno. cbn [andb].
    assert (Hd : active_sessions w = delete sid (active_sessions w))
      by (symmetry; apply delete_id; exact Hs).
    split; [reflexivity|]. split; [exact Hd|].
    destruct (Hgone w Hd) as (H1 & H2 & H3). repeat split; assumption.
Qed.

(** X10. Lazy expiry forgets the session but not its sandbox.  When a request
    finds a tracked session expired, the answer is 401 and the session is
    dropped, while the sandbox stays registered with its root on disk; a
    logout that follows reports false and destroys nothing. *)
Theorem expired_session_leaves_its_sandbox_behind E w sid s sb :
  active_sessions w !! sid = Some s ->
  s_expires_at s < clock E (clock_reads w) ->
  active_sandboxes w !! sid = Some sb ->
  root_exists E sid w = true ->
  let '(r1, w1) := get_current_session E sid w in
  let '(r2, w2) := logout_endpoint E sid w1 in
  r1 = HTTPException 401 "Invalid or expired session" /\
  active_sessions w1 !! sid = None /\
  r2 = Ok (false, "Logged out successfully") /\
  active_sandboxes w2 !! sid = Some sb /\
  command_history w2 !! sid = command_history w !! sid /\
  root_exists E sid w2 = true.
Proof.
  intros Hs Hexp Hsb Hd.
  unfold get_current_session, bind, ret.
  pose proof (validate_session_cases E w sid) as Hv.
  destruct (validate_session E sid w) as [v w1].
  rewrite Hs in Hv. apply Z.ltb_lt in Hexp. rewrite Hexp in Hv.
  destruct Hv as ((-> & Hs1 & _) & (Hsb1 & Hh1 & Hd1 & Hf1) & _).
  assert (Hn : active_sessions w1 !! sid = None)
    by (rewrite Hs1; apply lookup_delete_eq).
  unfold logout_endpoint, bind, ret.
  pose proof (logout_cases E w1 sid) as Hl.
  destruct (logout E sid w1) as [ok w2].
  rewrite Hn in Hl. destruct Hl as ([-> ->] & _).
  split; [reflexivity|]. split; [exact Hn|]. split; [reflexivity|].
  rewrite Hsb1, Hh1, (root_exists_disk E sid w1 w Hd1 Hf1).
  repeat split; assumption.
Qed.

Lemma expired_session_leaves_its_sandbox_behind_witness :
  let sid := "session-token-0" in
  let w := run late_env demo_ops (startup late_env demo_disk) in
  is_Some (active_sessions w !! sid) /\
  let '(r1, w1) := get_current_session late_env sid w in
  let '(r2, w2) := logout_endpoint late_env sid w1 in
  r1 = HTTPException 401 "Invalid or expired session" /\
  r2 = Ok (false, "Logged out successfully") /\
  is_Some (active_sandboxes w2 !! sid) /\ root_exists late_env sid w2 = true.
Proof.
  cbv zeta.
  destruct (active_sessions (run late_env demo_ops (startup late_env demo_disk))
              !! "session-token-0") as [s|] eqn:Hs;
    [|vm_compute in Hs; discriminate Hs].
  destruct (active_sandboxes (run late_env demo_ops (startup late_env demo_disk))
              !! "session-token-0") as [sb|] eqn:Hsb;
    [|vm_compute in Hsb; discriminate Hsb].
  split; [eauto|].
  assert (Hexp : s_expires_at s
                 < clock late_env (clock_reads (run late_env demo_ops (startup late_env demo_disk)))).
  { assert (He : s_expires_at s = 1700086400000000).
    { vm_compute in Hs. injection Hs as <-. reflexivity. }
    rewrite He. vm_compute. reflexivity. }
  assert (Hd : root_exists late_env "session-token-0"
                 (run late_env demo_ops (startup late_env demo_disk)) = true)
    by (vm_compute; reflexivity).
  pose proof (expired_session_leaves_its_sandbox_behind late_env _
                "session-token-0" s sb Hs Hexp Hsb Hd) as H.
  destruct (get_current_session late_env "session-token-0" _) as [r1 w1].
  destruct (logout_endpoint late_env "session-token-0" w1) as [r2 w2].
  destruct H as (H1 & _ & H2 & H3 & _ & H4).
  split; [exact H1|]. split; [exact H2|]. split; [eauto|exact H4].
Defined.

(** X11. The sweep of [get_active_sessions] returns, and leaves tracked,
    exactly the sessions whose expiry is not before the instant of the call;
    nothing else in the state changes but the clock. *)
Theorem get_active_sessions_keeps_the_unexpired E w :
  let now := clock E (clock_reads w) in
  let '(m, w') := get_active_sessions E w in
  m = active_sessions w' /\
  (forall sid s,
     m !! sid = Some s <-> active_sessions w !! sid = Some s /\ now <= s_expires_at s) /\
  sandbox_frame w w' /\ json_logs w' = json_logs w /\
  tokens_drawn w' = tokens_drawn w.
Proof.
  cbv zeta. pose proof (get_active_sessions_effect E w) as He.
  pose proof (get_active_sessions_frame E w) as Hf.
  assert (Hl : json_logs (snd (get_active_sessions E w)) = json_logs w).
  { unfold get_active_sessions. run_monad. reflexivity. }
  destruct (get_active_sessions E w) as [m w']. cbn [snd] in *.
  destruct He as [-> He]. destruct Hf as (Hf & Ht & _).
  split; [reflexivity|]. split; [|split; [exact Hf|split; [exact Hl|exact Ht]]].
  intros sid s. rewrite He, map_lookup_filter_Some. cbn [snd].
  rewrite negb_true_iff, Z.ltb_ge. reflexivity.
Qed.

(** ** Sandboxes side by side *)

(** X12. Provisioning either raises or starts afresh.  When one of its four
    directories cannot be made it raises with the registry, the histories and
    the log as they were.  When it returns, whatever sandbox and history the
    id had before, [get_sandbox] returns the new sandbox, the history of the
    id is empty and its root is on disk.  Either way no directory goes, no
    file is touched and no session changes. *)
Theorem create_sandbox_starts_afresh E w sid user limit :
  let '(r, w') := create_sandbox E sid user w in
  dirs w ⊆ dirs w' /\ files w' = files w /\
  active_sessions w' = active_sessions w /\
  match r with
  | Returned sb =>
      fst (get_sandbox sid w') = Some sb /\
      sb_session_id sb = sid /\
      In ("USER", user) (environment_variables sb) /\
      available_tools sb = Config.AVAILABLE_TOOLS (cfg E) /\
      fst (get_command_history sid limit w') = [] /\
      root_exists E sid w' = true
  | Raised _ =>
      active_sandboxes w' = active_sandboxes w /\
      command_history w' = command_history w /\
      json_logs w' = json_logs w
  end.
Proof.
  pose proof (create_sandbox_cases E w sid user) as Hc.
  destruct (create_sandbox E sid user w) as [[sb|e] w'].
  - destruct Hc as (Hd & Hf & (Hs & _) & _ & Hi & Hsb & Hh & _ & Hroot & _).
    split; [exact Hd|]. split; [exact Hf|]. split; [exact Hs|].
    unfold get_sandbox, get_command_history, get, bind, ret. cbn [fst].
    rewrite Hsb, Hh, !lookup_insert_eq.
    split; [reflexivity|].
    split; [rewrite Hi; reflexivity|].
    split; [rewrite Hi; cbn; auto 10|].
    split; [rewrite Hi; reflexivity|].
    split; [|exact Hroot].
    destruct (0 <? limit); [|reflexivity].
    unfold slice_from. destruct (_ <? 0); apply drop_nil.
  - destruct Hc as (Hd & Hf & (Hs & _) & _ & Hsb & Hh & Hl & _).
    split_and!; assumption.
Qed.

(** *** Plain names *)

Lemma split_sep_plain (s cur : string) :
  forallb (fun c => negb (Ascii.eqb c "/") && negb (Ascii.eqb Ascii.zero c))
          (list_ascii_of_string s) = true ->
  Path.split_sep s cur = [Py.rev cur +:+ s].
Proof.
  revert cur. induction s as [|c s IH]; intros cur H; simpl in *.
  - rewrite append_nil_r. reflexivity.
  - apply andb_true_iff in H as [Hc Hs]. apply andb_true_iff in Hc as [Hc _].
    apply negb_true_iff in Hc. rewrite Hc, (IH _ Hs).
    unfold Py.rev. simpl. rewrite (rev_onto_app cur (String c "")).
    rewrite append_assoc. reflexivity.
Qed.

(** A plain name is one relative path of one name. *)
Lemma parse_plain (s : string) :
  plain_name s = true ->
  Path.parse s = {| Path.root := ""; Path.parts := [s] |} /\ s <> "..".
Proof.
  unfold plain_name. intros H.
  apply andb_true_iff in H as [H Hall]. apply andb_true_iff in H as [H Hdd].
  apply andb_true_iff in H as [He Hd].
  split; [|intros ->; discriminate].
  unfold Path.parse, Path.splitroot.
  destruct s as [|c s]; [discriminate|].
  pose proof Hall as Hall'. simpl in Hall'.
  apply andb_true_iff in Hall' as [Hc _]. apply andb_true_iff in Hc as [Hc _].
  apply negb_true_iff in Hc. rewrite Hc.
  rewrite (split_sep_plain _ "" Hall). cbn [Py.rev Py.rev_onto List.filter].
  change ("" +:+ String c s) with (String c s).
  rewrite He, Hd. reflexivity.
Qed.

(** The root of a plain session id lies right below SANDBOX_ROOT. *)
Lemma root_place_plain E (sid : string) :
  plain_name sid = true ->
  root_place E sid = place_of E (SANDBOX_ROOT E) ++ [sid].
Proof.
  intros H. destruct (parse_plain sid H) as [Hp Hdd].
  unfold root_place, sandbox_dir. rewrite (place_of_child E _ sid Hp).
  unfold enter. apply String.eqb_neq in Hdd. rewrite Hdd. reflexivity.
Qed.

Lemma sibling_not_below (R : list string) (a b : string) q :
  a <> b -> below (R ++ [a]) q = true -> below (R ++ [b]) q = false.
Proof.
  intros Hne Ha. unfold below in *. apply bool_decide_eq_true in Ha.
  apply bool_decide_eq_false. intros Hb.
  destruct Ha as [k1 ->]. destruct Hb as [k2 Hb].
  rewrite <- !app_assoc in Hb. apply app_inv_head in Hb.
  simpl in Hb. congruence.
Qed.

(** X13. The three calls that change the sandbox side of the state change it
    for their own session id only: the sandbox and the history of any other
    id are as before, and when both ids are plain names, so is everything on
    disk at or below the root of the other. *)
Theorem sandbox_calls_touch_one_session_only E w sid other user rq :
  other <> sid ->
  let same (w' : World) :=
    active_sandboxes w' !! other = active_sandboxes w !! other /\
    command_history w' !! other = command_history w !! other /\
    (plain_name sid = true -> plain_name other = true ->
     forall q, below (root_place E other) q = true ->
       (q ∈ dirs w' <-> q ∈ dirs w) /\ (q ∈ files w' <-> q ∈ files w)) in
  same (snd (create_sandbox E sid user w)) /\
  same (snd (execute_command E sid rq w)) /\
  same (snd (cleanup_sandbox E sid w)).
Proof.
  intros Hne same. subst same. cbv beta.
  assert (Hsib : plain_name sid = true -> plain_name other = true ->
            forall q, below (root_place E other) q = true ->
                      below (root_place E sid) q = false).
  { intros Hp Hpo q. rewrite (root_place_plain E sid Hp), (root_place_plain E other Hpo).
    apply sibling_not_below. exact Hne. }
  split; [|split].
  - pose proof (create_sandbox_cases E w sid user) as Hc.
    destruct (create_sandbox E sid user w) as [r w']. cbn [snd].
    destruct Hc as (Hd & Hf & _ & Hnew & Hc).
    assert (Hreg : active_sandboxes w' !! other = active_sandboxes w !! other /\
                   command_history w' !! other = command_history w !! other).
    { destruct r as [sb|e].
      - destruct Hc as (_ & -> & -> & _).
        rewrite !lookup_insert_ne by congruence. split; reflexivity.
      - destruct Hc as (-> & -> & _). split; reflexivity. }
    destruct Hreg as [H1 H2]. split; [exact H1|]. split; [exact H2|].
    intros Hp Hpo q Hq. rewrite Hf. split; [|reflexivity].
    split; [|apply Hd].
    intros Hin. apply Hnew in Hin as [Hin|[->|(name & _ & ->)]]; [exact Hin| |].
    + pose proof (below_refl (root_place E sid)) as Hr.
      rewrite (Hsib Hp Hpo _ Hq) in Hr. discriminate.
    + pose proof (below_child (root_place E sid) name) as Hr.
      rewrite (Hsib Hp Hpo _ Hq) in Hr. discriminate.
  - destruct (execute_command_sandbox_side E w sid rq) as (Hs & Hd & Hf).
    cbv zeta in Hs, Hd, Hf. rewrite Hs, Hd, Hf.
    split; [reflexivity|]. split; [|intros; split; reflexivity].
    destruct (active_sandboxes w !! sid) as [sb|] eqn:Hsb.
    + destruct (_is_command_safe E (command rq)) as [[|] msg] eqn:Hsafe.
      * pose proof (execute_command_accepted E w sid rq sb msg Hsb Hsafe) as H.
        destruct (execute_command E sid rq w) as [r w']. cbn [snd].
        destruct H as (_ & _ & _ & -> & _).
        destruct (command_history w !! sid); [|reflexivity].
        apply lookup_insert_ne. congruence.
      * pose proof (execute_command_rejected E w sid rq sb msg Hsb Hsafe) as H.
        destruct (execute_command E sid rq w) as [r w']. cbn [snd].
        destruct H as (_ & _ & _ & _ & -> & _). reflexivity.
    + pose proof (execute_command_no_sandbox E w sid rq Hsb) as H.
      destruct (execute_command E sid rq w) as [r w']. cbn [snd].
      destruct H as (_ & _ & _ & -> & _). reflexivity.
  - pose proof (cleanup_sandbox_cases E w sid) as H.
    destruct (cleanup_sandbox E sid w) as [r w']. cbn [snd].
    destruct H as (H & _ & Hd & Hf & Hout).
    assert (Hreg : active_sandboxes w' !! other = active_sandboxes w !! other /\
                   command_history w' !! other = command_history w !! other).
    { destruct (active_sandboxes w !! sid) as [sb|].
      - destruct (removal_fails E sid w).
        + destruct H as (_ & -> & -> & _). split; reflexivity.
        + destruct H as (_ & _ & -> & -> & _).
          rewrite !lookup_delete_ne by congruence. split; reflexivity.
      - destruct H as [_ ->]. split; reflexivity. }
    destruct Hreg as [H1 H2]. split; [exact H1|]. split; [exact H2|].
    intros Hp Hpo q Hq. destruct (Hout q (Hsib Hp Hpo q Hq)) as [Hq1 Hq2].
    split; split; auto.
Qed.

Lemma sandbox_calls_touch_one_session_only_witness :
  let w := snd (create_sandbox demo_env "other" "user" demo_world) in
  let w' := snd (cleanup_sandbox demo_env "session-token-0" w) in
  "other" <> "session-token-0" /\
  active_sandboxes w' !! "other" = active_sandboxes w !! "other" /\
  root_place demo_env "other" = ["srv"; "sandbox"; "other"] /\
  (["srv"; "sandbox"; "other"; "workspace"] ∈ dirs w' <->
   ["srv"; "sandbox"; "other"; "workspace"] ∈ dirs w).
Proof.
  cbv zeta. split; [discriminate|].
  destruct (sandbox_calls_touch_one_session_only demo_env
              (snd (create_sandbox demo_env "other" "user" demo_world))
              "session-token-0" "other" "nobody"
              (request "git" ["pull"] "session-token-0"))
    as (_ & _ & (H1 & _ & H3)); [discriminate|].
  split; [exact H1|]. split; [vm_compute; reflexivity|].
  assert (Hp1 : plain_name "session-token-0" = true) by (vm_compute; reflexivity).
  assert (Hp2 : plain_name "other" = true) by (vm_compute; reflexivity).
  assert (Hb : below (root_place demo_env "other")
                 ["srv"; "sandbox"; "other"; "workspace"] = true)
    by (vm_compute; reflexivity).
  destruct (H3 Hp1 Hp2 _ Hb) as [Hd _]. exact Hd.
Defined.

(** ** The execute handler *)

(** X14. The execute handler runs nothing for a session that is not valid or
    for a body that names another session: an id that is not tracked gets 401
    and leaves the state as it is; an expired session gets 401; a body whose
    session id differs from the id of the query gets 400, with the sandbox
    side and the log untouched.  A valid session without a sandbox gets a 200
    whose result is failed, "No sandbox found for session", exit code 1. *)
Theorem execute_endpoint_guards E w sid rq :
  let '(r, w') := execute_command_endpoint E sid rq w in
  match active_sessions w !! sid with
  | None => r = HTTPException 401 "Invalid or expired session" /\ w' = w
  | Some s =>
      if s_expires_at s <? clock E (clock_reads w)
      then r = HTTPException 401 "Invalid or expired session" /\
           active_sessions w' !! sid = None /\ sandbox_frame w w'
      else if negb (String.eqb (rq_session_id rq) sid)
      then r = HTTPException 400 "Session ID mismatch" /\
           sandbox_frame w w' /\ json_logs w' = json_logs w
      else
        match active_sandboxes w !! sid with
        | None =>
            exists resp, r = Ok resp /\ status resp = FAILED /\
              stderr resp = "No sandbox found for session" /\
              exit_code resp = Some 1 /\
              sandbox_frame w w' /\ json_logs w' = json_logs w
        | Some _ =>
            exists resp, r = Ok resp /\
              (status resp = COMPLETED <->
               fst (_is_command_safe E (command rq)) = true)
        end
  end.
Proof.
  unfold execute_command_endpoint, get_current_session, bind, ret.
  pose proof (validate_session_cases E w sid) as Hv.
  destruct (validate_session E sid w) as [v w1].
  destruct Hv as (Hv & Hf & _).
  destruct (active_sessions w !! sid) as [s|] eqn:Hs.
  2:{ destruct Hv as [-> ->]. split; reflexivity. }
  destruct (s_expires_at s <? clock E (clock_reads w)).
  { destruct Hv as (-> & Hd & _). split; [reflexivity|].
    split; [rewrite Hd; apply lookup_delete_eq|exact Hf]. }
  cbv zeta in Hv. destruct Hv as (-> & _ & Hlogs).
  destruct (negb (String.eqb (rq_session_id rq) sid)).
  { split; [reflexivity|]. split; [exact Hf|exact Hlogs]. }
  destruct Hf as (Hsb & Hh & Hd & Hfl).
  destruct (active_sandboxes w !! sid) as [sb|] eqn:Hsbw.
  - rewrite <- Hsb in Hsbw.
    destruct (_is_command_safe E (command rq)) as [[|] msg] eqn:Hsafe.
    + pose proof (execute_command_accepted E w1 sid rq sb msg Hsbw Hsafe) as H.
      destruct (execute_command E sid rq w1) as [r w']. destruct H as (Hst & _).
      exists r. split; [reflexivity|]. rewrite Hst. split; reflexivity.
    + pose proof (execute_command_rejected E w1 sid rq sb msg Hsbw Hsafe) as H.
      destruct (execute_command E sid rq w1) as [r w']. destruct H as (Hst & _).
      exists r. split; [reflexivity|]. rewrite Hst. split; discriminate.
  - rewrite <- Hsb in Hsbw.
    pose proof (execute_command_no_sandbox E w1 sid rq Hsbw) as H.
    pose proof (execute_command_sandbox_side E w1 sid rq) as Hside.
    destruct (execute_command E sid rq w1) as [r w']. cbn [snd] in Hside.
    destruct H as (Hst & Herr & Hx & Hh' & Hl').
    destruct Hside as (Hs' & Hd' & Hfl').
    exists r. split; [reflexivity|]. split; [exact Hst|]. split; [exact Herr|].
    split; [exact Hx|]. split; [|congruence].
    unfold sandbox_frame. split_and!; congruence.
Qed.

(** ** The handlers behind a session *)

(** X15. The two admin handlers answer 401 without a valid session and 403
    unless the session's owner is called admin or root; only then do they
    return the sessions or the log.  A refusal changes nothing on the sandbox
    side or in the log. *)
Theorem admin_handlers_ask_for_admin_or_root E w sid limit :
  let '(r1, w1) := get_logs E sid limit w in
  let '(r2, w2) := get_active_sessions_endpoint E sid w in
  match active_sessions w !! sid with
  | None =>
      r1 = HTTPException 401 "Invalid or expired session" /\ w1 = w /\
      r2 = HTTPException 401 "Invalid or expired session" /\ w2 = w
  | Some s =>
      if s_expires_at s <? clock E (clock_reads w)
      then r1 = HTTPException 401 "Invalid or expired session" /\
           r2 = HTTPException 401 "Invalid or expired session"
      else if String.eqb (s_username s) "admin" || String.eqb (s_username s) "root"
      then (exists logs, r1 = Ok logs /\ suffix logs (json_logs w)) /\
           (exists m, r2 = Ok m /\ m = active_sessions w2)
      else r1 = HTTPException 403 "Admin access required" /\
           r2 = HTTPException 403 "Admin access required" /\
           sandbox_frame w w1 /\ json_logs w1 = json_logs w /\
           sandbox_frame w w2 /\ json_logs w2 = json_logs w
  end.
Proof.
  unfold get_logs, get_active_sessions_endpoint, get_current_session, bind, ret.
  pose proof (validate_session_cases E w sid) as Hv.
  destruct (validate_session E sid w) as [v w0].
  destruct Hv as (Hv & Hf & _).
  destruct (active_sessions w !! sid) as [s|] eqn:Hs.
  2:{ destruct Hv as [-> ->]. repeat split. }
  destruct (s_expires_at s <? clock E (clock_reads w)).
  { destruct Hv as (-> & _). split; reflexivity. }
  cbv zeta in Hv. destruct Hv as (-> & _ & Hlogs). cbn [s_username].
  unfold Py.mem. cbn [existsb]. rewrite orb_false_r.
  destruct (String.eqb (s_username s) "admin" || String.eqb (s_username s) "root");
    cbn [negb].
  - split.
    + unfold get_recent_logs, get. eexists. split; [reflexivity|].
      rewrite Hlogs. destruct (0 <? limit); [|reflexivity].
      unfold slice_from. destruct (_ <? 0); apply suffix_drop.
    + pose proof (get_active_sessions_effect E w0) as He.
      destruct (get_active_sessions E w0) as [m w2]. destruct He as [-> _].
      eexists. split; reflexivity.
  - split; [reflexivity|]. split; [reflexivity|].
    split; [exact Hf|]. split; [exact Hlogs|]. split; [exact Hf|exact Hlogs].
Qed.

(** X16. The session summary counts through [get_command_history] with its
    default limit: [commands_executed] is the stored history length capped at
    50, never more, although the history keeps up to 100 results.  The
    summary carries the registered sandbox and the owner of the session. *)
Theorem session_info_counts_at_most_50 E w sid si w' :
  get_session_info E sid w = (Ok si, w') ->
  exists s sb h,
    active_sessions w !! sid = Some s /\
    active_sandboxes w !! sid = Some sb /\
    default [] (command_history w !! sid) = h /\
    commands_executed si = Z.of_nat (Nat.min 50 (length h)) /\
    commands_executed si <= 50 /\
    sandbox_info si = sb /\ si_session_id si = sid /\
    si_username si = s_username s /\
    si_last_activity si = clock E (S (clock_reads w)).
Proof.
  unfold get_session_info, get_current_session, get_sandbox,
    get_command_history, bind, ret, get.
  pose proof (validate_session_cases E w sid) as Hv.
  destruct (validate_session E sid w) as [v w0].
  destruct Hv as (Hv & (Hsb & Hh & _) & _).
  destruct (active_sessions w !! sid) as [s|] eqn:Hs.
  2:{ destruct Hv as [-> ->]. discriminate. }
  destruct (s_expires_at s <? clock E (clock_reads w)).
  { destruct Hv as (-> & _). discriminate. }
  cbv zeta in Hv. destruct Hv as (-> & _). cbn.
  rewrite Hsb. destruct (active_sandboxes w !! sid) as [sb|]; [|discriminate].
  cbn. rewrite Hh.
  assert (Hlen : forall h : list CommandResponse,
            length (slice_from (- (50)) h) = Nat.min 50 (length h)).
  { intros h. rewrite (slice_from_neg 50) by lia. apply lastn_length. }
  destruct (command_history w !! sid) as [h|]; cbn [default].
  - change (0 <? 50) with true. cbv iota. intros [= <- <-].
    exists s, sb, h. cbn. rewrite Hlen. split_and!; try reflexivity. lia.
  - intros [= <- <-]. exists s, sb, []. cbn. split_and!; try reflexivity. lia.
Qed.

Lemma session_info_counts_at_most_50_witness :
  let sid := "session-token-0" in
  let w := run demo_env (repeat (OpExecute sid (request "git" ["pull"] sid)) 60)
             demo_world in
  length (default [] (command_history w !! sid)) = 60%nat /\
  exists si, fst (get_session_info demo_env sid w) = Ok si /\
             commands_executed si = 50.
Proof.
  cbv zeta. split; [vm_compute; reflexivity|].
  destruct (get_session_info demo_env "session-token-0" _) as [r w'] eqn:Hg.
  assert (Hok : exists si, r = Ok si).
  { replace r with (fst (get_session_info demo_env "session-token-0"
      (run demo_env (repeat (OpExecute "session-token-0"
         (request "git" ["pull"] "session-token-0")) 60) demo_world)))
      by (rewrite Hg; reflexivity).
    vm_compute. eauto. }
  destruct Hok as [si ->]. exists si. split; [reflexivity|].
  destruct (session_info_counts_at_most_50 demo_env _ _ si w' Hg)
    as (s & sb & h & _ & _ & Hh & Hc & _).
  rewrite Hc, <- Hh.
  replace (length (default [] (command_history
             (run demo_env (repeat (OpExecute "session-token-0"
                (request "git" ["pull"] "session-token-0")) 60) demo_world)
             !! "session-token-0"))) with 60%nat by (vm_compute; reflexivity).
  reflexivity.
Defined.

(** ** Registered sandboxes *)

Lemma sandbox_inv_step E o w : sandbox_inv E w -> sandbox_inv E (exec_op E o w).
Proof.
  intros Hinv. pose proof (exec_op_sandbox_frame E o w) as Hf.
  destruct o as [rq|sid|sid| |sid user|sid rq|sid limit|sid|level event kwargs];
    try (destruct Hf as (Hs & _); unfold sandbox_inv; rewrite Hs; exact Hinv);
    unfold exec_op, sandbox_inv in *.
  - pose proof (create_sandbox_cases E w sid user) as Hc.
    destruct (create_sandbox E sid user w) as [[sb|e] w'];
      cbn [fst snd] in *; destruct Hc as (_ & _ & _ & _ & Hc).
    + destruct Hc as (Hi & -> & _).
      intros sid' sb' Hl. destruct (decide (sid = sid')) as [<-|Hne].
      * rewrite lookup_insert_eq in Hl. injection Hl as <-. rewrite Hi. cbn.
        split; reflexivity.
      * rewrite lookup_insert_ne in Hl by exact Hne. exact (Hinv sid' sb' Hl).
    + destruct Hc as (-> & _). exact Hinv.
  - destruct (execute_command_sandbox_side E w sid rq) as (-> & _). exact Hinv.
  - pose proof (cleanup_sandbox_cases E w sid) as H.
    destruct (cleanup_sandbox E sid w) as [r w']. cbn [snd]. destruct H as [H _].
    destruct (active_sandboxes w !! sid) as [sb|].
    + destruct (removal_fails E sid w).
      * destruct H as (_ & -> & _). exact Hinv.
      * destruct H as (_ & _ & -> & _).
        intros sid' sb' Hl. apply lookup_delete_Some in Hl as [Hne Hl].
        exact (Hinv sid' sb' Hl).
    + destruct H as [_ ->]. exact Hinv.
Qed.

Lemma sandbox_inv_run E left ops : sandbox_inv E (run E ops (startup E left)).
Proof.
  assert (H : forall w, sandbox_inv E w -> sandbox_inv E (run E ops w)).
  { induction ops as [|o ops IH]; intros w Hw; simpl; [exact Hw|].
    apply IH, sandbox_inv_step, Hw. }
  apply H. intros sid sb Hl.
  destruct (startup_state E left) as (_ & _ & _ & Hs & _).
  rewrite Hs, lookup_empty in Hl. discriminate.
Qed.

Lemma plain_root_not_below E (sid other : string) :
  plain_name sid = true -> plain_name other = true -> other <> sid ->
  below (root_place E sid) (root_place E other) = false.
Proof.
  intros Hp Hpo Hne. rewrite (root_place_plain E sid Hp).
  apply (sibling_not_below _ other sid _ Hne).
  rewrite (root_place_plain E other Hpo). apply below_refl.
Qed.

Lemma roots_inv_step E o w :
  plain_op o = true -> roots_inv E w -> roots_inv E (exec_op E o w).
Proof.
  intros Hplain Hinv. pose proof (exec_op_sandbox_frame E o w) as Hf.
  destruct o as [rq|sid|sid| |sid user|sid rq|sid limit|sid|level event kwargs];
    try (destruct Hf as (Hs & _ & Hd & _); unfold roots_inv;
         rewrite Hs, Hd; exact Hinv);
    unfold exec_op, roots_inv in *; cbn [plain_op] in Hplain.
  - pose proof (create_sandbox_cases E w sid user) as Hc.
    destruct (create_sandbox E sid user w) as [[sb|e] w'];
      cbn [fst snd] in *; destruct Hc as (Hd & _ & _ & _ & Hc).
    + destruct Hc as (_ & Hs & _ & Hdir & _).
      intros sid' Hl. rewrite Hs in Hl.
      destruct (decide (sid = sid')) as [<-|Hne].
      * split; [exact Hplain|].
        rewrite (root_place_plain E sid Hplain) in *.
        destruct (place_of E (SANDBOX_ROOT E) ++ [sid]) eqn:Hpl.
        { apply app_eq_nil in Hpl as [_ Hpl]. discriminate. }
        cbn in Hdir. apply bool_decide_eq_true in Hdir. exact Hdir.
      * rewrite lookup_insert_ne in Hl by exact Hne.
        destruct (Hinv sid' Hl) as [Hp Hin]. split; [exact Hp|]. apply Hd, Hin.
    + destruct Hc as (Hs & _). intros sid' Hl. rewrite Hs in Hl.
      destruct (Hinv sid' Hl) as [Hp Hin]. split; [exact Hp|]. apply Hd, Hin.
  - destruct (execute_command_sandbox_side E w sid rq) as (-> & -> & _). exact Hinv.
  - pose proof (cleanup_sandbox_cases E w sid) as H.
    destruct (cleanup_sandbox E sid w) as [r w']. cbn [snd].
    destruct H as (H & _ & _ & _ & Hout).
    destruct (active_sandboxes w !! sid) as [sb|] eqn:Hsb.
    + destruct (removal_fails E sid w).
      * destruct H as (_ & Hs & _ & Hstay & _).
        intros sid' Hl. rewrite Hs in Hl.
        destruct (Hinv sid' Hl) as [Hp Hin]. split; [exact Hp|].
        apply Hstay; [|exact Hin].
        destruct (decide (sid' = sid)) as [->|Hne];
          [apply strictly_below_irrefl|].
        unfold strictly_below.
        rewrite (plain_root_not_below E sid sid' Hplain Hp Hne). reflexivity.
      * destruct H as (_ & _ & Hs & _).
        intros sid' Hl. rewrite Hs in Hl.
        apply lookup_delete_is_Some in Hl as [Hne Hl].
        destruct (Hinv sid' Hl) as [Hp Hin]. split; [exact Hp|].
        apply Hout; [|exact Hin].
        apply plain_root_not_below; auto.
    + destruct H as [_ ->]. exact Hinv.
Qed.

Lemma roots_inv_run E left ops :
  forallb plain_op ops = true -> roots_inv E (run E ops (startup E left)).
Proof.
  assert (H : forall w, forallb plain_op ops = true -> roots_inv E w ->
                        roots_inv E (run E ops w)).
  { induction ops as [|o ops IH]; intros w Hp Hw; simpl; [exact Hw|].
    simpl in Hp. apply andb_true_iff in Hp as [Ho Hp].
    apply IH; [exact Hp|]. apply roots_inv_step; assumption. }
  intros Hp. apply H; [exact Hp|]. intros sid Hl.
  destruct (startup_state E left) as (_ & _ & _ & Hs & _).
  rewrite Hs, lookup_empty in Hl. destruct Hl as [? Hl]. discriminate.
Qed.

(** X17. In every state the process reaches, a registered sandbox is filed
    under its own session id, works in the workspace below its own root and
    has a history; so [get_sandbox_info] never hands a session the sandbox
    of another.  When the sandbox manager has been called with plain names
    only, as it is with minted session ids, the root of every registered
    sandbox is a directory on disk, right below SANDBOX_ROOT. *)
Theorem registered_sandboxes_are_well_filed E left ops sid sb :
  let w := run E ops (startup E left) in
  active_sandboxes w !! sid = Some sb ->
  sb_session_id sb = sid /\
  sb_working_directory sb =
    Path.str (Path.joinpath (sandbox_dir E sid) "workspace") /\
  is_Some (command_history w !! sid) /\
  (forall r w', get_sandbox_info E sid w = (Ok r, w') -> sb_session_id r = sid) /\
  (forallb plain_op ops = true ->
   root_place E sid = place_of E (SANDBOX_ROOT E) ++ [sid] /\
   root_place E sid ∈ dirs w).
Proof.
  intros w Hsb.
  destruct (sandbox_inv_run E left ops sid sb Hsb) as (H1 & H2).
  destruct (ring_inv_run E ops (startup E left) ∅ (ring_inv_startup E left))
    as [Hdom _]. fold w in Hdom.
  split; [exact H1|]. split; [exact H2|].
  split.
  { apply elem_of_dom. rewrite <- Hdom. apply elem_of_dom. eauto. }
  split.
  - intros r w'. unfold get_sandbox_info, get_current_session, get_sandbox,
      bind, ret, get.
    pose proof (validate_session_cases E w sid) as Hv.
    destruct (validate_session E sid w) as [v w0].
    destruct Hv as (_ & (Hs0 & _) & _).
    destruct v as [s|]; cbn; [|discriminate].
    rewrite Hs0, Hsb. intros [= <- _]. exact H1.
  - intros Hp. destruct (roots_inv_run E left ops Hp sid) as [Hplain Hin].
    { fold w. rewrite Hsb. eauto. }
    split; [apply root_place_plain; exact Hplain|exact Hin].
Qed.

Lemma registered_sandboxes_are_well_filed_witness :
  exists sb,
    active_sandboxes (run demo_env demo_ops (startup demo_env demo_disk))
      !! "session-token-0" = Some sb /\
    sb_session_id sb = "session-token-0" /\
    sb_working_directory sb = "sandbox/session-token-0/workspace" /\
    root_place demo_env "session-token-0" = ["srv"; "sandbox"; "session-token-0"] /\
    root_place demo_env "session-token-0"
      ∈ dirs (run demo_env demo_ops (startup demo_env demo_disk)).
Proof.
  destruct (active_sandboxes (run demo_env demo_ops (startup demo_env demo_disk))
              !! "session-token-0") as [sb|] eqn:Hsb;
    [|vm_compute in Hsb; discriminate Hsb].
  exists sb. split; [reflexivity|].
  destruct (registered_sandboxes_are_well_filed demo_env demo_disk demo_ops
              "session-token-0" sb Hsb) as (H1 & H2 & _ & _ & H5).
  split; [exact H1|]. split; [exact H2|].
  split; [vm_compute; reflexivity|]. apply H5. vm_compute. reflexivity.
Defined.

(** ** The in-memory log *)

Lemma trim_logs_length (l : list LogEntry) : (length (trim_logs l) <= 1000)%nat.
Proof.
  unfold trim_logs. destruct (1000 <? length l)%nat eqn:H.
  - rewrite (slice_from_neg 1000) by lia. rewrite lastn_length. lia.
  - apply Nat.ltb_ge in H. exact H.
Qed.

Ltac logs_case :=
  rewrite ?log_structured_eq; cbn;
  first [left; reflexivity | right; eexists; reflexivity].

(** A call leaves the log alone or ends with an append by [log_structured]. *)
Lemma json_logs_step E o w :
  json_logs (exec_op E o w) = json_logs w \/
  exists l, json_logs (exec_op E o w) = trim_logs l.
Proof.
  destruct o as [rq|sid|sid| |sid user|sid rq|sid limit|sid|level event kwargs];
    unfold exec_op.
  - unfold authenticate, _validate_ssh_key, _validate_api_token. run_monad.
    destruct (method rq); cbn.
    + destruct (validate_ssh_key_loop _ _) as [[|c t]|]; cbn; logs_case.
    + destruct (validate_api_token_loop _ _) as [[[|c t]|]|e]; cbn; logs_case.
  - unfold validate_session. run_monad.
    destruct (active_sessions w !! sid) as [s|]; cbn; [|logs_case].
    destruct (s_expires_at s <? _); cbn; logs_case.
  - unfold logout. run_monad.
    destruct (active_sessions w !! sid) as [s|]; cbn; logs_case.
  - unfold get_active_sessions. run_monad. logs_case.
  - pose proof (create_sandbox_cases E w sid user) as Hc.
    destruct (create_sandbox E sid user w) as [[sb|e] w']; cbn [snd];
      destruct Hc as (_ & _ & _ & _ & Hc).
    + right. destruct Hc as (_ & _ & _ & _ & _ & _ & ->). eauto.
    + left. apply Hc.
  - unfold execute_command. run_monad.
    destruct (active_sandboxes w !! sid); cbn; [|logs_case].
    destruct (_is_command_safe E (command rq)) as [[|] msg]; cbn; [|logs_case].
    rewrite log_structured_eq; cbn.
    destruct (_simulate_devops_command _ _) as [[out err] code]; cbn.
    destruct (command_history w !! sid); cbn; logs_case.
  - rewrite get_command_history_pure. left. reflexivity.
  - pose proof (cleanup_sandbox_cases E w sid) as Hc.
    destruct (cleanup_sandbox E sid w) as [r w']. cbn [snd].
    destruct Hc as (Hc & _).
    destruct (active_sandboxes w !! sid); [|left; destruct Hc as [_ ->]; reflexivity].
    destruct (removal_fails E sid w).
    + right. destruct Hc as (_ & _ & _ & _ & e & ->). eauto.
    + right. destruct Hc as (_ & _ & _ & _ & ->). eauto.
  - logs_case.
Qed.

(** X18. The in-memory log is a ring of 1000: in every state the process
    reaches it holds at most 1000 entries, and [get_recent_logs] with a
    positive limit returns the last [limit] of them, so at most [limit], and
    all of them with a limit of zero or less. *)
Theorem log_is_a_ring_of_1000 E left ops limit :
  let w := run E ops (startup E left) in
  let got := fst (get_recent_logs limit w) in
  (length (json_logs w) <= 1000)%nat /\
  suffix got (json_logs w) /\
  if 0 <? limit
  then got = lastn (Z.to_nat limit) (json_logs w) /\
       Z.of_nat (length got) <= limit /\ (length got <= 1000)%nat
  else got = json_logs w.
Proof.
  intros w got.
  assert (Hb : (length (json_logs w) <= 1000)%nat).
  { assert (H : forall v, (length (json_logs v) <= 1000)%nat ->
                          (length (json_logs (run E ops v)) <= 1000)%nat).
    { induction ops as [|o ops IH]; intros v Hv; simpl; [exact Hv|].
      apply IH. destruct (json_logs_step E o v) as [->|[l ->]];
        [exact Hv|apply trim_logs_length]. }
    apply H. destruct (startup_state E left) as (_ & _ & _ & _ & _ & -> & _).
    cbn [length]. lia. }
  split; [exact Hb|].
  assert (Hgot : got = if 0 <? limit then slice_from (- limit) (json_logs w)
                       else json_logs w) by reflexivity.
  rewrite Hgot. clear Hgot got.
  destruct (0 <? limit) eqn:Hl.
  - apply Z.ltb_lt in Hl.
    assert (Hs : slice_from (- limit) (json_logs w)
                 = lastn (Z.to_nat limit) (json_logs w)).
    { rewrite <- (slice_from_neg (Z.to_nat limit)) by lia. f_equal. lia. }
    rewrite Hs. split; [apply lastn_suffix|]. split; [reflexivity|].
    rewrite lastn_length. lia.
  - split; reflexivity.
Qed.

Example log_ring_drops_the_oldest :
  let w := run demo_env (repeat (OpLog info "tick" []) 1005) (startup demo_env demo_disk) in
  length (json_logs w) = 1000%nat /\
  log_timestamp <$> head (json_logs w) = Some (clock demo_env 5).
Proof. vm_compute. split; reflexivity. Qed.

(** ** A key line with a comment *)

Lemma length_append (a b : string) :
  String.length (a +:+ b) = (String.length a + String.length b)%nat.
Proof. induction a; simpl; congruence. Qed.

Lemma contains_length (p s : string) :
  Py.contains p s = true -> (String.length p <= String.length s)%nat.
Proof.
  rewrite contains_infix. intros (a & b & ->). rewrite !length_append. lia.
Qed.

Lemma split_go_word (t rest cur : string) :
  nospace t = true ->
  Py.split_go (t +:+ rest) cur = Py.split_go rest (Py.rev_onto t cur).
Proof.
  revert cur. induction t as [|c t IH]; intros cur Ht; simpl.
  - reflexivity.
  - rewrite nospace_cons in Ht. apply andb_true_iff in Ht as [Hc Ht].
    apply negb_true_iff in Hc. rewrite Hc. apply IH, Ht.
Qed.

(** A word followed by a blank is the first word of the line. *)
Lemma split_word_blank (t rest : string) :
  t <> "" -> nospace t = true ->
  Py.split (t +:+ String " " rest) = t :: Py.split rest.
Proof.
  intros Hne Ht. unfold Py.split. rewrite split_go_word by exact Ht.
  simpl. destruct (Py.rev_onto t "") as [|c r] eqn:Hr.
  - apply rev_onto_empty in Hr as [Hr _]. congruence.
  - rewrite <- Hr. fold (Py.rev t). rewrite rev_involutive. reflexivity.
Qed.

(** A line that starts and ends with a word is what [strip] leaves of it. *)
Lemma strip_between_words (a b t : string) :
  a <> "" -> nospace a = true -> t <> "" -> nospace t = true ->
  Py.strip (a +:+ b +:+ t) = a +:+ b +:+ t.
Proof.
  intros Ha Hna Ht Hnt. unfold Py.strip, Py.rstrip.
  assert (Hl : Py.lstrip (a +:+ b +:+ t) = a +:+ b +:+ t).
  { destruct a as [|c a]; [congruence|].
    rewrite nospace_cons in Hna. apply andb_true_iff in Hna as [Hc _].
    apply negb_true_iff in Hc. simpl. rewrite Hc. reflexivity. }
  rewrite Hl, <- append_assoc, rev_app.
  assert (Hr : Py.lstrip (Py.rev t +:+ Py.rev (a +:+ b)) = Py.rev t +:+ Py.rev (a +:+ b)).
  { destruct (Py.rev t) as [|c r] eqn:Hrev.
    - unfold Py.rev in Hrev. apply rev_onto_empty in Hrev as [Hrev _]. congruence.
    - assert (Hn : nospace (String c r) = true) by (rewrite <- Hrev, nospace_rev; exact Hnt).
      rewrite nospace_cons in Hn. apply andb_true_iff in Hn as [Hc _].
      apply negb_true_iff in Hc. simpl. rewrite Hc. reflexivity. }
  rewrite Hr, rev_app, !rev_involutive. reflexivity.
Qed.

(** Whether a line is a comment is decided by its first character. *)
Lemma startswith_hash (c : ascii) (a b : string) :
  Py.startswith "#" (String c a +:+ b) = Py.startswith "#" (String c a).
Proof.
  unfold Py.startswith.
  change (String c a +:+ b) with (String c (a +:+ b)).
  change (String.prefix "#" (String c (a +:+ b)))
    with (if Ascii.ascii_dec "#" c then String.prefix "" (a +:+ b) else false).
  change (String.prefix "#" (String c a))
    with (if Ascii.ascii_dec "#" c then String.prefix "" a else false).
  destruct (Ascii.ascii_dec "#" c); [|reflexivity].
  destruct (a +:+ b), a; reflexivity.
Qed.

(** X19. An authorized_keys file of one line, key type, key data and a
    comment, gives one entry: the comment is the owner and the stored key is
    type and data only.  In every state the process reaches, the key
    presented as "type data" opens a session for that owner, and the line
    presented as it stands in the file, comment included, is refused. *)
Theorem key_line_with_comment_is_refused E left ops ty data owner :
  ty <> "" -> nospace ty = true -> Py.startswith "#" ty = false ->
  data <> "" -> nospace data = true ->
  owner <> "" -> nospace owner = true ->
  let line := ty +:+ " " +:+ data +:+ " " +:+ owner in
  authorized_keys E = Some [line] ->
  let w := run E ops (startup E left) in
  _load_ssh_keys E = [(owner, ty +:+ " " +:+ data)] /\
  (exists resp,
     fst (authenticate E {| method := SSH_KEY; credentials := ty +:+ " " +:+ data;
                            username := None |} w) = Returned resp /\
     success resp = true /\ message resp = "Authenticated as " +:+ owner) /\
  fst (authenticate E {| method := SSH_KEY; credentials := line;
                         username := None |} w)
  = Returned {| success := false; session_id := None;
                message := "Invalid credentials"; expires_at := None |}.
Proof.
  intros Hty Hnty Hhash Hdata Hndata Howner Hnowner line Hfile w.
  assert (Hstrip : Py.strip line = line).
  { pose proof (strip_between_words ty (" " +:+ data +:+ " ") owner
                  Hty Hnty Howner Hnowner) as H.
    simpl in H. rewrite append_assoc in H. exact H. }
  assert (Hsplit : Py.split line = [ty; data; owner]).
  { unfold line. simpl. rewrite (split_word_blank ty) by assumption.
    rewrite (split_word_blank data) by assumption.
    destruct (word_strip_split owner Howner Hnowner) as [_ ->]. reflexivity. }
  assert (Hkeys : _load_ssh_keys E = [(owner, ty +:+ " " +:+ data)]).
  { unfold _load_ssh_keys. rewrite Hfile. cbn [load_key_lines].
    unfold load_key_line. rewrite Hstrip, Hsplit.
    assert (Hstart : Py.startswith "#" line = false).
    { unfold line. destruct ty as [|c ty']; [congruence|].
      rewrite startswith_hash. exact Hhash. }
    rewrite Hstart.
    destruct line as [|c0 l0] eqn:Hline.
    { unfold line in Hline. destruct ty; [congruence|discriminate Hline]. }
    reflexivity. }
  split; [exact Hkeys|].
  destruct (session_inv_run E left ops) as (_ & Hk & _). fold w in Hk.
  split.
  - destruct owner as [|c t] eqn:Ho; [congruence|]. rewrite <- Ho in *.
    set (rq := {| method := SSH_KEY; credentials := ty +:+ " " +:+ data;
                  username := None |}).
    assert (Hs2 : Py.strip (ty +:+ " " +:+ data) = ty +:+ " " +:+ data).
    { apply (strip_between_words ty " " data); assumption. }
    assert (Hm : matched_user rq w = Returned (Some (String c t))).
    { unfold matched_user, rq. cbn [method credentials].
      rewrite Hs2, Hk, Hkeys, Ho. cbn [validate_ssh_key_loop].
      rewrite String.eqb_refl. reflexivity. }
    destruct (authenticate_accepted E rq w c t Hm) as (w' & -> & _).
    eexists. split; [reflexivity|]. rewrite Ho. split; reflexivity.
  - set (rq := {| method := SSH_KEY; credentials := line; username := None |}).
    assert (Hm : matched_user rq w = Returned None).
    { unfold matched_user, rq. cbn [method credentials].
      rewrite Hstrip, Hk, Hkeys. cbn [validate_ssh_key_loop].
      assert (Hlen : (String.length (ty +:+ " " +:+ data) < String.length line)%nat).
      { unfold line. rewrite !length_append. simpl. lia. }
      destruct (String.eqb line (ty +:+ " " +:+ data)) eqn:Heq.
      { apply String.eqb_eq in Heq. rewrite <- Heq in Hlen. lia. }
      destruct (Py.contains line (ty +:+ " " +:+ data)) eqn:Hc.
      { apply contains_length in Hc. lia. }
      reflexivity. }
    destruct (authenticate_rejected E rq w None Hm eq_refl) as (w' & -> & _).
    reflexivity.
Qed.

Lemma key_line_with_comment_is_refused_witness :
  let E := {| cfg := Config.default; clock := clock demo_env;
              token_urlsafe := token_urlsafe demo_env;
              cwd := ["srv"];
              mkdir_refused := fun _ => false;
              rmtree_raises := fun _ => false;
              rmtree_spares := fun _ _ => false;
              authorized_keys := Some ["ssh-ed25519 AAAAC3Nza alice@example"] |} in
  _load_ssh_keys E = [("alice@example", "ssh-ed25519 AAAAC3Nza")] /\
  fst (authenticate E {| method := SSH_KEY;
                         credentials := "ssh-ed25519 AAAAC3Nza alice@example";
                         username := None |} (startup E demo_disk))
  = Returned {| success := false; session_id := None;
                message := "Invalid credentials"; expires_at := None |}.
Proof.
  cbv zeta.
  destruct (key_line_with_comment_is_refused
              {| cfg := Config.default; clock := clock demo_env;
                 token_urlsafe := token_urlsafe demo_env;
                 cwd := ["srv"];
                 mkdir_refused := fun _ => false;
                 rmtree_raises := fun _ => false;
                 rmtree_spares := fun _ _ => false;
                 authorized_keys := Some ["ssh-ed25519 AAAAC3Nza alice@example"] |}
              demo_disk [] "ssh-ed25519" "AAAAC3Nza" "alice@example")
    as (H1 & _ & H3); try reflexivity; try discriminate.
  split; [exact H1|exact H3].
Defined.
